(** * PRP orchestrator: state derivation, action selection, locking and
      the revision / execution workflows.

    A shallow embedding of [src/state.ts], [src/orchestrator.ts],
    [src/utils.ts] and [src/actions.ts].

    Conventions of the embedding.
    - JavaScript strings are Rocq [string]s; case conversion and white space
      are those of the ASCII range.
    - JavaScript numbers that hold counts, process ids and millisecond clocks
      are [Z].
    - [undefined] / optional fields are [option]; truthiness tests are
      written out ([truthy], [falsyNum]).
    - External tools (git, gh, the file system, the coding agent) are an
      explicit environment: every call site reads its outcome from a record
      and, in the workflows, appends what it did to a trace. *)

From stdpp Require Import gmap strings list pretty.
From Stdlib Require Import ZArith Ascii.

(* ===================================================================== *)
(** ** JavaScript string primitives used by the sources *)
(* ===================================================================== *)

Module JS.

Definition nl : string := String "010"%char "".

Definition isWhiteSpace (c : ascii) : bool := Ascii.is_space c.

Definition toLowerChar (c : ascii) : ascii :=
  let n := Ascii.N_of_ascii c in
  if ((65 <=? n) && (n <=? 90))%N then Ascii.ascii_of_N (n + 32) else c.

Definition toUpperChar (c : ascii) : ascii :=
  let n := Ascii.N_of_ascii c in
  if ((97 <=? n) && (n <=? 122))%N then Ascii.ascii_of_N (n - 32) else c.

Fixpoint mapChars (f : ascii -> ascii) (s : string) : string :=
  match s with
  | EmptyString => EmptyString
  | String c s' => String (f c) (mapChars f s')
  end.

(** [s.toLowerCase()], [s.toUpperCase()] *)
Definition toLowerCase : string -> string := mapChars toLowerChar.
Definition toUpperCase : string -> string := mapChars toUpperChar.

(** [s.trim()] *)
Fixpoint trimStart (s : string) : string :=
  match s with
  | EmptyString => EmptyString
  | String c s' => if isWhiteSpace c then trimStart s' else s
  end.

Fixpoint trimEnd (s : string) : string :=
  match s with
  | EmptyString => EmptyString
  | String c s' =>
      match trimEnd s' with
      | EmptyString => if isWhiteSpace c then EmptyString else String c EmptyString
      | t => String c t
      end
  end.

Definition trim (s : string) : string := trimEnd (trimStart s).

(** A string is truthy when it is not empty. *)
Definition truthy (s : string) : bool :=
  match s with EmptyString => false | _ => true end.

(** [!n] on an optional number: [undefined] and [0] are falsy. *)
Definition falsyNum (o : option Z) : bool :=
  match o with Some n => (n =? 0)%Z | None => true end.

(** [s.split('\n')[0]] *)
Fixpoint firstLine (s : string) : string :=
  match s with
  | EmptyString => EmptyString
  | String c s' =>
      if Ascii.eqb c "010"%char then EmptyString else String c (firstLine s')
  end.

Fixpoint drop (n : nat) (s : string) : string :=
  match n, s with
  | O, _ => s
  | S _, EmptyString => EmptyString
  | S n', String _ s' => drop n' s'
  end.

(** [s.startsWith(p)] *)
Definition startsWith (p s : string) : bool := String.prefix p s.

(** [s.includes(sub)] *)
Fixpoint includes (sub s : string) : bool :=
  startsWith sub s ||
  match s with
  | EmptyString => false
  | String _ s' => includes sub s'
  end.

(** The replacement text of [s.replace(pat, rep)] for a string pattern:
    in [rep], [$$] stands for a dollar sign, [$&] for the match, [$`] for
    the text before the match and [$'] for the text after it; there are no
    groups, so any other [$] stands for itself. *)
Fixpoint expandReplacement (matched before after rep : string) : string :=
  match rep with
  | EmptyString => EmptyString
  | String a rep' =>
      if Ascii.eqb a "$"%char then
        match rep' with
        | String c rest =>
            if Ascii.eqb c "$"%char
            then String "$"%char (expandReplacement matched before after rest)
            else if Ascii.eqb c "&"%char
            then matched +:+ expandReplacement matched before after rest
            else if Ascii.eqb c "`"%char
            then before +:+ expandReplacement matched before after rest
            else if Ascii.eqb c "'"%char
            then after +:+ expandReplacement matched before after rest
            else String a (expandReplacement matched before after rep')
        | EmptyString => String a EmptyString
        end
      else String a (expandReplacement matched before after rep')
  end.

(** [s.replace(pat, rep)] from the point where [before] has been passed. *)
Fixpoint replaceFrom (pat rep before s : string) : string :=
  if startsWith pat s
  then expandReplacement pat before (drop (String.length pat) s) rep
       +:+ drop (String.length pat) s
  else match s with
       | EmptyString => EmptyString
       | String c s' => String c (replaceFrom pat rep (before +:+ String c EmptyString) s')
       end.

(** [s.replace(pat, rep)] with a string pattern: the first occurrence only. *)
Definition replaceFirst (pat rep s : string) : string :=
  replaceFrom pat rep EmptyString s.

(** [l.join(sep)] *)
Fixpoint join (sep : string) (l : list string) : string :=
  match l with
  | [] => EmptyString
  | [x] => x
  | x :: l' => x +:+ sep +:+ join sep l'
  end.

(** [s.slice(0, n)] *)
Definition slice0 (n : nat) (s : string) : string := String.substring 0 n s.

(** The character class [[a-z0-9]]. *)
Definition isLowerAlnum (c : ascii) : bool :=
  let n := Ascii.N_of_ascii c in
  (((97 <=? n) && (n <=? 122)) || ((48 <=? n) && (n <=? 57)))%N.

(** [s.replace(/[^a-z0-9]+/g, '-')]: every maximal run of characters
    outside the class becomes one hyphen.  [inRun] tells that the previous
    character already belonged to the run being replaced. *)
Fixpoint hyphenateRuns (inRun : bool) (s : string) : string :=
  match s with
  | EmptyString => EmptyString
  | String c s' =>
      if isLowerAlnum c then String c (hyphenateRuns false s')
      else if inRun then hyphenateRuns true s'
      else String "-"%char (hyphenateRuns true s')
  end.

Fixpoint dropLastHyphen (s : string) : string :=
  match s with
  | EmptyString => EmptyString
  | String c EmptyString =>
      if Ascii.eqb c "-"%char then EmptyString else s
  | String c s' => String c (dropLastHyphen s')
  end.

(** [s.replace(/^-|-$/g, '')]: one hyphen off the front, one off the end. *)
Definition stripEdgeHyphens (s : string) : string :=
  match s with
  | String c s' =>
      if Ascii.eqb c "-"%char then dropLastHyphen s' else dropLastHyphen s
  | EmptyString => EmptyString
  end.

(** The parts of [s] between the occurrences of [sep]; there is always at
    least one. *)
Fixpoint splitOn (sep : ascii) (s : string) : list string :=
  match s with
  | EmptyString => [EmptyString]
  | String c s' =>
      if Ascii.eqb c sep then EmptyString :: splitOn sep s'
      else match splitOn sep s' with
           | part :: rest => String c part :: rest
           | [] => [String c EmptyString]
           end
  end.

(** The last character of [s] is [c]. *)
Fixpoint endsWithChar (c : ascii) (s : string) : bool :=
  match s with
  | EmptyString => false
  | String a EmptyString => Ascii.eqb a c
  | String _ s' => endsWithChar c s'
  end.

(** One part of a path in [normalizeString] of Node's [path] module: an
    empty part and [.] are skipped, [..] removes the part before it - unless
    there is none or it is [..] itself, when [..] is kept in a relative path
    and dropped in an absolute one - and any other part is kept. *)
Definition normalizePart (allowAboveRoot : bool) (res : list string) (part : string)
  : list string :=
  if String.eqb part "" || String.eqb part "." then res
  else if String.eqb part ".." then
    match last res with
    | Some prev =>
        if String.eqb prev ".."
        then (if allowAboveRoot then res ++ [".."] else res)
        else removelast res
    | None => if allowAboveRoot then [".."] else []
    end
  else res ++ [part].

Definition normalizeString (p : string) (allowAboveRoot : bool) : string :=
  join "/" (fold_left (normalizePart allowAboveRoot) (splitOn "/" p) []).

(** [path.normalize(p)] of the POSIX flavour of Node's [path] module. *)
Definition normalize (p : string) : string :=
  match p with
  | EmptyString => "."
  | String c _ =>
      let isAbsolute := Ascii.eqb c "/" in
      let trailingSeparator := endsWithChar "/" p in
      match normalizeString p (negb isAbsolute) with
      | EmptyString =>
          if isAbsolute then "/" else if trailingSeparator then "./" else "."
      | res =>
          (if isAbsolute then "/" else "") +:+ res
          +:+ (if trailingSeparator then "/" else "")
      end
  end.

(** [path.join(...parts)] of the POSIX flavour: the arguments that are not
    empty are joined with a slash and the result is normalised. *)
Definition pathJoinAll (parts : list string) : string :=
  match List.filter truthy parts with
  | [] => "."
  | used => normalize (join "/" used)
  end.

(** [path.join(dir, file)] *)
Definition pathJoin (dir file : string) : string := pathJoinAll [dir; file].

End JS.

(* ===================================================================== *)
(** ** Exceptions, external outcomes and a state-and-error monad *)
(* ===================================================================== *)

(** What a JavaScript computation ends in: a value or a thrown error. *)
Inductive Result (A : Type) : Type :=
| Ok (a : A)
| Throw (e : string).
Arguments Ok {A} a.
Arguments Throw {A} e.

(** What [execSync] does with a command: it exits with status 0 and some
    standard output, or it raises (non-zero exit, time-out, missing tool). *)
Inductive Outcome (T : Type) : Type :=
| Exit0 (out : T)
| ExecError (e : string).
Arguments Exit0 {T} out.
Arguments ExecError {T} e.

(** Standard output of a tool asked for JSON: text that [JSON.parse]
    rejects, or the JSON text of a value of the shape asked for. *)
Inductive Stdout (A : Type) : Type :=
| NotJson (text : string)
| JsonOf (v : A).
Arguments NotJson {A} text.
Arguments JsonOf {A} v.

(** Outputs can be trimmed and have an empty value, the [''] that a silent
    [exec] returns on failure. *)
Class Output (T : Type) := { outTrim : T -> T; outEmpty : T }.

#[global] Instance Output_string : Output string :=
  {| outTrim := JS.trim; outEmpty := EmptyString |}.

#[global] Instance Output_Stdout (A : Type) : Output (Stdout A) :=
  {| outTrim := fun o => match o with
                         | NotJson t => NotJson (JS.trim t)
                         | JsonOf v => JsonOf v
                         end;
     outEmpty := NotJson EmptyString |}.

(** [exec(command, { silent })] of utils.ts, given what the command does. *)
Definition exec {T : Type} `{Output T} (o : Outcome T) (silent : bool) : Result T :=
  match o with
  | Exit0 out => Ok (outTrim out)
  | ExecError e => if silent then Ok outEmpty else Throw e
  end.

(** [JSON.parse(str)] *)
Definition JSONparse {A : Type} (str : Stdout A) : Result A :=
  match str with
  | JsonOf v => Ok v
  | NotJson _ => Throw "SyntaxError"
  end.

(** [safeJsonParse(str, fallback)] of utils.ts *)
Definition safeJsonParse {A : Type} (str : Stdout A) (fallback : A) : A :=
  match JSONparse str with
  | Ok v => v
  | Throw _ => fallback
  end.

(** Computations over a mutable store [S] that may throw.  The store a
    computation has written survives a throw, as assignments made inside a
    [try] block survive into its [catch]. *)
Definition Eff (S A : Type) : Type := S -> Result A * S.

Definition ret {S A : Type} (a : A) : Eff S A := fun s => (Ok a, s).

Definition bind {S A B : Type} (m : Eff S A) (k : A -> Eff S B) : Eff S B :=
  fun s => match m s with
           | (Ok a, s') => k a s'
           | (Throw e, s') => (Throw e, s')
           end.

Definition throw {S A : Type} (e : string) : Eff S A := fun s => (Throw e, s).

Definition get {S : Type} : Eff S S := fun s => (Ok s, s).

Definition modify {S : Type} (f : S -> S) : Eff S unit := fun s => (Ok tt, f s).

Definition lift {S A : Type} (r : Result A) : Eff S A := fun s => (r, s).

(** [try { m } catch { h }] *)
Definition tryCatch {S A : Type} (m : Eff S A) (h : string -> Eff S A) : Eff S A :=
  fun s => match m s with
           | (Ok a, s') => (Ok a, s')
           | (Throw e, s') => h e s'
           end.

Definition when {S : Type} (b : bool) (m : Eff S unit) : Eff S unit :=
  if b then m else ret tt.

Declare Scope eff_scope.
Delimit Scope eff_scope with eff.
Notation "x <- m ;; k" := (bind m (fun x => k))
  (at level 100, m at next level, right associativity) : eff_scope.
Notation "m ;;; k" := (bind m (fun _ => k))
  (at level 100, right associativity) : eff_scope.

(* ===================================================================== *)
(** ** types.ts *)
(* ===================================================================== *)

Module MasterPRP.
Record t : Type := mk {
  id : string;
  title : string;
  scope : string;
  depends_on : option (list string);
  acceptance_criteria : option (list string);
  files_to_create : option (list (string * string));
  files_to_modify : option (list (string * string));
  tests_required : option (list string);
  notes : option string;
}.
End MasterPRP.

Record MasterPlan : Type := {
  plan_name : string;
  context : option string;
  constraints : option (list string);
  completed : option (list string);
  prps : list MasterPRP.t;
}.

(** [reviewState] is only ever assigned one of four literals. *)
Inductive ReviewState : Type := approved | changes_requested | pending | none.

#[global] Instance ReviewState_eq_dec : EqDecision ReviewState.
Proof. solve_decision. Defined.

Module PRPState.
(** [prState] is assigned the lower-cased text the platform reports, so it
    is a string; the sources compare it with ['open'] and ['merged']. *)
Record t : Type := mk {
  id : string;
  title : string;
  scope : string;
  dependsOn : list string;
  masterPrp : MasterPRP.t;
  isEnriched : bool;
  enrichedFile : option string;
  branch : option string;
  prNumber : option Z;
  prState : option string;
  reviewState : option ReviewState;
}.

Definition set_enriched (f : string) (s : t) : t :=
  mk (id s) (title s) (scope s) (dependsOn s) (masterPrp s)
     true (Some f) (branch s) (prNumber s) (prState s) (reviewState s).

Definition set_branch (b : string) (s : t) : t :=
  mk (id s) (title s) (scope s) (dependsOn s) (masterPrp s)
     (isEnriched s) (enrichedFile s) (Some b) (prNumber s) (prState s) (reviewState s).

Definition set_prNumber (n : Z) (s : t) : t :=
  mk (id s) (title s) (scope s) (dependsOn s) (masterPrp s)
     (isEnriched s) (enrichedFile s) (branch s) (Some n) (prState s) (reviewState s).

Definition set_prState (p : string) (s : t) : t :=
  mk (id s) (title s) (scope s) (dependsOn s) (masterPrp s)
     (isEnriched s) (enrichedFile s) (branch s) (prNumber s) (Some p) (reviewState s).

Definition set_reviewState (r : ReviewState) (s : t) : t :=
  mk (id s) (title s) (scope s) (dependsOn s) (masterPrp s)
     (isEnriched s) (enrichedFile s) (branch s) (prNumber s) (prState s) (Some r).
End PRPState.

Record ProjectContext : Type := {
  ctx_name : string;
  path : string;
  masterFile : string;
  enrichedDir : string;
  lockFile : string;
}.

(* ===================================================================== *)
(** ** state.ts *)
(* ===================================================================== *)

(** One element of [gh pr list --json number,state,reviewDecision,labels]. *)
Record Label : Type := { name : string }.

Record PrJson : Type := {
  number : Z;
  state : string;
  reviewDecision : option string;
  labels : option (list Label);
}.

(** One element of [gh pr list --state merged --json number]. *)
Record MergedJson : Type := { merged_number : Z }.

(** What the outside world answers to the queries of one derivation. *)
Record World : Type := {
  (** [fs.existsSync(file)] *)
  existsSync : string -> bool;
  (** [git branch -r --list "<pattern>"] *)
  gitBranchRemoteList : string -> Outcome string;
  (** [gh pr list --head "<branch>" --json ... --limit 1] *)
  ghPrListHead : string -> Outcome (Stdout (list PrJson));
  (** [gh pr list --search "head:<prefix>" --state merged --json number --limit 1] *)
  ghPrListMerged : string -> Outcome (Stdout (list MergedJson));
}.

(** [ghExec]: [exec] after exporting the bot token, which leaves the
    outcome of the command to the world. *)
Definition ghExec {T : Type} `{Output T} (o : Outcome T) (silent : bool) : Result T :=
  exec o silent.

(** The prefix [`auto/${prp.id.toLowerCase()}-`] of derivePRPState. *)
Definition branchPrefix (prpId : string) : string :=
  "auto/" +:+ JS.toLowerCase prpId +:+ "-".

Definition labelNames (pr : PrJson) : list string :=
  List.map (fun l => JS.toLowerCase (name l)) (default [] (labels pr)).

(** [labels.includes(x)] *)
Definition hasLabel (x : string) (ls : list string) : bool :=
  bool_decide (x ∈ ls).

(** Lines 88-106: the review decision of the request found by branch. *)
Definition deriveReviewState (pr : PrJson) : ReviewState :=
  let labels := labelNames pr in
  if hasLabel "approved" labels || hasLabel "lgtm" labels then approved
  else if hasLabel "changes-requested" labels || hasLabel "needs-changes" labels
  then changes_requested
  else
    let decision := JS.toUpperCase <$> reviewDecision pr in
    if bool_decide (decision = Some "APPROVED") then approved
    else if bool_decide (decision = Some "CHANGES_REQUESTED") then changes_requested
    else if bool_decide (decision = Some "REVIEW_REQUIRED") then pending
    else none.

Local Open Scope eff_scope.

Definition initialState (prp : MasterPRP.t) : PRPState.t :=
  PRPState.mk (MasterPRP.id prp) (MasterPRP.title prp) (MasterPRP.scope prp)
              (default [] (MasterPRP.depends_on prp)) prp
              false None None None None None.

(** Lines 53-58 *)
Definition checkEnriched (w : World) (prp : MasterPRP.t) (ctx : ProjectContext)
  : Eff PRPState.t unit :=
  let enrichedFile := JS.pathJoin (enrichedDir ctx) (MasterPRP.id prp +:+ ".md") in
  when (existsSync w enrichedFile) (modify (PRPState.set_enriched enrichedFile)).

(** Lines 60-73 *)
Definition checkBranch (w : World) (prp : MasterPRP.t) : Eff PRPState.t unit :=
  tryCatch
    (branches <- lift (exec (gitBranchRemoteList w
                               ("origin/" +:+ branchPrefix (MasterPRP.id prp) +:+ "*"))
                            true) ;;
     when (JS.truthy branches)
          (modify (PRPState.set_branch
                     (JS.replaceFirst "origin/" "" (JS.trim (JS.firstLine branches))))))
    (fun _ => ret tt).

(** Lines 75-111 *)
Definition checkPR (w : World) : Eff PRPState.t unit :=
  st <- get ;;
  match PRPState.branch st with
  | Some b =>
      when (JS.truthy b)
        (tryCatch
           (prJson <- lift (ghExec (ghPrListHead w b) true) ;;
            let prs := safeJsonParse prJson [] in
            match prs with
            | pr :: _ =>
                modify (PRPState.set_prNumber (number pr)) ;;;
                modify (PRPState.set_prState (JS.toLowerCase (state pr))) ;;;
                modify (PRPState.set_reviewState (deriveReviewState pr))
            | [] => ret tt
            end)
           (fun _ => ret tt))
  | None => ret tt
  end.

(** Lines 113-129 *)
Definition checkMerged (w : World) (prp : MasterPRP.t) : Eff PRPState.t unit :=
  st <- get ;;
  when (JS.falsyNum (PRPState.prNumber st))
    (tryCatch
       (mergedJson <- lift (ghExec (ghPrListMerged w (branchPrefix (MasterPRP.id prp))) true) ;;
        let merged := safeJsonParse mergedJson [] in
        match merged with
        | m :: _ =>
            modify (PRPState.set_prNumber (merged_number m)) ;;;
            modify (PRPState.set_prState "merged")
        | [] => ret tt
        end)
       (fun _ => ret tt)).

(** The body of derivePRPState as a computation over the state record it
    fills in. *)
Definition derivePRPState_body (w : World) (prp : MasterPRP.t) (ctx : ProjectContext)
  : Eff PRPState.t unit :=
  checkEnriched w prp ctx ;;;
  checkBranch w prp ;;;
  checkPR w ;;;
  checkMerged w prp.

(** [derivePRPState(prp, ctx)]: the record is returned at the end; an error
    escaping the body would reject the promise instead. *)
Definition derivePRPState (w : World) (prp : MasterPRP.t) (ctx : ProjectContext)
  : Result PRPState.t :=
  match derivePRPState_body w prp ctx (initialState prp) with
  | (Ok _, st) => Ok st
  | (Throw e, _) => Throw e
  end.

(** [deriveAllStates(master, ctx)], without the status display. *)
Fixpoint deriveStates (w : World) (ctx : ProjectContext) (l : list MasterPRP.t)
  : Result (list PRPState.t) :=
  match l with
  | [] => Ok []
  | prp :: rest =>
      match derivePRPState w prp ctx with
      | Ok st => match deriveStates w ctx rest with
                 | Ok sts => Ok (st :: sts)
                 | Throw e => Throw e
                 end
      | Throw e => Throw e
      end
  end.

Definition deriveAllStates (w : World) (master : MasterPlan) (ctx : ProjectContext)
  : Result (list PRPState.t) :=
  deriveStates w ctx (prps master).

Definition isMerged (s : PRPState.t) : bool :=
  bool_decide (PRPState.prState s = Some "merged").

Definition isOpen (s : PRPState.t) : bool :=
  bool_decide (PRPState.prState s = Some "open").

(** [isComplete(states)] *)
Definition isComplete (states : list PRPState.t) : bool :=
  forallb isMerged states.

(** [getMergedIds(states, completed)] *)
Definition getMergedIds (states : list PRPState.t) (completed : option (list string))
  : gset string :=
  let merged : gset string :=
    list_to_set (List.map PRPState.id (List.filter isMerged states)) in
  match completed with
  | Some ids => fold_left (fun acc id => {[ id ]} ∪ acc) ids merged
  | None => merged
  end.

(** The callback of [states.find] in findNextPRP. *)
Definition readyToWork (mergedIds : gset string) (s : PRPState.t) : bool :=
  if isMerged s || isOpen s then false
  else forallb (fun dep => bool_decide (dep ∈ mergedIds)) (PRPState.dependsOn s).

(** [findNextPRP(states, completed)] *)
Definition findNextPRP (states : list PRPState.t) (completed : option (list string))
  : option PRPState.t :=
  let mergedIds := getMergedIds states completed in
  List.find (readyToWork mergedIds) states.

(** [findApprovedPRP(states)] *)
Definition findApprovedPRP (states : list PRPState.t) : option PRPState.t :=
  List.find (fun s => isOpen s && bool_decide (PRPState.reviewState s = Some approved))
            states.

(** [findChangesRequestedPRP(states)] *)
Definition findChangesRequestedPRP (states : list PRPState.t) : option PRPState.t :=
  List.find (fun s => isOpen s &&
                      bool_decide (PRPState.reviewState s = Some changes_requested))
            states.

(** [findPendingReviewPRP(states)] *)
Definition findPendingReviewPRP (states : list PRPState.t) : option PRPState.t :=
  List.find (fun s => isOpen s &&
                      (bool_decide (PRPState.reviewState s = Some pending) ||
                       bool_decide (PRPState.reviewState s = Some none)))
            states.

(* ===================================================================== *)
(** ** orchestrator.ts: the decision taken by executeNextAction *)
(* ===================================================================== *)

(** The workflow executeNextAction starts, or the reason it stops. *)
Inductive Action : Type :=
| Merge (prp : PRPState.t)
| Revise (prp : PRPState.t)
| Wait (prp : PRPState.t)
| Enrich (prp : PRPState.t)
| Execute (prp : PRPState.t)
| NoWork.

(** The chain of tests of executeNextAction, lines 127-167. *)
Definition selectNext (states : list PRPState.t) (completed : option (list string))
  : Action :=
  match findApprovedPRP states with
  | Some approvedPRP => Merge approvedPRP
  | None =>
      match findChangesRequestedPRP states with
      | Some changesRequestedPRP => Revise changesRequestedPRP
      | None =>
          match findPendingReviewPRP states with
          | Some pendingReview => Wait pendingReview
          | None =>
              match findNextPRP states completed with
              | None => NoWork
              | Some nextPRP =>
                  if negb (PRPState.isEnriched nextPRP) then Enrich nextPRP
                  else Execute nextPRP
              end
          end
      end
  end.

(** The boolean executeNextAction returns once the workflow has returned:
    whether the run loop goes on. *)
Definition shouldContinue (a : Action) : bool :=
  match a with
  | Merge _ | Enrich _ => true
  | Revise _ | Wait _ | Execute _ | NoWork => false
  end.

(* ===================================================================== *)
(** ** utils.ts: the lock file *)
(* ===================================================================== *)

(** A file as the lock code sees it: its text and [statSync(f).mtimeMs]. *)
Record File : Type := { content : string; mtimeMs : Z }.

Inductive FsOp : Type :=
| Unlink (file : string)
| WriteFile (file : string) (data : string).

(** The file system, the module-level [activeLocks] registry and, in
    order, the writes and removals performed so far. *)
Record Sys : Type := {
  files : gmap string File;
  activeLocks : gset string;
  fsOps : list FsOp;
}.

(** [fs.unlinkSync(file)] *)
Definition unlinkSync (file : string) (sys : Sys) : Sys :=
  {| files := delete file (files sys);
     activeLocks := activeLocks sys;
     fsOps := fsOps sys ++ [Unlink file] |}.

(** [fs.writeFileSync(file, data)] performed at time [now]. *)
Definition writeFileSync (file data : string) (now : Z) (sys : Sys) : Sys :=
  {| files := <[ file := {| content := data; mtimeMs := now |} ]> (files sys);
     activeLocks := activeLocks sys;
     fsOps := fsOps sys ++ [WriteFile file data] |}.

Definition registerLock (file : string) (sys : Sys) : Sys :=
  {| files := files sys;
     activeLocks := {[ file ]} ∪ activeLocks sys;
     fsOps := fsOps sys |}.

Definition unregisterLock (file : string) (sys : Sys) : Sys :=
  {| files := files sys;
     activeLocks := activeLocks sys ∖ {[ file ]};
     fsOps := fsOps sys |}.

(** [const maxAge = 45 * 60 * 1000] *)
Definition maxAge : Z := 45 * 60 * 1000.

(** [`${process.pid}:${Date.now()}`] *)
Definition lockContent (pid now : Z) : string :=
  pretty pid +:+ ":" +:+ pretty now.

(** [acquireLock(lockFile)].  [pid] is [process.pid]; [now1] and [now2] are
    the two readings of [Date.now()], at the age test and at the stamp.  The
    two diagnostic log lines are left out. *)
Definition acquireLock (pid now1 now2 : Z) (lockFile : string) (sys : Sys)
  : bool * Sys :=
  let write (sys0 : Sys) : bool * Sys :=
    (true, registerLock lockFile
             (writeFileSync lockFile (lockContent pid now2) now2 sys0)) in
  match files sys !! lockFile with
  | Some f =>
      let lockAge := (now1 - mtimeMs f)%Z in
      if (lockAge <? maxAge)%Z then (false, sys)
      else write (unlinkSync lockFile sys)
  | None => write sys
  end.

(** [releaseLock(lockFile)] *)
Definition releaseLock (lockFile : string) (sys : Sys) : Sys :=
  match files sys !! lockFile with
  | Some _ => unregisterLock lockFile (unlinkSync lockFile sys)
  | None => unregisterLock lockFile sys
  end.

(* ===================================================================== *)
(** ** actions.ts: commands, traces and the environment of a workflow *)
(* ===================================================================== *)

(** The shell commands the workflows issue, by their arguments. *)
Inductive Cmd : Type :=
| GitConfigUserName (userName : string)
| GitConfigUserEmail (email : string)
| GitRemoteGetUrl
| GitRemoteSetUrl (url : string)
| GhPrView (pr : string)
| GhApiPullComments (pr : string)
| GitFetchOrigin
| GitCheckout (branch : string)
| GitCheckoutNew (branch : string)
| GitPull
| GitPullOrigin (branch : string)
| GitBranchListRemote (pattern : string)
| GitAddAll
| GitStatusPorcelain
| GitCommit (message : string)
| GitPushOrigin (branch : string)
| GhPrComment (pr : string) (body : string)
| GitSymbolicRefOriginHead
| GitShowRef (ref : string).

Inductive Effect : Type :=
| Exec (c : Cmd)
| Log (level : string) (message : string)
| FsWrite (file : string) (data : string)
| FsUnlink (file : string)
| RunClaude (prompt : string) (cwd : string) (timeout : Z).

Definition Trace : Type := list Effect.

Record ClaudeResult : Type := { success : bool; output : string }.

Record BotCredentials : Type := { username : string; token : string }.

Record Timeouts : Type := { enrichment : Z; execution : Z; revision : Z }.

(** One review and one discussion comment of [gh pr view --json reviews,comments]. *)
Record Review : Type := { review_state : string; review_body : option string }.
Record Comment : Type := { comment_body : string }.
Record PrData : Type := {
  reviews : option (list Review);
  comments : option (list Comment);
}.

(** What the surroundings of a workflow do.  Outcomes may depend on what has
    been done before, so they are given the trace so far. *)
Record Env : Type := {
  (** [getBotCredentials()] *)
  botCredentials : option BotCredentials;
  (** [getTimeouts()] *)
  timeouts : Timeouts;
  (** [execSync] of a command that prints text *)
  run : Trace -> Cmd -> Outcome string;
  (** [execSync] of [gh pr view <pr> --json reviews,comments] *)
  prView : Trace -> string -> Outcome (Stdout PrData);
  (** the exit of the coding agent *)
  claude : Trace -> string -> ClaudeResult;
}.

(** How a template literal prints an optional value. *)
Definition showStr (o : option string) : string := default "undefined" o.
Definition showNum (o : option Z) : string :=
  match o with Some n => pretty n | None => "undefined" end.

Definition emit (e : Effect) : Eff Trace unit := modify (fun t => t ++ [e]).

(** [log(message, level)] *)
Definition log (level message : string) : Eff Trace unit := emit (Log level message).

(** [exec(command, { cwd, silent })] inside a workflow: the command is
    recorded whether or not it succeeds. *)
Definition execCmd (env : Env) (c : Cmd) (silent : bool) : Eff Trace string :=
  fun t => (exec (run env t c) silent, t ++ [Exec c]).

Definition execPrView (env : Env) (pr : string) (silent : bool)
  : Eff Trace (Stdout PrData) :=
  fun t => (exec (prView env t pr) silent, t ++ [Exec (GhPrView pr)]).

(** [runClaude(prompt, cwd, timeout)]: the promise always resolves. *)
Definition runClaude (env : Env) (prompt cwd : string) (timeout : Z)
  : Eff Trace ClaudeResult :=
  fun t => (Ok (claude env t prompt), t ++ [RunClaude prompt cwd timeout]).

(** [getDefaultBranch(cwd)] of utils.ts *)
Definition getDefaultBranch (env : Env) : Eff Trace string :=
  r1 <- tryCatch
          (result <- execCmd env GitSymbolicRefOriginHead true ;;
           ret (if JS.includes "main" result then Some "main"
                else if JS.includes "master" result then Some "master"
                else None))
          (fun _ => ret None) ;;
  match r1 with
  | Some b => ret b
  | None =>
      r2 <- tryCatch
              (execCmd env (GitShowRef "refs/heads/main") true ;;; ret (Some "main"))
              (fun _ => ret None) ;;
      match r2 with
      | Some b => ret b
      | None =>
          r3 <- tryCatch
                  (execCmd env (GitShowRef "refs/heads/master") true ;;;
                   ret (Some "master"))
                  (fun _ => ret None) ;;
          match r3 with
          | Some b => ret b
          | None => ret "main"
          end
      end
  end.

(** [configureGitBot(cwd)] *)
Definition configureGitBot (env : Env) : Eff Trace unit :=
  match botCredentials env with
  | None => ret tt
  | Some bot =>
      execCmd env (GitConfigUserName (username bot)) true ;;;
      execCmd env (GitConfigUserEmail (username bot +:+ "@users.noreply.github.com"))
              true ;;;
      tryCatch
        (remoteUrl <- execCmd env GitRemoteGetUrl true ;;
         when (JS.includes "github.com" remoteUrl && negb (JS.includes "@" remoteUrl))
           (let newUrl :=
              JS.replaceFirst "https://github.com/"
                ("https://" +:+ username bot +:+ ":" +:+ token bot +:+ "@github.com/")
                remoteUrl in
            execCmd env (GitRemoteSetUrl newUrl) true ;;; ret tt))
        (fun _ => ret tt)
  end.

(* ===================================================================== *)
(** ** actions.ts: the Revise workflow *)
(* ===================================================================== *)

Definition dq : string := String "034"%char "".

(** Lines 95-101: the bodies of the reviews that request changes. *)
Definition reviewFeedback (prData : PrData) : string :=
  match reviews prData with
  | Some rs =>
      JS.join (JS.nl +:+ JS.nl)
        (List.filter JS.truthy
           (List.map (fun r => default "" (review_body r))
              (List.filter
                 (fun r => bool_decide (review_state r = "CHANGES_REQUESTED")) rs)))
  | None => ""
  end.

(** Lines 114-116: the discussion comments, one bullet each. *)
Definition prComments (prData : PrData) : string :=
  match comments prData with
  | Some cs => JS.join JS.nl (List.map (fun c => "- " +:+ comment_body c) cs)
  | None => ""
  end.

(** Lines 118-124 *)
Definition allFeedback (reviewFeedback inlineComments prComments : string) : string :=
  JS.join (JS.nl +:+ JS.nl)
    (List.filter JS.truthy
       [ if JS.truthy reviewFeedback
         then "## Review Feedback" +:+ JS.nl +:+ reviewFeedback else "";
         if JS.truthy inlineComments
         then "## Inline Comments" +:+ JS.nl +:+ inlineComments else "";
         if JS.truthy prComments
         then "## Discussion" +:+ JS.nl +:+ prComments else "" ]).

(** The text written to [.prp-revision-feedback.md]. *)
Definition feedbackDocument (prp : PRPState.t) (feedback : string) : string :=
  JS.join JS.nl
    [ "# Revision Required for " +:+ PRPState.id prp; "";
      feedback; "";
      "## Instructions"; "";
      "1. Read ALL feedback carefully";
      "2. Address EVERY point mentioned";
      "3. Focus ONLY on the requested changes";
      "4. Do not refactor or change unrelated code";
      "5. Ensure tests still pass"; "";
      "## Original PRP"; "";
      "The original requirements are in: " +:+ showStr (PRPState.enrichedFile prp);
      "" ].

Definition revisionPrompt (prp : PRPState.t) (feedbackFile : string) : string :=
  "Read the revision feedback at " +:+ dq +:+ feedbackFile +:+ dq +:+
  " and address all the requested changes. The original PRP is at " +:+
  dq +:+ showStr (PRPState.enrichedFile prp) +:+ dq +:+
  ". Focus ONLY on addressing the feedback - do not make unrelated changes.".

(** Lines 131-206: what runRevision does once there is feedback. *)
Definition applyRevision (env : Env) (prp : PRPState.t) (ctx : ProjectContext)
    (feedback : string) : Eff Trace unit :=
  let branch := showStr (PRPState.branch prp) in
  let pr := showNum (PRPState.prNumber prp) in
  execCmd env GitFetchOrigin false ;;;
  execCmd env (GitCheckout branch) false ;;;
  tryCatch (execCmd env (GitPullOrigin branch) true ;;; ret tt) (fun _ => ret tt) ;;;
  let feedbackFile := JS.pathJoin (path ctx) ".prp-revision-feedback.md" in
  emit (FsWrite feedbackFile (feedbackDocument prp feedback)) ;;;
  log "info" "Running Claude Code for revision..." ;;;
  result <- runClaude env (revisionPrompt prp feedbackFile) (path ctx)
                      (revision (timeouts env)) ;;
  emit (FsUnlink feedbackFile) ;;;
  if negb (success result) then
    log "error" "Revision execution failed" ;;;
    main <- getDefaultBranch env ;;
    execCmd env (GitCheckout main) false ;;;
    throw "Revision failed"
  else
    execCmd env GitAddAll false ;;;
    hasChanges <- execCmd env GitStatusPorcelain true ;;
    (if JS.truthy hasChanges then
       execCmd env (GitCommit "fix: Address review feedback") false ;;;
       execCmd env (GitPushOrigin branch) false ;;;
       execCmd env (GhPrComment pr
                      "🤖 Revision pushed addressing the feedback. Please review again.")
               false ;;;
       log "success" "Revision pushed - PR updated"
     else
       log "warn" "No changes made during revision") ;;;
    main <- getDefaultBranch env ;;
    execCmd env (GitCheckout main) false ;;;
    ret tt.

(** Lines 83-124: the feedback runRevision collects. *)
Definition collectFeedback (env : Env) (prp : PRPState.t) : Eff Trace string :=
  let pr := showNum (PRPState.prNumber prp) in
  feedbackJson <- execPrView env pr false ;;
  prData <- lift (JSONparse feedbackJson) ;;
  inlineComments <- tryCatch (execCmd env (GhApiPullComments pr) true)
                             (fun _ => ret "") ;;
  ret (allFeedback (reviewFeedback prData) inlineComments (prComments prData)).

(** [runRevision(prp, ctx)] *)
Definition runRevision (env : Env) (prp : PRPState.t) (ctx : ProjectContext)
  : Eff Trace unit :=
  log "info" ("Running revision for PR #" +:+ showNum (PRPState.prNumber prp) +:+ "...") ;;;
  configureGitBot env ;;;
  feedback <- collectFeedback env prp ;;
  if negb (JS.truthy (JS.trim feedback)) then
    log "warn" "No feedback found - cannot run revision" ;;;
    ret tt
  else
    applyRevision env prp ctx feedback.

(* ===================================================================== *)
(** ** actions.ts: the branch of the Execute workflow *)
(* ===================================================================== *)

(** Lines 433-437 *)
Definition branchSlug (title : string) : string :=
  JS.slice0 30
    (JS.stripEdgeHyphens (JS.hyphenateRuns false (JS.toLowerCase title))).

(** Line 438: [`auto/${prp.id.toLowerCase()}-${branchSlug}`] *)
Definition executeBranch (prpId title : string) : string :=
  "auto/" +:+ JS.toLowerCase prpId +:+ "-" +:+ branchSlug title.

(** Lines 425-454: executePRP up to the point where its branch is checked
    out; the value is the branch the rest of the workflow works on. *)
Definition prepareBranch (env : Env) (prp : PRPState.t) : Eff Trace string :=
  log "info" ("Executing " +:+ PRPState.id prp +:+ ": " +:+ PRPState.title prp +:+ "...") ;;;
  configureGitBot env ;;;
  main <- getDefaultBranch env ;;
  execCmd env (GitCheckout main) false ;;;
  execCmd env GitPull false ;;;
  let branch := executeBranch (PRPState.id prp) (PRPState.title prp) in
  branchExists <- execCmd env (GitBranchListRemote ("origin/" +:+ branch)) true ;;
  (if JS.truthy branchExists then
     log "warn" ("Branch " +:+ branch +:+ " already exists - checking out") ;;;
     execCmd env (GitCheckout branch) false ;;;
     tryCatch (execCmd env (GitPullOrigin branch) true ;;; ret tt) (fun _ => ret tt)
   else
     execCmd env (GitCheckoutNew branch) false ;;; ret tt) ;;;
  ret branch.

(* ===================================================================== *)
(** ** Vocabulary of the statements *)
(* ===================================================================== *)

(** The item has an open review request whose decision is [d]. *)
Definition openWith (d : ReviewState) (s : PRPState.t) : Prop :=
  PRPState.prState s = Some "open" ∧ PRPState.reviewState s = Some d.

(** The item has an open review request awaiting a human: decision pending
    or none. *)
Definition openAwaiting (s : PRPState.t) : Prop :=
  openWith pending s ∨ openWith none s.

(** [s] is the first element of [l], in order, that satisfies [P]. *)
Definition FirstSuch {A : Type} (P : A -> Prop) (l : list A) (s : A) : Prop :=
  ∃ pre post, l = pre ++ s :: post ∧ P s ∧ Forall (fun y => ¬ P y) pre.

(** The last tier of the selection: work on the next ready item. *)
Definition enrichOrExecute (states : list PRPState.t) (completed : option (list string))
  : Action :=
  match findNextPRP states completed with
  | None => NoWork
  | Some nextPRP =>
      if PRPState.isEnriched nextPRP then Execute nextPRP else Enrich nextPRP
  end.

(** The dependency [dep] is satisfied: some item with that id is derived as
    merged, or the id is in the plan's pre-declared completed list. *)
Definition depSatisfied (states : list PRPState.t) (completed : option (list string))
    (dep : string) : Prop :=
  (∃ s, s ∈ states ∧ PRPState.id s = dep ∧ PRPState.prState s = Some "merged")
  ∨ dep ∈ default [] completed.

(** The reading of "merged" in the completeness sentence of the
    specification: the derived lifecycle is merged, or the id is
    pre-declared complete and no review request exists for it. *)
Definition countsAsMerged (completed : option (list string)) (s : PRPState.t) : Prop :=
  PRPState.prState s = Some "merged"
  ∨ (PRPState.id s ∈ default [] completed
     ∧ PRPState.prNumber s = None ∧ PRPState.prState s = None).

(** The data-model invariant of the specification: a review request is
    present only if a branch is. *)
Definition requestNeedsBranch (s : PRPState.t) : Prop :=
  (is_Some (PRPState.prNumber s) ∨ is_Some (PRPState.prState s))
  → is_Some (PRPState.branch s).

(** [st] is what derivePRPState returns for some item in some world. *)
Definition Derived (st : PRPState.t) : Prop :=
  ∃ w prp ctx, derivePRPState w prp ctx = Ok st.

(** The branch derivePRPState reads off the output of the branch listing. *)
Definition listedBranch (w : World) (prp : MasterPRP.t) : option string :=
  match gitBranchRemoteList w ("origin/" +:+ branchPrefix (MasterPRP.id prp) +:+ "*") with
  | Exit0 out =>
      if JS.truthy (JS.trim out)
      then Some (JS.replaceFirst "origin/" "" (JS.trim (JS.firstLine (JS.trim out))))
      else None
  | ExecError _ => None
  end.

(** Effects that change the checked-out branch, the working tree, the
    history, the remote or the configuration of the repository, or that
    start the coding agent. *)
Definition touchesRepository (e : Effect) : bool :=
  match e with
  | Exec (GitFetchOrigin | GitCheckout _ | GitCheckoutNew _ | GitPull
         | GitPullOrigin _ | GitAddAll | GitCommit _ | GitPushOrigin _
         | GhPrComment _ _
         | GitConfigUserName _ | GitConfigUserEmail _ | GitRemoteSetUrl _) => true
  | Exec _ => false
  | FsWrite _ _ | FsUnlink _ | RunClaude _ _ _ => true
  | Log _ _ => false
  end.

(* ===================================================================== *)
(** ** Observations in closed form and the inputs of the examples *)
(* ===================================================================== *)

Definition exampleSpec (i : string) (deps : list string) : MasterPRP.t :=
  MasterPRP.mk i ("Item " +:+ i) "scope" (Some deps) None None None None None.

Definition exampleState (i : string) (deps : list string)
    (pr : option string) (rv : option ReviewState) : PRPState.t :=
  PRPState.mk i ("Item " +:+ i) "scope" deps (exampleSpec i deps)
              true None (Some ("auto/" +:+ i +:+ "-item")) (Some 1%Z) pr rv.

(** A world in which nothing exists: no enriched file, no remote branch, no
    review request. *)
Definition emptyWorld : World :=
  {| existsSync := fun _ => false;
     gitBranchRemoteList := fun _ => Exit0 "";
     ghPrListHead := fun _ => Exit0 (JsonOf []);
     ghPrListMerged := fun _ => Exit0 (JsonOf []) |}.

Definition exampleCtx : ProjectContext :=
  {| ctx_name := "demo"; path := "/work/demo";
     masterFile := "/work/demo/PRPs/master-plan.yaml";
     enrichedDir := "/work/demo/PRPs/enriched";
     lockFile := "/work/demo/.prp-lock" |}.

Definition precompletedPlan : MasterPlan :=
  {| plan_name := "demo"; context := None; constraints := None;
     completed := Some ["A"];
     prps := [exampleSpec "A" []] |}.

(** The first element of a JSON list reply; nothing when the command failed,
    printed something else than JSON, or printed an empty list. *)
Definition firstOfReply {A : Type} (o : Outcome (Stdout (list A))) : option A :=
  match o with
  | Exit0 (JsonOf (x :: _)) => Some x
  | _ => None
  end.

(** The review request found through the listed branch. *)
Definition requestByBranch (w : World) (prp : MasterPRP.t) : option PrJson :=
  match listedBranch w prp with
  | Some b => if JS.truthy b then firstOfReply (ghPrListHead w b) else None
  | None => None
  end.

(** The merged request found through the branch prefix. *)
Definition mergedByPrefix (w : World) (prp : MasterPRP.t) : option MergedJson :=
  firstOfReply (ghPrListMerged w (branchPrefix (MasterPRP.id prp))).

Definition withEnrichment (w : World) (prp : MasterPRP.t) (ctx : ProjectContext)
    (s : PRPState.t) : PRPState.t :=
  let f := JS.pathJoin (enrichedDir ctx) (MasterPRP.id prp +:+ ".md") in
  if existsSync w f then PRPState.set_enriched f s else s.

Definition withBranch (w : World) (prp : MasterPRP.t) (s : PRPState.t) : PRPState.t :=
  match listedBranch w prp with
  | Some b => PRPState.set_branch b s
  | None => s
  end.

Definition withRequest (w : World) (prp : MasterPRP.t) (s : PRPState.t) : PRPState.t :=
  match requestByBranch w prp with
  | Some pr =>
      PRPState.set_reviewState (deriveReviewState pr)
        (PRPState.set_prState (JS.toLowerCase (state pr))
           (PRPState.set_prNumber (number pr) s))
  | None => s
  end.

Definition withMerged (w : World) (prp : MasterPRP.t) (s : PRPState.t) : PRPState.t :=
  if JS.falsyNum (PRPState.prNumber s) then
    match mergedByPrefix w prp with
    | Some m => PRPState.set_prState "merged" (PRPState.set_prNumber (merged_number m) s)
    | None => s
    end
  else s.

(** The request carries a label whose lower-cased name is [x]. *)
Definition carriesLabel (x : string) (pr : PrJson) : Prop :=
  ∃ l, l ∈ default [] (labels pr) ∧ JS.toLowerCase (name l) = x.

(** The platform's own review decision, upper-cased. *)
Definition platformDecision (pr : PrJson) : option string :=
  JS.toUpperCase <$> reviewDecision pr.

(** A world in which every query fails. *)
Definition failingWorld : World :=
  {| existsSync := fun _ => false;
     gitBranchRemoteList := fun _ => ExecError "fatal: not a git repository";
     ghPrListHead := fun _ => ExecError "gh: could not connect";
     ghPrListMerged := fun _ => ExecError "gh: could not connect" |}.

(** A world after a merge that deleted the branch: no remote branch is
    listed, and the search for merged requests finds request number 7. *)
Definition mergedWorld : World :=
  {| existsSync := fun _ => true;
     gitBranchRemoteList := fun _ => Exit0 "";
     ghPrListHead := fun _ => Exit0 (JsonOf []);
     ghPrListMerged := fun _ => Exit0 (JsonOf [ {| merged_number := 7 |} ]) |}.

(** A world in which item A has a remote branch carrying an open request,
    number 12, labelled [Approved] while the platform's own decision is
    CHANGES_REQUESTED. *)
Definition labelledRequest : PrJson :=
  {| number := 12; state := "OPEN";
     reviewDecision := Some "CHANGES_REQUESTED";
     labels := Some [ {| name := "enhancement" |}; {| name := "Approved" |} ] |}.

Definition labelledWorld : World :=
  {| existsSync := fun _ => true;
     gitBranchRemoteList := fun _ => Exit0 "  origin/auto/a-item";
     ghPrListHead := fun b =>
       if bool_decide (b = "auto/a-item") then Exit0 (JsonOf [labelledRequest])
       else Exit0 (JsonOf []);
     ghPrListMerged := fun _ => Exit0 (JsonOf []) |}.

(** The world of [labelledWorld] while the branch listing fails: the
    queries for the request would answer as before. *)
Definition listingDownWorld : World :=
  {| existsSync := existsSync labelledWorld;
     gitBranchRemoteList := fun _ => ExecError "fatal: unable to access remote";
     ghPrListHead := ghPrListHead labelledWorld;
     ghPrListMerged := ghPrListMerged labelledWorld |}.

(** The world of [labelledWorld] while the search for merged requests
    fails. *)
Definition mergedDownWorld : World :=
  {| existsSync := existsSync labelledWorld;
     gitBranchRemoteList := gitBranchRemoteList labelledWorld;
     ghPrListHead := ghPrListHead labelledWorld;
     ghPrListMerged := fun _ => ExecError "gh: could not connect" |}.

(** The marker a successful acquireLock leaves behind. *)
Definition freshMarker (pid now : Z) : File :=
  {| content := lockContent pid now; mtimeMs := now |}.

(** A project whose marker was written at time 1000 by process 4711. *)
Definition lockedSys : Sys :=
  {| files := {[ "/work/demo/.prp-lock" := {| content := "4711:1000"; mtimeMs := 1000 |} ]};
     activeLocks := ∅;
     fsOps := [] |}.

(** The commands of configureGitBot: committer identity and remote URL. *)
Definition isIdentityConfig (e : Effect) : bool :=
  match e with
  | Exec (GitConfigUserName _ | GitConfigUserEmail _
         | GitRemoteGetUrl | GitRemoteSetUrl _) => true
  | _ => false
  end.

(** What a silent [exec] returns. *)
Definition silentOutput (env : Env) (t : Trace) (c : Cmd) : string :=
  match run env t c with
  | Exit0 out => JS.trim out
  | ExecError _ => ""
  end.

(** Surroundings without bot credentials in which every command succeeds
    silently, the request has one approving review and no comments, and the
    agent succeeds. *)
Definition quietEnv : Env :=
  {| botCredentials := None;
     timeouts := {| enrichment := 1500000; execution := 1200000; revision := 900000 |};
     run := fun _ _ => Exit0 "";
     prView := fun _ _ =>
       Exit0 (JsonOf {| reviews := Some [ {| review_state := "APPROVED";
                                            review_body := Some "looks good" |} ];
                        comments := Some [] |});
     claude := fun _ _ => {| success := true; output := "" |} |}.

Definition openState : PRPState.t :=
  exampleState "a" [] (Some "open") (Some changes_requested).

(** Surroundings as [quietEnv], but with a review that requests changes. *)
Definition feedbackEnv : Env :=
  {| botCredentials := None;
     timeouts := timeouts quietEnv;
     run := fun _ _ => Exit0 "";
     prView := fun _ _ =>
       Exit0 (JsonOf {| reviews := Some [ {| review_state := "CHANGES_REQUESTED";
                                            review_body := Some "rename foo" |} ];
                        comments := None |});
     claude := claude quietEnv |}.

(* ===================================================================== *)
(** ** utils.ts: the rest of the lock registry, durations *)
(* ===================================================================== *)

(** [getActiveLocks()] *)
Definition getActiveLocks (sys : Sys) : list string := elements (activeLocks sys).

(** [cleanupAllLocks()]: every registered lock file that still exists is
    removed, then the registry is cleared.  The registry is a set; the
    order in which it is swept is that of [elements]. *)
Definition cleanupAllLocks (sys : Sys) : Sys :=
  let swept :=
    foldr (fun lockFile acc =>
             match files acc !! lockFile with
             | Some _ => unlinkSync lockFile acc
             | None => acc
             end)
          sys (elements (activeLocks sys)) in
  {| files := files swept; activeLocks := ∅; fsOps := fsOps swept |}.

(** A store without locks that holds one other file. *)
Definition otherFileSys : Sys :=
  {| files := {[ "/work/other/notes.txt" := {| content := "notes"; mtimeMs := 5 |} ]};
     activeLocks := ∅;
     fsOps := [] |}.

(** [formatDuration(ms)] for a whole number of milliseconds. *)
Definition formatDuration (ms : Z) : string :=
  let seconds := (ms / 1000)%Z in
  let minutes := (seconds / 60)%Z in
  let hours := (minutes / 60)%Z in
  if (0 <? hours)%Z then pretty hours +:+ "h " +:+ pretty (Z.rem minutes 60) +:+ "m"
  else if (0 <? minutes)%Z
  then pretty minutes +:+ "m " +:+ pretty (Z.rem seconds 60) +:+ "s"
  else pretty seconds +:+ "s".

(* ===================================================================== *)
(** ** Vocabulary of the further statements *)
(* ===================================================================== *)

(** Every lock registered by this process has its marker on disk. *)
Definition registeredLocksExist (sys : Sys) : Prop :=
  ∀ l, l ∈ activeLocks sys → is_Some (files sys !! l).

(** Every character of [s] passes the test [p]. *)
Fixpoint allChars (p : ascii -> bool) (s : string) : bool :=
  match s with
  | EmptyString => true
  | String c s' => p c && allChars p s'
  end.

(** The characters of a branch slug: [a-z], [0-9] and the hyphen. *)
Definition isSlugChar (c : ascii) : bool :=
  JS.isLowerAlnum c || Ascii.eqb c "-"%char.

(** No two hyphens in a row. *)
Fixpoint noDoubleHyphen (s : string) : bool :=
  match s with
  | String a ((String b _) as s') =>
      negb (Ascii.eqb a "-"%char && Ascii.eqb b "-"%char) && noDoubleHyphen s'
  | _ => true
  end.


(** The branch getDefaultBranch answers with, given what
    [git symbolic-ref refs/remotes/origin/HEAD] prints. *)
Definition defaultBranchOf (env : Env) (t : Trace) : string :=
  let result := silentOutput env t GitSymbolicRefOriginHead in
  if JS.includes "main" result then "main"
  else if JS.includes "master" result then "master"
  else "main".

(** The commands getDefaultBranch issues. *)
Definition defaultBranchProbe (env : Env) (t : Trace) : list Effect :=
  let result := silentOutput env t GitSymbolicRefOriginHead in
  if JS.includes "main" result || JS.includes "master" result
  then [Exec GitSymbolicRefOriginHead]
  else [Exec GitSymbolicRefOriginHead; Exec (GitShowRef "refs/heads/main")].


(** A state in which every item is merged. *)
Definition mergedStates : list PRPState.t :=
  [ exampleState "a" [] (Some "merged") None;
    exampleState "b" ["a"] (Some "merged") None ].

(** The temporary file of the Revise workflow. *)
Definition revisionFeedbackFile (ctx : ProjectContext) : string :=
  JS.pathJoin (path ctx) ".prp-revision-feedback.md".

(** What the Revise workflow does from the fetch up to the removal of its
    temporary file. *)
Definition revisionWork (env : Env) (prp : PRPState.t) (ctx : ProjectContext)
    (feedback : string) : list Effect :=
  [ Exec GitFetchOrigin;
    Exec (GitCheckout (showStr (PRPState.branch prp)));
    Exec (GitPullOrigin (showStr (PRPState.branch prp)));
    FsWrite (revisionFeedbackFile ctx) (feedbackDocument prp feedback);
    Log "info" "Running Claude Code for revision...";
    RunClaude (revisionPrompt prp (revisionFeedbackFile ctx)) (path ctx)
              (revision (timeouts env));
    FsUnlink (revisionFeedbackFile ctx) ].

(** The probes of getDefaultBranch. *)
Definition isBranchProbe (e : Effect) : bool :=
  match e with
  | Exec (GitSymbolicRefOriginHead | GitShowRef _) => true
  | _ => false
  end.

(** The end of a workflow that goes back to the default branch: the probes
    of getDefaultBranch, then the checkout of main or master. *)
Inductive ReturnsToDefault : list Effect -> Prop :=
| returns_to_default (probes : list Effect) (b : string) :
    Forall (fun e => isBranchProbe e = true) probes →
    b = "main" ∨ b = "master" →
    ReturnsToDefault (probes ++ [Exec (GitCheckout b)]).

(** The agent, started at some point with some prompt, ended with [ok]. *)
Definition agentEnded (env : Env) (ok : bool) : Prop :=
  ∃ t prompt, success (claude env t prompt) = ok.

(** A step of the way back to the default branch. *)
Definition isReturnStep (e : Effect) : bool :=
  match e with
  | Exec (GitSymbolicRefOriginHead | GitShowRef _ | GitCheckout _) => true
  | _ => false
  end.

(** The ways the Revise workflow can go once there is feedback, by what the
    agent did ([None]: it was not reached), the result and the effects. *)
Inductive RevisionRun (env : Env) (prp : PRPState.t) (ctx : ProjectContext)
    (feedback : string) : option bool -> Result unit -> list Effect -> Prop :=
| rev_fetch_failed e :
    RevisionRun env prp ctx feedback None (Throw e) [Exec GitFetchOrigin]
| rev_checkout_failed e :
    RevisionRun env prp ctx feedback None (Throw e)
      [Exec GitFetchOrigin; Exec (GitCheckout (showStr (PRPState.branch prp)))]
| rev_agent_failed e back :
    agentEnded env false →
    ReturnsToDefault back →
    RevisionRun env prp ctx feedback (Some false) (Throw e)
      (revisionWork env prp ctx feedback
       ++ [Log "error" "Revision execution failed"] ++ back)
| rev_add_failed e :
    agentEnded env true →
    RevisionRun env prp ctx feedback (Some true) (Throw e)
      (revisionWork env prp ctx feedback ++ [Exec GitAddAll])
| rev_no_changes r back :
    agentEnded env true →
    ReturnsToDefault back →
    RevisionRun env prp ctx feedback (Some true) r
      (revisionWork env prp ctx feedback
       ++ [Exec GitAddAll; Exec GitStatusPorcelain;
           Log "warn" "No changes made during revision"] ++ back)
| rev_commit_failed e :
    agentEnded env true →
    RevisionRun env prp ctx feedback (Some true) (Throw e)
      (revisionWork env prp ctx feedback
       ++ [Exec GitAddAll; Exec GitStatusPorcelain;
           Exec (GitCommit "fix: Address review feedback")])
| rev_push_failed e :
    agentEnded env true →
    RevisionRun env prp ctx feedback (Some true) (Throw e)
      (revisionWork env prp ctx feedback
       ++ [Exec GitAddAll; Exec GitStatusPorcelain;
           Exec (GitCommit "fix: Address review feedback");
           Exec (GitPushOrigin (showStr (PRPState.branch prp)))])
| rev_comment_failed e :
    agentEnded env true →
    RevisionRun env prp ctx feedback (Some true) (Throw e)
      (revisionWork env prp ctx feedback
       ++ [Exec GitAddAll; Exec GitStatusPorcelain;
           Exec (GitCommit "fix: Address review feedback");
           Exec (GitPushOrigin (showStr (PRPState.branch prp)));
           Exec (GhPrComment (showNum (PRPState.prNumber prp))
                   "🤖 Revision pushed addressing the feedback. Please review again.")])
| rev_pushed r back :
    agentEnded env true →
    ReturnsToDefault back →
    RevisionRun env prp ctx feedback (Some true) r
      (revisionWork env prp ctx feedback
       ++ [Exec GitAddAll; Exec GitStatusPorcelain;
           Exec (GitCommit "fix: Address review feedback");
           Exec (GitPushOrigin (showStr (PRPState.branch prp)));
           Exec (GhPrComment (showNum (PRPState.prNumber prp))
                   "🤖 Revision pushed addressing the feedback. Please review again.");
           Log "success" "Revision pushed - PR updated"] ++ back).

(** What runRevision does before it looks at the feedback: logging, the
    identity configuration and the two feedback queries. *)
Definition isRevisionPreamble (e : Effect) : bool :=
  match e with
  | Log _ _ => true
  | Exec (GitConfigUserName _ | GitConfigUserEmail _ | GitRemoteGetUrl
         | GitRemoteSetUrl _ | GhPrView _ | GhApiPullComments _) => true
  | _ => false
  end.

(** Surroundings as [feedbackEnv] in which the agent fails. *)
Definition failingAgentEnv : Env :=
  {| botCredentials := None;
     timeouts := timeouts quietEnv;
     run := run feedbackEnv;
     prView := prView feedbackEnv;
     claude := fun _ _ => {| success := false; output := "timeout" |} |}.

(** Surroundings as [feedbackEnv] in which the agent leaves changes. *)
Definition changingEnv : Env :=
  {| botCredentials := None;
     timeouts := timeouts quietEnv;
     run := fun _ c =>
       match c with
       | GitStatusPorcelain => Exit0 " M src/foo.ts"
       | _ => Exit0 ""
       end;
     prView := prView feedbackEnv;
     claude := claude quietEnv |}.

(* ===================================================================== *)
(** ** The remaining workflows: commands, events and surroundings *)
(* ===================================================================== *)

(** The commands of the workflows that the Revise workflow does not use. *)
Inductive ExtraCmd : Type :=
| GhAuthStatus
| GitStatus
| GhPrMerge (pr : string)
| GitBranchDelete (branch : string)
| GitPushUpstream (branch : string)
| GhPrCreate (title : string) (bodyFile : string)
| GitAddPath (dir : string)
| GitPush
| NpmRunBuild
| NpmTest
| NpmRun (script : string)
| GhPrListHead (branch : string)
| GhPrListMerged (headPrefix : string).

(** What a workflow does: an effect of the kinds above, one of the further
    commands, a rename or the creation of a directory. *)
Inductive Event : Type :=
| Did (e : Effect)
| Ran (c : ExtraCmd)
| Renamed (source : string) (target : string)
| MadeDir (dir : string).

Definition History : Type := list Event.

(** The [scripts] of a package.json, as far as runValidation reads them. *)
Record Scripts : Type := {
  script_build : option string;
  script_test : option string;
  script_format_check : option string;
  script_lint : option string;
}.

Record PackageJson : Type := { scripts : option Scripts }.

Record ValidationResult : Type := { build : bool; test : bool; format : bool }.

(** The surroundings of a whole run.  As in [Env], every answer may depend
    on what has been done so far. *)
Record WorkEnv : Type := {
  wBot : option BotCredentials;
  wTimeouts : Timeouts;
  wRun : History -> Cmd -> Outcome string;
  wRunMore : History -> ExtraCmd -> Outcome string;
  wPrView : History -> string -> Outcome (Stdout PrData);
  wClaude : History -> string -> ClaudeResult;
  (** [fs.existsSync(path)] *)
  wExists : History -> string -> bool;
  (** [fs.readFileSync(file, 'utf-8')] of a package.json *)
  wReadPackage : History -> string -> Result (Stdout PackageJson);
  (** [fs.readdirSync(dir)] *)
  wReaddir : History -> string -> Result (list string);
  (** [fs.statSync(file).mtimeMs] *)
  wMtime : History -> string -> Result Z;
  (** [Date.now()] *)
  wNow : History -> Z;
  (** [yaml.parse(fs.readFileSync(file, 'utf-8'))] of a master plan; [None]
      when the document parses to a falsy value *)
  wReadPlan : History -> string -> Result (option MasterPlan);
  (** the answers to the queries of one derivation pass *)
  wWorld : History -> World;
}.

(** The surroundings a computation over [Trace] sees when it is started
    after the history [h]. *)
Definition envAt (we : WorkEnv) (h : History) : Env :=
  {| botCredentials := wBot we;
     timeouts := wTimeouts we;
     run := fun t c => wRun we (h ++ List.map Did t) c;
     prView := fun t pr => wPrView we (h ++ List.map Did t) pr;
     claude := fun t prompt => wClaude we (h ++ List.map Did t) prompt |}.

(** Runs a computation over [Trace] as part of a history. *)
Definition embed {A : Type} (we : WorkEnv) (m : Env -> Eff Trace A) : Eff History A :=
  fun h => let (r, t) := m (envAt we h) [] in (r, h ++ List.map Did t).

(** [log(message, level)] *)
Definition note (level message : string) : Eff History unit :=
  modify (fun h => h ++ [Did (Log level message)]).

Definition record (e : Event) : Eff History unit := modify (fun h => h ++ [e]).

(** [exec] of one of the further commands. *)
Definition execMore (we : WorkEnv) (c : ExtraCmd) (silent : bool) : Eff History string :=
  fun h => (exec (wRunMore we h c) silent, h ++ [Ran c]).

(** [execWithBot]: [exec] after exporting the bot token. *)
Definition execWithBot (we : WorkEnv) (c : ExtraCmd) (silent : bool)
  : Eff History string :=
  execMore we c silent.

(** [exec(`git checkout ${getDefaultBranch(cwd)}`, { cwd })] *)
Definition checkoutDefault (we : WorkEnv) : Eff History unit :=
  embed we (fun env =>
    main <- getDefaultBranch env ;;
    execCmd env (GitCheckout main) false ;;; ret tt).

(* ===================================================================== *)
(** ** actions.ts: Merge *)
(* ===================================================================== *)

(** [mergeApprovedPR(prp, ctx)] *)
Definition mergeApprovedPR (we : WorkEnv) (prp : PRPState.t) : Eff History unit :=
  let pr := showNum (PRPState.prNumber prp) in
  note "success" ("Merging PR #" +:+ pr +:+ "...") ;;;
  tryCatch
    (execWithBot we (GhPrMerge pr) false ;;;
     note "success" ("PR #" +:+ pr +:+ " merged successfully"))
    (fun error =>
       note "error" ("Failed to merge PR: " +:+ error) ;;;
       throw error).

(* ===================================================================== *)
(** ** actions.ts: validation and the rest of Execute *)
(* ===================================================================== *)

(** Truthiness of an optional script entry. *)
Definition hasScript (o : option string) : bool :=
  match o with Some s => JS.truthy s | None => false end.

(** The store of runValidation: the history and the [result] object it
    fills in. *)
Definition onHistory {V A : Type} (m : Eff History A) : Eff (History * V) A :=
  fun s => let (r, h) := m s.1 in (r, (h, s.2)).

Definition setResult {V : Type} (f : V -> V) : Eff (History * V) unit :=
  modify (fun s => (s.1, f s.2)).

(** Lines 542-579: the body of the outer [try] of runValidation. *)
Definition runScripts (we : WorkEnv) (pkgPath : string)
  : Eff (History * ValidationResult) unit :=
  s <- get ;;
  text <- lift (wReadPackage we s.1 pkgPath) ;;
  pkg <- lift (JSONparse text) ;;
  let sc (f : Scripts -> option string) : bool :=
    match scripts pkg with Some x => hasScript (f x) | None => false end in
  when (sc script_build)
    (onHistory (note "info" "  Running build...") ;;;
     tryCatch (onHistory (execMore we NpmRunBuild true) ;;; ret tt)
              (fun _ => setResult (fun r => {| build := false; test := test r;
                                               format := format r |}))) ;;;
  when (sc script_test)
    (onHistory (note "info" "  Running tests...") ;;;
     tryCatch (onHistory (execMore we NpmTest true) ;;; ret tt)
              (fun _ => setResult (fun r => {| build := build r; test := false;
                                               format := format r |}))) ;;;
  when (sc script_format_check || sc script_lint)
    (onHistory (note "info" "  Running lint/format...") ;;;
     let cmd := if sc script_format_check then "format:check" else "lint" in
     tryCatch (onHistory (execMore we (NpmRun cmd) true) ;;; ret tt)
              (fun _ => setResult (fun r => {| build := build r; test := test r;
                                               format := false |}))).

(** [runValidation(projectPath)] *)
Definition runValidation (we : WorkEnv) (projectPath : string)
  : Eff History ValidationResult :=
  fun h =>
    let result := {| build := true; test := true; format := true |} in
    let pkgPath := JS.pathJoin projectPath "package.json" in
    if negb (wExists we h pkgPath) then (Ok result, h)
    else
      match tryCatch (runScripts we pkgPath) (fun _ => ret tt) (h, result) with
      | (Ok _, (h', result')) => (Ok result', h')
      | (Throw e, (h', _)) => (Throw e, h')
      end.

(** [buildPRBody(prp, validation)] *)
Definition buildPRBody (prp : PRPState.t) (validation : ValidationResult) : string :=
  JS.join JS.nl
    [ "## " +:+ PRPState.id prp +:+ ": " +:+ PRPState.title prp; "";
      "### Summary"; "";
      PRPState.scope prp; "";
      "### Validation Results"; "";
      "| Check | Status |";
      "|-------|--------|";
      "| Build | " +:+ (if build validation then "✅ Pass" else "❌ Fail") +:+ " |";
      "| Tests | " +:+ (if test validation then "✅ Pass" else "❌ Fail") +:+ " |";
      "| Format | " +:+ (if format validation then "✅ Pass" else "⚠️ Check") +:+ " |";
      "";
      "---"; "";
      "## How to Review"; "";
      "1. **Check the changes** - Review the code diff";
      "2. **Verify requirements** - Compare against acceptance criteria";
      "3. **Add a label to trigger automation:**"; "";
      "| Label | What Happens |";
      "|-------|--------------|";
      "| `approved` | PR is auto-merged, next PRP starts |";
      "| `changes-requested` | Claude reads your comments and pushes fixes |";
      "";
      "> **Note:** Add your feedback as comments, then add the appropriate label.";
      "";
      "---"; "";
      "*🤖 Automated by PRP Orchestrator*";
      "*📄 PRP File: `" +:+ showStr (PRPState.enrichedFile prp) +:+ "`*";
      "" ].

(** The message of the commit of executePRP. *)
Definition executeCommitMessage (prp : PRPState.t) : string :=
  JS.join JS.nl
    [ "feat(" +:+ PRPState.id prp +:+ "): " +:+ PRPState.title prp; "";
      "Automated implementation by PRP Orchestrator."; "";
      "Co-Authored-By: Claude <noreply@anthropic.com>" ].

Definition prBodyFile (ctx : ProjectContext) : string :=
  JS.pathJoin (path ctx) ".prp-pr-body.md".

(** [try { exec(`git branch -D ${branch}`, { silent: true }) } catch {}] *)
Definition tryDeleteBranch (we : WorkEnv) (branch : string) : Eff History unit :=
  tryCatch (execMore we (GitBranchDelete branch) true ;;; ret tt) (fun _ => ret tt).

(** Lines 456-525: executePRP once its branch is checked out. *)
Definition implementOnBranch (we : WorkEnv) (prp : PRPState.t) (ctx : ProjectContext)
    (branch : string) : Eff History unit :=
  note "info" "Running /execute-prp skill..." ;;;
  result <- embed we (fun env =>
              runClaude env ("/execute-prp " +:+ dq +:+ showStr (PRPState.enrichedFile prp)
                             +:+ dq)
                        (path ctx) (execution (timeouts env))) ;;
  if negb (success result) then
    note "error" "Execution failed" ;;;
    checkoutDefault we ;;;
    tryDeleteBranch we branch ;;;
    throw "Execution failed"
  else
    note "info" "Running validation..." ;;;
    validation <- runValidation we (path ctx) ;;
    embed we (fun env => execCmd env GitAddAll false) ;;;
    hasChanges <- embed we (fun env => execCmd env GitStatusPorcelain true) ;;
    if negb (JS.truthy hasChanges) then
      note "warn" "No changes produced - PRP may already be implemented" ;;;
      checkoutDefault we ;;;
      tryDeleteBranch we branch ;;;
      ret tt
    else
      embed we (fun env => execCmd env (GitCommit (executeCommitMessage prp)) false) ;;;
      execMore we (GitPushUpstream branch) false ;;;
      record (Did (FsWrite (prBodyFile ctx) (buildPRBody prp validation))) ;;;
      execWithBot we (GhPrCreate (PRPState.id prp +:+ ": " +:+ PRPState.title prp)
                                 (prBodyFile ctx)) false ;;;
      tryCatch (record (Did (FsUnlink (prBodyFile ctx)))) (fun _ => ret tt) ;;;
      note "success" "PR created successfully" ;;;
      checkoutDefault we.

(** [executePRP(prp, ctx)] *)
Definition executePRP (we : WorkEnv) (prp : PRPState.t) (ctx : ProjectContext)
  : Eff History unit :=
  branch <- embed we (fun env => prepareBranch env prp) ;;
  implementOnBranch we prp ctx branch.

(** The events of runValidation: its log lines and npm commands. *)
Definition isValidationStep (e : Event) : bool :=
  match e with
  | Did (Log _ _) => true
  | Ran (NpmRunBuild | NpmTest | NpmRun _) => true
  | _ => false
  end.


(** The steps of executePRP up to the checkout of its branch. *)
Definition isPrepareStep (e : Effect) : bool :=
  match e with
  | Log _ _ => true
  | Exec (GitConfigUserName _ | GitConfigUserEmail _ | GitRemoteGetUrl
         | GitRemoteSetUrl _ | GitSymbolicRefOriginHead | GitShowRef _
         | GitCheckout _ | GitCheckoutNew _ | GitPull | GitPullOrigin _
         | GitBranchListRemote _) => true
  | _ => false
  end.

(** The way back to the default branch, as events. *)
Definition BackToDefault (l : list Event) : Prop :=
  ∃ back, ReturnsToDefault back ∧ l = List.map Did back.

(** The agent, started at some point of a run with some prompt, ended with
    [ok]. *)
Definition workAgentEnded (we : WorkEnv) (ok : bool) : Prop :=
  ∃ h prompt, success (wClaude we h prompt) = ok.

(** What executePRP does on its branch up to the end of the agent. *)
Definition implementStart (we : WorkEnv) (prp : PRPState.t) (ctx : ProjectContext)
  : list Event :=
  [ Did (Log "info" "Running /execute-prp skill...");
    Did (RunClaude ("/execute-prp " +:+ dq +:+ showStr (PRPState.enrichedFile prp) +:+ dq)
                   (path ctx) (execution (wTimeouts we))) ].

(** The publication of the work of executePRP, in order: commit, push with
    upstream, the body file, the creation of the request. *)
Definition publication (prp : PRPState.t) (ctx : ProjectContext) (branch : string)
  : list Event :=
  [ Did (Exec (GitCommit (executeCommitMessage prp)));
    Ran (GitPushUpstream branch);
    Did (FsWrite (prBodyFile ctx)
           (buildPRBody prp {| build := true; test := true; format := true |}));
    Ran (GhPrCreate (PRPState.id prp +:+ ": " +:+ PRPState.title prp) (prBodyFile ctx)) ].

(** At some point of a run the creation of a review request succeeded. *)
Definition createSucceeded (we : WorkEnv) : Prop :=
  ∃ h title file out, wRunMore we h (GhPrCreate title file) = Exit0 out.

(** The ways executePRP can go once its branch is checked out. *)
Inductive ImplementRun (we : WorkEnv) (prp : PRPState.t) (ctx : ProjectContext)
    (branch : string) : Result unit -> list Event -> Prop :=
| impl_agent_failed_stuck e back :
    workAgentEnded we false → BackToDefault back →
    ImplementRun we prp ctx branch (Throw e)
      (implementStart we prp ctx ++ [Did (Log "error" "Execution failed")] ++ back)
| impl_agent_failed back :
    workAgentEnded we false → BackToDefault back →
    ImplementRun we prp ctx branch (Throw "Execution failed")
      (implementStart we prp ctx ++ [Did (Log "error" "Execution failed")] ++ back
       ++ [Ran (GitBranchDelete branch)])
| impl_add_failed e checks :
    workAgentEnded we true →
    Forall (fun e => isValidationStep e = true) checks →
    ImplementRun we prp ctx branch (Throw e)
      (implementStart we prp ctx ++ [Did (Log "info" "Running validation...")] ++ checks
       ++ [Did (Exec GitAddAll)])
| impl_no_changes_stuck e checks back :
    workAgentEnded we true →
    Forall (fun e => isValidationStep e = true) checks → BackToDefault back →
    ImplementRun we prp ctx branch (Throw e)
      (implementStart we prp ctx ++ [Did (Log "info" "Running validation...")] ++ checks
       ++ [Did (Exec GitAddAll); Did (Exec GitStatusPorcelain);
           Did (Log "warn" "No changes produced - PRP may already be implemented")]
       ++ back)
| impl_no_changes checks back :
    workAgentEnded we true →
    Forall (fun e => isValidationStep e = true) checks → BackToDefault back →
    ImplementRun we prp ctx branch (Ok tt)
      (implementStart we prp ctx ++ [Did (Log "info" "Running validation...")] ++ checks
       ++ [Did (Exec GitAddAll); Did (Exec GitStatusPorcelain);
           Did (Log "warn" "No changes produced - PRP may already be implemented")]
       ++ back ++ [Ran (GitBranchDelete branch)])
| impl_publish_failed e checks (done : list Event) :
    workAgentEnded we true →
    Forall (fun e => isValidationStep e = true) checks →
    done `prefix_of` publication prp ctx branch → done ≠ [] →
    ImplementRun we prp ctx branch (Throw e)
      (implementStart we prp ctx ++ [Did (Log "info" "Running validation...")] ++ checks
       ++ [Did (Exec GitAddAll); Did (Exec GitStatusPorcelain)] ++ done)
| impl_created r checks back :
    workAgentEnded we true → createSucceeded we →
    Forall (fun e => isValidationStep e = true) checks → BackToDefault back →
    ImplementRun we prp ctx branch r
      (implementStart we prp ctx ++ [Did (Log "info" "Running validation...")] ++ checks
       ++ [Did (Exec GitAddAll); Did (Exec GitStatusPorcelain)]
       ++ publication prp ctx branch
       ++ [Did (FsUnlink (prBodyFile ctx)); Did (Log "success" "PR created successfully")]
       ++ back).

(** Surroundings in which the agent fails. *)
Definition failedAgentWork : WorkEnv :=
  {| wBot := None;
     wTimeouts := timeouts quietEnv;
     wRun := fun _ _ => Exit0 "";
     wRunMore := fun _ _ => Exit0 "";
     wPrView := fun _ _ => ExecError "no such request";
     wClaude := fun _ _ => {| success := false; output := "timeout" |};
     wExists := fun _ _ => false;
     wReadPackage := fun _ _ => Throw "ENOENT";
     wReaddir := fun _ _ => Ok [];
     wMtime := fun _ _ => Ok 0%Z;
     wNow := fun _ => 0%Z;
     wReadPlan := fun _ _ => Throw "ENOENT";
     wWorld := fun _ => emptyWorld |}.


(** An enriched item without branch or request. *)
Definition readyState : PRPState.t :=
  PRPState.mk "a" "Item a" "scope" [] (exampleSpec "a" [])
              true (Some "/work/demo/PRPs/enriched/a.md") None None None None.

(* ===================================================================== *)
(** ** actions.ts: Enrich *)
(* ===================================================================== *)

(** [s.endsWith(suffix)] *)
Definition endsWith (suffix s : string) : bool :=
  (String.length suffix <=? String.length s)%nat
  && String.eqb (JS.drop (String.length s - String.length suffix) s) suffix.

(** [ensureDir(dir)] *)
Definition ensureDir (we : WorkEnv) (dir : string) : Eff History unit :=
  fun h => if wExists we h dir then (Ok tt, h) else (Ok tt, h ++ [MadeDir dir]).

(** [if (items?.length) sections.push(heading, items.map(render).join('\n'), '')] *)
Definition listed {A : Type} (heading : string) (render : A -> string)
    (items : option (list A)) : list string :=
  match items with
  | Some (x :: l) => [heading; JS.join JS.nl (List.map render (x :: l)); ""]
  | _ => []
  end.

(** [if (text) sections.push(heading, text, '')] *)
Definition stated (heading : string) (text : option string) : list string :=
  match text with
  | Some x => if JS.truthy x then [heading; x; ""] else []
  | None => []
  end.

(** [buildInitialPRP(prp, master)] *)
Definition buildInitialPRP (prp : MasterPRP.t) (master : MasterPlan) : string :=
  JS.join JS.nl
    ([ "# " +:+ MasterPRP.id prp +:+ " - " +:+ MasterPRP.title prp; "";
       "## FEATURE:"; "";
       "### Goal"; MasterPRP.scope prp; "" ]
     ++ stated "### Project Context" (context master)
     ++ listed "### Dependencies" (fun d => "- " +:+ d +:+ " must be completed first")
               (MasterPRP.depends_on prp)
     ++ listed "### Files to Create" (fun f => "- `" +:+ f.1 +:+ "`: " +:+ f.2)
               (MasterPRP.files_to_create prp)
     ++ listed "### Files to Modify" (fun f => "- `" +:+ f.1 +:+ "`: " +:+ f.2)
               (MasterPRP.files_to_modify prp)
     ++ listed "### Acceptance Criteria" (fun c => "- [ ] " +:+ c)
               (MasterPRP.acceptance_criteria prp)
     ++ listed "### Tests Required" (fun t => "- " +:+ t)
               (MasterPRP.tests_required prp)
     ++ listed "## CONSTRAINTS:" (fun c => "- " +:+ c) (constraints master)
     ++ stated "## NOTES:" (MasterPRP.notes prp)
     ++ [ "## DOCUMENTATION:"; "";
          "Search the codebase for similar patterns and follow existing conventions.";
          "Reference existing implementations for consistency.";
          "" ]).

(** [searchDirs.map(dir => path.join(projectPath, dir))]; joining ['.']
    gives the project path itself. *)
Definition searchDirs (projectPath : string) : list string :=
  [ JS.pathJoin projectPath "PRPs/enriched"; JS.pathJoin projectPath "PRPs";
    JS.pathJoin projectPath "PRPs/generated"; projectPath ].

Definition patterns (prpId : string) : list string :=
  [ prpId +:+ ".md"; prpId +:+ "-ENRICHED.md"; prpId +:+ "-enriched.md" ].

(** The first loop of findGeneratedPRP: the first existing file with one of
    the exact names, directory by directory. *)
Definition exactMatch (we : WorkEnv) (h : History) (prpId : string)
    (dirs : list string) : option string :=
  List.find (wExists we h)
    (flat_map (fun fullDir =>
                 if wExists we h fullDir
                 then List.map (JS.pathJoin fullDir) (patterns prpId)
                 else [])
              dirs).

Record Candidate : Type := { cand_path : string; cand_mtime : Z }.

(** [.map((f) => ({ path: path.join(fullDir, f), mtime: fs.statSync(...).mtimeMs }))];
    the first failing [statSync] throws. *)
Fixpoint stats (we : WorkEnv) (h : History) (fullDir : string) (names : list string)
  : Result (list Candidate) :=
  match names with
  | [] => Ok []
  | f :: rest =>
      match wMtime we h (JS.pathJoin fullDir f) with
      | Throw e => Throw e
      | Ok m =>
          match stats we h fullDir rest with
          | Throw e => Throw e
          | Ok l => Ok ({| cand_path := JS.pathJoin fullDir f; cand_mtime := m |} :: l)
          end
      end
  end.

(** [files.sort((a, b) => b.mtime - a.mtime)[0]]: the sort is stable, so
    this is the first listed among the newest. *)
Fixpoint newest (l : list Candidate) : option Candidate :=
  match l with
  | [] => None
  | c :: rest =>
      match newest rest with
      | Some d => if (cand_mtime c <? cand_mtime d)%Z then Some d else Some c
      | None => Some c
      end
  end.

(** [const maxAge = 30 * 60 * 1000] of findGeneratedPRP *)
Definition generatedMaxAge : Z := 30 * 60 * 1000.

Definition namedAfter (prpId f : string) : bool :=
  endsWith ".md" f && JS.includes prpId f.

(** The body of the [try] of the second loop, for one directory. *)
Definition recentIn (we : WorkEnv) (h : History) (prpId : string) (now : Z)
    (fullDir : string) : option string :=
  match wReaddir we h fullDir with
  | Throw _ => None
  | Ok names =>
      match stats we h fullDir (List.filter (namedAfter prpId) names) with
      | Throw _ => None
      | Ok files =>
          option_map cand_path
            (newest (List.filter (fun f => (now - cand_mtime f <? generatedMaxAge)%Z)
                                 files))
      end
  end.

(** The second loop of findGeneratedPRP. *)
Fixpoint recentMatch (we : WorkEnv) (h : History) (prpId : string) (now : Z)
    (dirs : list string) : option string :=
  match dirs with
  | [] => None
  | fullDir :: rest =>
      if wExists we h fullDir then
        match recentIn we h prpId now fullDir with
        | Some p => Some p
        | None => recentMatch we h prpId now rest
        end
      else recentMatch we h prpId now rest
  end.

(** [findGeneratedPRP(prpId, projectPath)], called after the history [h]. *)
Definition findGeneratedPRP (we : WorkEnv) (h : History) (prpId projectPath : string)
  : option string :=
  match exactMatch we h prpId (searchDirs projectPath) with
  | Some p => Some p
  | None => recentMatch we h prpId (wNow we h) (searchDirs projectPath)
  end.

Definition initialFile (prp : PRPState.t) (ctx : ProjectContext) : string :=
  JS.pathJoin (path ctx) (".prp-initial-" +:+ PRPState.id prp +:+ ".md").

Definition enrichedTarget (prp : PRPState.t) (ctx : ProjectContext) : string :=
  JS.pathJoin (enrichedDir ctx) (PRPState.id prp +:+ ".md").

Definition enrichCommitMessage (prp : PRPState.t) : string :=
  "chore(prp): Enrich " +:+ PRPState.id prp.

(** Lines 254-278: enrichPRP once the agent has succeeded. *)
Definition saveEnriched (we : WorkEnv) (prp : PRPState.t) (ctx : ProjectContext)
  : Eff History unit :=
  h <- get ;;
  match findGeneratedPRP we h (PRPState.id prp) (path ctx) with
  | Some generatedFile =>
      if JS.truthy generatedFile then
        when (negb (String.eqb generatedFile (enrichedTarget prp ctx)))
             (ensureDir we (enrichedDir ctx) ;;;
              record (Renamed generatedFile (enrichedTarget prp ctx))) ;;;
        note "success" ("Saved enriched PRP: " +:+ enrichedTarget prp ctx) ;;;
        execMore we (GitAddPath (enrichedDir ctx)) false ;;;
        embed we (fun env => execCmd env (GitCommit (enrichCommitMessage prp)) false) ;;;
        execMore we GitPush false ;;;
        note "success" "Enriched PRP committed to main branch"
      else
        note "error" "Could not find generated PRP file" ;;;
        throw "Generated PRP file not found"
  | None =>
      note "error" "Could not find generated PRP file" ;;;
      throw "Generated PRP file not found"
  end.

(** [enrichPRP(prp, master, ctx)] *)
Definition enrichPRP (we : WorkEnv) (prp : PRPState.t) (master : MasterPlan)
    (ctx : ProjectContext) : Eff History unit :=
  note "info" ("Enriching " +:+ PRPState.id prp +:+ ": " +:+ PRPState.title prp +:+ "...") ;;;
  embed we configureGitBot ;;;
  ensureDir we (enrichedDir ctx) ;;;
  record (Did (FsWrite (initialFile prp ctx)
                       (buildInitialPRP (PRPState.masterPrp prp) master))) ;;;
  note "info" "Running /generate-prp skill (10-20 min)..." ;;;
  result <- embed we (fun env =>
              runClaude env ("/generate-prp " +:+ dq +:+ initialFile prp ctx +:+ dq)
                        (path ctx) (enrichment (timeouts env))) ;;
  tryCatch (record (Did (FsUnlink (initialFile prp ctx)))) (fun _ => ret tt) ;;;
  if negb (success result) then
    note "error" "Enrichment failed" ;;;
    throw "Enrichment failed"
  else saveEnriched we prp ctx.

(* ===================================================================== *)
(** ** state.ts: loadMasterPlan; orchestrator.ts: the run loop *)
(* ===================================================================== *)

(** [loadMasterPlan(ctx)] *)
Definition loadMasterPlan (we : WorkEnv) (ctx : ProjectContext)
  : Eff History (option MasterPlan) :=
  fun h =>
    if negb (wExists we h (masterFile ctx)) then (Ok None, h)
    else match wReadPlan we h (masterFile ctx) with
         | Ok master => (Ok master, h)
         | Throw e =>
             (Ok None, h ++ [Did (Log "error" ("Failed to parse master plan: " +:+ e))])
         end.

(** [executeNextAction(states, master, ctx)] *)
Definition executeNextAction (we : WorkEnv) (states : list PRPState.t)
    (master : MasterPlan) (ctx : ProjectContext) : Eff History bool :=
  match findApprovedPRP states with
  | Some approvedPRP =>
      note "info" ("Found approved PR #" +:+ showNum (PRPState.prNumber approvedPRP)
                   +:+ " for " +:+ PRPState.id approvedPRP) ;;;
      mergeApprovedPR we approvedPRP ;;;
      ret true
  | None =>
      match findChangesRequestedPRP states with
      | Some changesRequestedPRP =>
          note "info" ("Found changes requested on PR #"
                       +:+ showNum (PRPState.prNumber changesRequestedPRP)
                       +:+ " for " +:+ PRPState.id changesRequestedPRP) ;;;
          embed we (fun env => runRevision env changesRequestedPRP ctx) ;;;
          ret false
      | None =>
          match findPendingReviewPRP states with
          | Some pendingReview =>
              note "info" ("Waiting for review on PR #"
                           +:+ showNum (PRPState.prNumber pendingReview)
                           +:+ " (" +:+ PRPState.id pendingReview +:+ ")") ;;;
              note "info" ("Review at: https://github.com/$(gh repo view --json nameWithOwner -q .nameWithOwner)/pull/"
                           +:+ showNum (PRPState.prNumber pendingReview)) ;;;
              ret false
          | None =>
              match findNextPRP states (completed master) with
              | None =>
                  note "info" "No PRPs ready (waiting for dependencies to be merged)" ;;;
                  ret false
              | Some nextPRP =>
                  if negb (PRPState.isEnriched nextPRP) then
                    note "info" ("Next: Enrich " +:+ PRPState.id nextPRP) ;;;
                    enrichPRP we nextPRP master ctx ;;;
                    ret true
                  else
                    note "info" ("Next: Execute " +:+ PRPState.id nextPRP) ;;;
                    executePRP we nextPRP ctx ;;;
                    ret false
              end
          end
      end
  end.

(** How a template literal prints a decision. *)
Definition reviewName (r : ReviewState) : string :=
  match r with
  | approved => "approved"
  | changes_requested => "changes_requested"
  | pending => "pending"
  | none => "none"
  end.

(** [icons[state.reviewState || 'none']] *)
Definition reviewIcon (o : option ReviewState) : string :=
  match default none o with
  | approved => "👍"
  | changes_requested => "🔧"
  | pending => "⏳"
  | none => "👀"
  end.

(** The [status] deriveAllStates displays for an item, lines 147-164. *)
Definition statusLine (st : PRPState.t) : string :=
  if isMerged st then "✅ merged"
  else if isOpen st then
    "PR #" +:+ showNum (PRPState.prNumber st) +:+ " " +:+ reviewIcon (PRPState.reviewState st)
    +:+ " " +:+ match PRPState.reviewState st with
                | Some r => reviewName r
                | None => "undefined"
                end
  else if PRPState.isEnriched st then "📝 ready to execute"
  else "⏳ pending enrichment".

(** The commands derivePRPState issues for an item: the branch listing
    always, the query for the request of the branch when a branch was
    listed, and the search for a merged request when no request number was
    recorded by then. *)
Definition derivationQueries (w : World) (prp : MasterPRP.t) : list Event :=
  [ Did (Exec (GitBranchListRemote
                 ("origin/" +:+ branchPrefix (MasterPRP.id prp) +:+ "*"))) ]
  ++ match listedBranch w prp with
     | Some b => if JS.truthy b then [Ran (GhPrListHead b)] else []
     | None => []
     end
  ++ (if JS.falsyNum (number <$> requestByBranch w prp)
      then [Ran (GhPrListMerged (branchPrefix (MasterPRP.id prp)))]
      else []).

(** The loop of deriveAllStates with what it does: per item the queries of
    derivePRPState and the status line. *)
Fixpoint deriveStatesLogged (w : World) (ctx : ProjectContext) (l : list MasterPRP.t)
  : Eff History (list PRPState.t) :=
  match l with
  | [] => ret []
  | prp :: rest =>
      st <- lift (derivePRPState w prp ctx) ;;
      modify (fun h => h ++ derivationQueries w prp) ;;;
      note "info" (MasterPRP.id prp +:+ ": " +:+ statusLine st) ;;;
      states <- deriveStatesLogged w ctx rest ;;
      ret (st :: states)
  end.

(** [deriveAllStates(master, ctx)] as part of a run: the answers to its
    queries are those of the world at the start of the pass. *)
Definition deriveAllStatesLogged (we : WorkEnv) (master : MasterPlan)
    (ctx : ProjectContext) : Eff History (list PRPState.t) :=
  fun h => deriveStatesLogged (wWorld we h) ctx (prps master) h.

(** The [while (true)] of runOrchestration, for at most [fuel] rounds;
    [None] when the rounds are used up.  The blank console lines leave no
    event. *)
Fixpoint runLoop (fuel : nat) (we : WorkEnv) (master : MasterPlan)
    (ctx : ProjectContext) : Eff History (option unit) :=
  match fuel with
  | O => ret None
  | S fuel' =>
      states <- deriveAllStatesLogged we master ctx ;;
      if isComplete states then
        note "success" "All PRPs have been merged! Feature complete." ;;;
        ret (Some tt)
      else
        continue <- executeNextAction we states master ctx ;;
        if negb continue then ret (Some tt)
        else
          note "info" "Continuing to next action..." ;;;
          runLoop fuel' we master ctx
  end.

(** Lines 84-90: the checkout of the default branch before the loop. *)
Definition syncDefaultBranch (we : WorkEnv) : Eff History unit :=
  embed we (fun env =>
    defaultBranch <- getDefaultBranch env ;;
    tryCatch (execCmd env (GitCheckout defaultBranch) true ;;;
              execCmd env GitPull true ;;;
              ret tt)
             (fun _ => ret tt)).

(** [runOrchestration(ctx)] *)
Definition runOrchestration (fuel : nat) (we : WorkEnv) (ctx : ProjectContext)
  : Eff History (option unit) :=
  loaded <- loadMasterPlan we ctx ;;
  match loaded with
  | None =>
      note "warn" "No master-plan.yaml found" ;;;
      note "info" ("Expected at: " +:+ masterFile ctx) ;;;
      ret (Some tt)
  | Some master =>
      note "info" ("Feature: " +:+ plan_name master) ;;;
      note "info" ("PRPs: " +:+ pretty (length (prps master))) ;;;
      syncDefaultBranch we ;;;
      runLoop fuel we master ctx
  end.

(* ===================================================================== *)
(** ** Vocabulary: the ways of the Enrich workflow *)
(* ===================================================================== *)

(** [ensureDir(ctx.enrichedDir)] created the directory, or found it. *)
Definition madeDir (ctx : ProjectContext) (made : list Event) : Prop :=
  made = [] ∨ made = [MadeDir (enrichedDir ctx)].

(** What enrichPRP does up to the removal of the seed file, after the
    agent has ended. *)
Definition enrichStart (we : WorkEnv) (prp : PRPState.t) (master : MasterPlan)
    (ctx : ProjectContext) (cfg : list Effect) (made : list Event) : list Event :=
  [ Did (Log "info" ("Enriching " +:+ PRPState.id prp +:+ ": " +:+ PRPState.title prp
                     +:+ "...")) ]
  ++ List.map Did cfg ++ made
  ++ [ Did (FsWrite (initialFile prp ctx)
                    (buildInitialPRP (PRPState.masterPrp prp) master));
       Did (Log "info" "Running /generate-prp skill (10-20 min)...");
       Did (RunClaude ("/generate-prp " +:+ dq +:+ initialFile prp ctx +:+ dq)
                      (path ctx) (enrichment (wTimeouts we)));
       Did (FsUnlink (initialFile prp ctx)) ].

(** The commit of the enriched file, in order. *)
Definition enrichCommit (prp : PRPState.t) (ctx : ProjectContext) : list Event :=
  [ Ran (GitAddPath (enrichedDir ctx));
    Did (Exec (GitCommit (enrichCommitMessage prp)));
    Ran GitPush ].

(** The generated file is where it belongs, or is moved there. *)
Inductive Moved (prp : PRPState.t) (ctx : ProjectContext) : list Event -> Prop :=
| moved_in_place : Moved prp ctx []
| moved_renamed generated made :
    generated ≠ enrichedTarget prp ctx → madeDir ctx made →
    Moved prp ctx (made ++ [Renamed generated (enrichedTarget prp ctx)]).

(** The ways enrichPRP can go. *)
Inductive EnrichRun (we : WorkEnv) (prp : PRPState.t) (master : MasterPlan)
    (ctx : ProjectContext) : Result unit -> list Event -> Prop :=
| enrich_agent_failed cfg made :
    Forall (fun e => isIdentityConfig e = true) cfg → madeDir ctx made →
    workAgentEnded we false →
    EnrichRun we prp master ctx (Throw "Enrichment failed")
      (enrichStart we prp master ctx cfg made
       ++ [Did (Log "error" "Enrichment failed")])
| enrich_not_found cfg made :
    Forall (fun e => isIdentityConfig e = true) cfg → madeDir ctx made →
    workAgentEnded we true →
    EnrichRun we prp master ctx (Throw "Generated PRP file not found")
      (enrichStart we prp master ctx cfg made
       ++ [Did (Log "error" "Could not find generated PRP file")])
| enrich_commit_failed e cfg made moved (done : list Event) :
    Forall (fun e => isIdentityConfig e = true) cfg → madeDir ctx made →
    workAgentEnded we true → Moved prp ctx moved →
    done `prefix_of` enrichCommit prp ctx → done ≠ [] →
    EnrichRun we prp master ctx (Throw e)
      (enrichStart we prp master ctx cfg made ++ moved
       ++ [Did (Log "success" ("Saved enriched PRP: " +:+ enrichedTarget prp ctx))]
       ++ done)
| enrich_committed cfg made moved :
    Forall (fun e => isIdentityConfig e = true) cfg → madeDir ctx made →
    workAgentEnded we true → Moved prp ctx moved →
    EnrichRun we prp master ctx (Ok tt)
      (enrichStart we prp master ctx cfg made ++ moved
       ++ [Did (Log "success" ("Saved enriched PRP: " +:+ enrichedTarget prp ctx))]
       ++ enrichCommit prp ctx
       ++ [Did (Log "success" "Enriched PRP committed to main branch")]).

(** What enrichPRP does before it writes the seed file: its log line, the
    identity configuration and the creation of the directory. *)
Definition isEnrichSetup (e : Event) : bool :=
  match e with
  | Did (Log _ _) => true
  | Did x => isIdentityConfig x
  | MadeDir _ => true
  | _ => false
  end.

Definition isLogEvent (e : Event) : bool :=
  match e with Did (Log _ _) => true | _ => false end.

Definition isMergeCommand (e : Event) : bool :=
  match e with Ran (GhPrMerge _) => true | _ => false end.

(** An item that is not enriched yet. *)
Definition rawState : PRPState.t :=
  PRPState.mk "a" "Item a" "scope" [] (exampleSpec "a" [])
              false None None None None None.

Definition examplePlan : MasterPlan :=
  {| plan_name := "demo"; context := Some "A demo"; constraints := None;
     completed := None; prps := [exampleSpec "a" []] |}.

(** Surroundings in which the agent leaves [a-ENRICHED.md] in [PRPs] and
    every command succeeds. *)
Definition enrichingEnv : WorkEnv :=
  {| wBot := None;
     wTimeouts := timeouts quietEnv;
     wRun := fun _ _ => Exit0 "";
     wRunMore := fun _ _ => Exit0 "";
     wPrView := fun _ _ => ExecError "no such request";
     wClaude := fun _ _ => {| success := true; output := "" |};
     wExists := fun _ f =>
       bool_decide (f ∈ ["/work/demo/PRPs"; "/work/demo/PRPs/a-ENRICHED.md";
                         "/work/demo/PRPs/enriched"]);
     wReadPackage := fun _ _ => Throw "ENOENT";
     wReaddir := fun _ _ => Ok [];
     wMtime := fun _ _ => Ok 0%Z;
     wNow := fun _ => 0%Z;
     wReadPlan := fun _ _ => Ok (Some examplePlan);
     wWorld := fun _ => emptyWorld |}.

(** The queries of derivePRPState: the listing of the item's remote branches
    and the two listings of pull requests. *)
Definition isDerivationQuery (e : Event) : bool :=
  match e with
  | Did (Exec (GitBranchListRemote _)) => true
  | Ran (GhPrListHead _ | GhPrListMerged _) => true
  | _ => false
  end.

(** The steps of one pass of deriveAllStates: the queries of derivePRPState
    and the status lines. *)
Definition isDerivationStep (e : Event) : bool :=
  isLogEvent e || isDerivationQuery e.


(** Surroundings in which the platform keeps reporting request 1 of item a
    as open and approved, and accepts every merge command. *)
Definition approvedWorld : World :=
  {| existsSync := fun _ => true;
     gitBranchRemoteList := fun _ => Exit0 "  origin/auto/a-item-a";
     ghPrListHead := fun _ =>
       Exit0 (JsonOf [ {| number := 1; state := "OPEN";
                          reviewDecision := Some "APPROVED"; labels := None |} ]);
     ghPrListMerged := fun _ => Exit0 (JsonOf []) |}.

Definition queueingEnv : WorkEnv :=
  {| wBot := None;
     wTimeouts := timeouts quietEnv;
     wRun := fun _ _ => Exit0 "";
     wRunMore := fun _ _ => Exit0 "";
     wPrView := fun _ _ => ExecError "no such request";
     wClaude := fun _ _ => {| success := true; output := "" |};
     wExists := fun _ _ => true;
     wReadPackage := fun _ _ => Throw "ENOENT";
     wReaddir := fun _ _ => Ok [];
     wMtime := fun _ _ => Ok 0%Z;
     wNow := fun _ => 0%Z;
     wReadPlan := fun _ _ => Ok (Some examplePlan);
     wWorld := fun _ => approvedWorld |}.


(** Surroundings in which the remote already has the branch of item a. *)
Definition existingBranchEnv : Env :=
  {| botCredentials := None;
     timeouts := timeouts quietEnv;
     run := fun _ c =>
       match c with
       | GitBranchListRemote _ => Exit0 "  origin/auto/a-item-a"
       | _ => Exit0 ""
       end;
     prView := prView quietEnv;
     claude := claude quietEnv |}.


(* ===================================================================== *)
(** ** skills.ts *)
(* ===================================================================== *)

(** The files of a project as skills.ts sees them: plain files with their
    text, and directories.  As in the lock code, writing a file and creating
    a directory are taken to succeed. *)
Record Disk : Type := {
  diskFiles : gmap string string;
  diskDirs : gset string;
}.

(** [fs.existsSync(p)] *)
Definition diskExists (d : Disk) (p : string) : bool :=
  bool_decide (is_Some (diskFiles d !! p)) || bool_decide (p ∈ diskDirs d).

(** [ensureDir(dir)] of utils.ts on a [Disk]. *)
Definition diskEnsureDir (dir : string) (d : Disk) : Disk :=
  if diskExists d dir then d
  else {| diskFiles := diskFiles d; diskDirs := {[ dir ]} ∪ diskDirs d |}.

(** [fs.writeFileSync(file, data)] on a [Disk]. *)
Definition diskWrite (file data : string) (d : Disk) : Disk :=
  {| diskFiles := <[ file := data ]> (diskFiles d); diskDirs := diskDirs d |}.

(** [getProjectSkillsDir(projectPath)] *)
Definition getProjectSkillsDir (projectPath : string) : string :=
  JS.pathJoinAll [projectPath; ".claude"; "commands"].

Record SkillCheck : Type := { installed : bool; missing : list string }.

(** [const required = ['execute-prp.md', 'generate-prp.md']] *)
Definition requiredSkills : list string := [ "execute-prp.md"; "generate-prp.md" ].

(** [checkProjectSkills(projectPath)] *)
Definition checkProjectSkills (projectPath : string) (d : Disk) : SkillCheck :=
  let skillsDir := getProjectSkillsDir projectPath in
  let absent :=
    List.filter (fun skill => negb (diskExists d (JS.pathJoin skillsDir skill)))
                requiredSkills in
  {| installed := (length absent =? 0)%nat; missing := absent |}.

Section skills.

(** The texts of the three skill files, in the order of the [SKILLS]
    table. *)
Variables (executePrp generatePrp verifyPrp : string).

Definition SKILLS : list (string * string) :=
  [ ("execute-prp.md", executePrp); ("generate-prp.md", generatePrp);
    ("verify-prp.md", verifyPrp) ].

(** One round of the loop of installSkillsToProject. *)
Definition installSkill (skillsDir : string) (force : bool)
    (acc : Disk * list Event) (entry : string * string) : Disk * list Event :=
  let filepath := JS.pathJoin skillsDir entry.1 in
  if diskExists acc.1 filepath && negb force then acc
  else (diskWrite filepath entry.2 acc.1,
        acc.2 ++ [Did (Log "success" ("Installed skill: " +:+ entry.1))]).

(** [installSkillsToProject(projectPath, force)]: the new disk and what is
    logged. *)
Definition installSkillsToProject (projectPath : string) (force : bool) (d : Disk)
  : Disk * list Event :=
  let skillsDir := getProjectSkillsDir projectPath in
  fold_left (installSkill skillsDir force) SKILLS (diskEnsureDir skillsDir d, []).

(** [ensureProjectSkills(projectPath)] *)
Definition ensureProjectSkills (projectPath : string) (d : Disk) : Disk * list Event :=
  let check := checkProjectSkills projectPath d in
  if negb (installed check) then
    let (d', logs) := installSkillsToProject projectPath false d in
    (d', Did (Log "info" ("Installing missing skills: "
                          +:+ JS.join ", " (missing check))) :: logs)
  else (d, []).

(* ===================================================================== *)
(** ** orchestrator.ts: checkPrerequisites and runProject *)
(* ===================================================================== *)

(** [{ ok: boolean; error?: string }] *)
Record Prereq : Type := { ok : bool; error : option string }.

(** A step on the disk, with what it logs, as part of a run. *)
Definition onDisk (f : Disk -> Disk * list Event) : Eff (History * Disk) unit :=
  fun s => let (d', logs) := f s.2 in (Ok tt, (s.1 ++ logs, d')).

(** [checkPrerequisites(ctx)] *)
Definition checkPrerequisites (we : WorkEnv) (ctx : ProjectContext)
  : Eff (History * Disk) Prereq :=
  onDisk (ensureProjectSkills (path ctx)) ;;;
  auth <- tryCatch
            (onHistory (execMore we GhAuthStatus true) ;;; ret None)
            (fun _ => ret (Some {| ok := false;
                                   error := Some "GitHub CLI not authenticated. Run: gh auth login" |})) ;;
  match auth with
  | Some failed => ret failed
  | None =>
      repo <- tryCatch
                (onHistory (execMore we GitStatus true) ;;; ret None)
                (fun _ => ret (Some {| ok := false;
                                       error := Some "Not a git repository" |})) ;;
      match repo with
      | Some failed => ret failed
      | None => ret {| ok := true; error := None |}
      end
  end.


End skills.

(** A project that has the two required skills but not the third. *)
Definition skilledDisk : Disk :=
  {| diskFiles := {[ "/work/demo/.claude/commands/execute-prp.md" := "old text";
                     "/work/demo/.claude/commands/generate-prp.md" := "old text" ]};
     diskDirs := {[ "/work/demo/.claude/commands" ]} |}.

(* ===================================================================== *)
(** ** config.ts *)
(* ===================================================================== *)

(** [ProjectEntry] of types.ts *)
Record ProjectEntry : Type := {
  entry_name : string;
  entry_path : string;
  entry_enabled : bool;
  entry_masterFile : option string;
}.

Record Defaults : Type := {
  checkIntervalMinutes : Z;
  enrichmentTimeoutMinutes : Z;
  executionTimeoutMinutes : Z;
  revisionTimeoutMinutes : Z;
}.

(** [GlobalConfig] of types.ts, with the [bot] entry config.ts adds. *)
Record GlobalConfig : Type := {
  projects : list ProjectEntry;
  defaults : Defaults;
  bot : option BotCredentials;
}.

Definition DEFAULT_CONFIG : GlobalConfig :=
  {| projects := [];
     defaults := {| checkIntervalMinutes := 3; enrichmentTimeoutMinutes := 25;
                    executionTimeoutMinutes := 20; revisionTimeoutMinutes := 15 |};
     bot := None |}.

Definition registered (name resolvedPath : string) (p : ProjectEntry) : bool :=
  String.eqb (entry_path p) resolvedPath || String.eqb (entry_name p) name.

(** [addProject(name, projectPath)] on the configuration it loaded; the
    result is the configuration it saves.  [resolvedPath] is
    [path.resolve(projectPath)] and [pathExists] tells whether it exists. *)
Definition addProject (config : GlobalConfig) (name resolvedPath : string)
    (pathExists : bool) : Result GlobalConfig :=
  if negb pathExists then Throw ("Path does not exist: " +:+ resolvedPath)
  else
    match List.find (registered name resolvedPath) (projects config) with
    | Some existing =>
        Throw ("Project already registered: " +:+ entry_name existing
               +:+ " (" +:+ entry_path existing +:+ ")")
    | None =>
        Ok {| projects := projects config
                          ++ [ {| entry_name := name; entry_path := resolvedPath;
                                  entry_enabled := true; entry_masterFile := None |} ];
              defaults := defaults config;
              bot := bot config |}
    end.

(** [l.splice(l.findIndex(f), 1)]; [None] when the index is -1. *)
Fixpoint spliceFirst {A : Type} (f : A -> bool) (l : list A) : option (list A) :=
  match l with
  | [] => None
  | x :: rest => if f x then Some rest else cons x <$> spliceFirst f rest
  end.

(** [removeProject(nameOrPath)] on the configuration it loaded;
    [resolvedPath] is [path.resolve(nameOrPath)]. *)
Definition removeProject (config : GlobalConfig) (nameOrPath resolvedPath : string)
  : Result GlobalConfig :=
  match spliceFirst (fun p => String.eqb (entry_name p) nameOrPath
                              || String.eqb (entry_path p) resolvedPath)
                    (projects config) with
  | None => Throw ("Project not found: " +:+ nameOrPath)
  | Some rest =>
      Ok {| projects := rest; defaults := defaults config; bot := bot config |}
  end.

(** [getEnabledProjects()] on the configuration it loaded. *)
Definition getEnabledProjects (config : GlobalConfig) : list ProjectContext :=
  List.map
    (fun p =>
       {| ctx_name := entry_name p;
          path := entry_path p;
          masterFile :=
            match entry_masterFile p with
            | Some f => if JS.truthy f then f
                        else JS.pathJoinAll [entry_path p; "PRPs"; "master-plan.yaml"]
            | None => JS.pathJoinAll [entry_path p; "PRPs"; "master-plan.yaml"]
            end;
          enrichedDir := JS.pathJoinAll [entry_path p; "PRPs"; "enriched"];
          lockFile := JS.pathJoin (entry_path p) ".prp-lock" |})
    (List.filter entry_enabled (projects config)).

Definition demoEntry : ProjectEntry :=
  {| entry_name := "demo"; entry_path := "/work/demo"; entry_enabled := true;
     entry_masterFile := None |}.

Definition demoConfig : GlobalConfig :=
  {| projects := [demoEntry]; defaults := defaults DEFAULT_CONFIG; bot := None |}.

(** What [path.resolve] answers with: an absolute path in normal form, with
    no slash at the end unless it is the root. *)
Definition isResolved (p : string) : bool :=
  JS.startsWith "/" p && String.eqb (JS.normalize p) p
  && (String.eqb p "/" || negb (JS.endsWithChar "/" p)).

Definition otherEntry : ProjectEntry :=
  {| entry_name := "other"; entry_path := "/work/other"; entry_enabled := true;
     entry_masterFile := None |}.

Definition twoProjects : GlobalConfig :=
  {| projects := [demoEntry; otherEntry]; defaults := defaults DEFAULT_CONFIG;
     bot := None |}.

(** A configuration edited by hand: the second entry names the directory of
    the first with a slash at the end. *)
Definition slashedProjects : GlobalConfig :=
  {| projects := [demoEntry;
                  {| entry_name := "again"; entry_path := "/work/demo/";
                     entry_enabled := true; entry_masterFile := None |}];
     defaults := defaults DEFAULT_CONFIG; bot := None |}.
(* ===================================================================== *)
(** ** Lists: first match *)
(* ===================================================================== *)

Section find_facts.
Context {A : Type} (p : A -> bool) (P : A -> Prop).
Hypothesis p_spec : ∀ x, p x = true ↔ P x.

Lemma find_Some_FirstSuch (l : list A) (x : A) :
  List.find p l = Some x ↔ FirstSuch P l x.
Proof.
  split.
  - induction l as [|y l IH]; simpl; [done|].
    destruct (p y) eqn:Hy.
    + intros [= ->]. exists [], l. split_and!; [done|by apply p_spec|constructor].
    + intros (pre & post & -> & HP & Hpre)%IH.
      exists (y :: pre), post. split_and!; [done|done|].
      constructor; [|done]. rewrite <- p_spec. congruence.
  - intros (pre & post & -> & HP & Hpre).
    induction Hpre as [|y pre Hy _ IH]; simpl.
    + apply p_spec in HP. by rewrite HP.
    + destruct (p y) eqn:E; [|done]. by apply p_spec in E.
Qed.

Lemma find_None_Forall (l : list A) :
  List.find p l = None ↔ Forall (fun y => ¬ P y) l.
Proof.
  induction l as [|y l IH]; simpl.
  - split; [constructor|done].
  - destruct (p y) eqn:Hy.
    + split; [done|]. intros [Hn _]%Forall_cons. by apply p_spec in Hy.
    + rewrite IH. split.
      * intros ?. constructor; [|done]. rewrite <- p_spec. congruence.
      * by intros [_ ?]%Forall_cons.
Qed.

Lemma Exists_FirstSuch (l : list A) :
  Exists P l → ∃ x, FirstSuch P l x.
Proof.
  intros HE. destruct (List.find p l) as [x|] eqn:Hf.
  - exists x. by apply find_Some_FirstSuch.
  - apply find_None_Forall in Hf. apply Exists_exists in HE as (x & Hx & HP).
    rewrite Forall_forall in Hf. by destruct (Hf x Hx).
Qed.
End find_facts.

Lemma FirstSuch_Exists {A : Type} (P : A -> Prop) (l : list A) (x : A) :
  FirstSuch P l x → Exists P l.
Proof.
  intros (pre & post & -> & HP & _). apply Exists_app. right. by constructor.
Qed.

Lemma FirstSuch_elem {A : Type} (P : A -> Prop) (l : list A) (x : A) :
  FirstSuch P l x → x ∈ l ∧ P x.
Proof. intros (pre & post & -> & HP & _). split; [set_solver|done]. Qed.

(* ===================================================================== *)
(** ** state.ts: the predicates of the finders *)
(* ===================================================================== *)

Lemma isOpen_spec s : isOpen s = true ↔ PRPState.prState s = Some "open".
Proof. unfold isOpen. by rewrite bool_decide_eq_true. Qed.

Lemma isMerged_spec s : isMerged s = true ↔ PRPState.prState s = Some "merged".
Proof. unfold isMerged. by rewrite bool_decide_eq_true. Qed.

Lemma approved_test_spec s :
  isOpen s && bool_decide (PRPState.reviewState s = Some approved) = true
  ↔ openWith approved s.
Proof.
  unfold openWith. by rewrite andb_true_iff, isOpen_spec, bool_decide_eq_true.
Qed.

Lemma changes_test_spec s :
  isOpen s && bool_decide (PRPState.reviewState s = Some changes_requested) = true
  ↔ openWith changes_requested s.
Proof.
  unfold openWith. by rewrite andb_true_iff, isOpen_spec, bool_decide_eq_true.
Qed.

Lemma awaiting_test_spec s :
  isOpen s && (bool_decide (PRPState.reviewState s = Some pending)
               || bool_decide (PRPState.reviewState s = Some none)) = true
  ↔ openAwaiting s.
Proof.
  unfold openAwaiting, openWith.
  rewrite andb_true_iff, orb_true_iff, isOpen_spec, !bool_decide_eq_true.
  tauto.
Qed.

Lemma findApprovedPRP_Some states s :
  findApprovedPRP states = Some s ↔ FirstSuch (openWith approved) states s.
Proof. apply find_Some_FirstSuch, approved_test_spec. Qed.

Lemma findApprovedPRP_None states :
  findApprovedPRP states = None ↔ Forall (fun y => ¬ openWith approved y) states.
Proof. apply find_None_Forall, approved_test_spec. Qed.

Lemma findChangesRequestedPRP_Some states s :
  findChangesRequestedPRP states = Some s
  ↔ FirstSuch (openWith changes_requested) states s.
Proof. apply find_Some_FirstSuch, changes_test_spec. Qed.

Lemma findChangesRequestedPRP_None states :
  findChangesRequestedPRP states = None
  ↔ Forall (fun y => ¬ openWith changes_requested y) states.
Proof. apply find_None_Forall, changes_test_spec. Qed.

Lemma findPendingReviewPRP_Some states s :
  findPendingReviewPRP states = Some s ↔ FirstSuch openAwaiting states s.
Proof. apply find_Some_FirstSuch, awaiting_test_spec. Qed.

Lemma findPendingReviewPRP_None states :
  findPendingReviewPRP states = None ↔ Forall (fun y => ¬ openAwaiting y) states.
Proof. apply find_None_Forall, awaiting_test_spec. Qed.

Lemma selectNext_last_tier states completed :
  findApprovedPRP states = None →
  findChangesRequestedPRP states = None →
  findPendingReviewPRP states = None →
  selectNext states completed = enrichOrExecute states completed.
Proof.
  intros H1 H2 H3. unfold selectNext, enrichOrExecute. rewrite H1, H2, H3.
  destruct (findNextPRP states completed) as [n|]; [|done].
  by destruct (PRPState.isEnriched n).
Qed.

(* ===================================================================== *)
(** ** state.ts: merged ids and the next item to work on *)
(* ===================================================================== *)

Lemma elem_of_fold_add (ids : list string) (acc : gset string) (x : string) :
  x ∈ fold_left (fun acc id => {[ id ]} ∪ acc) ids acc ↔ x ∈ ids ∨ x ∈ acc.
Proof.
  revert acc. induction ids as [|i ids IH]; intros acc; simpl.
  - rewrite elem_of_nil. tauto.
  - rewrite IH, elem_of_cons, elem_of_union, elem_of_singleton. tauto.
Qed.

Lemma elem_of_merged_states (states : list PRPState.t) (x : string) :
  x ∈ (list_to_set (List.map PRPState.id (List.filter isMerged states)) : gset string)
  ↔ ∃ s, s ∈ states ∧ PRPState.id s = x ∧ PRPState.prState s = Some "merged".
Proof.
  rewrite elem_of_list_to_set, list_elem_of_In, in_map_iff.
  split.
  - intros (s & Hid & [Hin Hm]%filter_In).
    exists s. by rewrite list_elem_of_In, <- isMerged_spec.
  - intros (s & Hin & Hid & Hm). exists s. split; [done|].
    apply filter_In. by rewrite <- list_elem_of_In, isMerged_spec.
Qed.

Lemma elem_of_getMergedIds states completed dep :
  dep ∈ getMergedIds states completed ↔ depSatisfied states completed dep.
Proof.
  unfold getMergedIds, depSatisfied. destruct completed as [ids|]; simpl.
  - rewrite elem_of_fold_add, elem_of_merged_states. tauto.
  - rewrite elem_of_merged_states, elem_of_nil. tauto.
Qed.

Lemma readyToWork_spec mergedIds s :
  readyToWork mergedIds s = true ↔
  PRPState.prState s ≠ Some "merged" ∧ PRPState.prState s ≠ Some "open"
  ∧ ∀ dep, dep ∈ PRPState.dependsOn s → dep ∈ mergedIds.
Proof.
  unfold readyToWork, isMerged, isOpen.
  repeat case_bool_decide; simpl; try (split; [done|tauto]).
  rewrite forallb_forall. setoid_rewrite bool_decide_eq_true.
  setoid_rewrite <- list_elem_of_In. tauto.
Qed.

Lemma findNextPRP_ready states completed s :
  findNextPRP states completed = Some s →
  s ∈ states
  ∧ PRPState.prState s ≠ Some "merged" ∧ PRPState.prState s ≠ Some "open"
  ∧ ∀ dep, dep ∈ PRPState.dependsOn s → depSatisfied states completed dep.
Proof.
  unfold findNextPRP. intros Hf.
  apply (find_Some_FirstSuch _ _ (fun x => reflexivity _)) in Hf.
  apply FirstSuch_elem in Hf as [Hin Hr]. split; [done|].
  apply readyToWork_spec in Hr as (? & ? & Hdeps). split_and!; [done..|].
  intros dep Hd. by apply elem_of_getMergedIds, Hdeps.
Qed.

(* ===================================================================== *)
(** ** Claims on the selection *)
(* ===================================================================== *)

(** C1. The chain of executeNextAction is a strict priority order in which
    the first matching item of a tier wins: an open approved request gives
    Merge of the first such item; failing that, an open request with changes
    requested gives Revise; failing that, an open request with decision
    pending or none gives Wait, which stops the run loop; only when no tier
    matches does the choice fall to the Enrich-or-Execute candidate.  In
    particular, when an approved open request exists the choice is a Merge
    and never a Revise, whatever else is open. *)
Theorem selectNext_strict_priority
    (states : list PRPState.t) (completed : option (list string)) :
  (Exists (openWith approved) states →
     ∃ s, FirstSuch (openWith approved) states s
          ∧ selectNext states completed = Merge s)
  ∧ (Forall (fun y => ¬ openWith approved y) states →
     Exists (openWith changes_requested) states →
     ∃ s, FirstSuch (openWith changes_requested) states s
          ∧ selectNext states completed = Revise s)
  ∧ (Forall (fun y => ¬ openWith approved y) states →
     Forall (fun y => ¬ openWith changes_requested y) states →
     Exists openAwaiting states →
     ∃ s, FirstSuch openAwaiting states s
          ∧ selectNext states completed = Wait s
          ∧ shouldContinue (selectNext states completed) = false)
  ∧ (Forall (fun y => ¬ openWith approved y) states →
     Forall (fun y => ¬ openWith changes_requested y) states →
     Forall (fun y => ¬ openAwaiting y) states →
     selectNext states completed = enrichOrExecute states completed)
  ∧ (∀ s, selectNext states completed = Enrich s
          ∨ selectNext states completed = Execute s →
     Forall (fun y => ¬ openWith approved y ∧ ¬ openWith changes_requested y
                      ∧ ¬ openAwaiting y) states)
  ∧ (Exists (openWith approved) states →
     Exists (openWith changes_requested) states →
     (∃ s, selectNext states completed = Merge s)
     ∧ ∀ s, selectNext states completed ≠ Revise s).
Proof.
  assert (Htier1 : Exists (openWith approved) states →
     ∃ s, FirstSuch (openWith approved) states s
          ∧ selectNext states completed = Merge s).
  { intros [s Hs]%(Exists_FirstSuch _ _ approved_test_spec).
    exists s. split; [done|].
    apply findApprovedPRP_Some in Hs. unfold selectNext. by rewrite Hs. }
  split_and!.
  - exact Htier1.
  - intros Hno1%findApprovedPRP_None
           [s Hs]%(Exists_FirstSuch _ _ changes_test_spec).
    exists s. split; [done|].
    apply findChangesRequestedPRP_Some in Hs. unfold selectNext.
    by rewrite Hno1, Hs.
  - intros Hno1%findApprovedPRP_None Hno2%findChangesRequestedPRP_None
           [s Hs]%(Exists_FirstSuch _ _ awaiting_test_spec).
    exists s. split; [done|].
    apply findPendingReviewPRP_Some in Hs. unfold selectNext.
    by rewrite Hno1, Hno2, Hs.
  - intros Hno1%findApprovedPRP_None Hno2%findChangesRequestedPRP_None
           Hno3%findPendingReviewPRP_None.
    by apply selectNext_last_tier.
  - intros s Hsel. unfold selectNext in Hsel.
    destruct (findApprovedPRP states) eqn:H1; [by destruct Hsel|].
    destruct (findChangesRequestedPRP states) eqn:H2; [by destruct Hsel|].
    destruct (findPendingReviewPRP states) eqn:H3; [by destruct Hsel|].
    apply findApprovedPRP_None in H1. apply findChangesRequestedPRP_None in H2.
    apply findPendingReviewPRP_None in H3.
    rewrite Forall_forall in *. intros y Hy. split_and!; eauto.
  - intros (s & _ & Hsel)%Htier1 _. split; [by exists s|].
    intros s'. by rewrite Hsel.
Qed.

Lemma selectNext_strict_priority_witness :
  let a := exampleState "a" [] (Some "open") (Some changes_requested) in
  let b := exampleState "b" [] (Some "open") (Some approved) in
  (∃ s, selectNext [a; b] None = Merge s) ∧ ∀ s, selectNext [a; b] None ≠ Revise s.
Proof.
  intros a b.
  apply (selectNext_strict_priority [a; b] None).
  - apply Exists_cons_tl, Exists_cons_hd. by split.
  - apply Exists_cons_hd. by split.
Defined.

(** C5. Dependency gating: an item one of whose dependencies is neither the
    id of an item derived as merged nor in the pre-declared completed list is
    never what findNextPRP returns, and so is never chosen for Enrich or
    Execute. *)
Theorem findNextPRP_dependency_gate
    (states : list PRPState.t) (completed : option (list string))
    (s : PRPState.t) (dep : string) :
  dep ∈ PRPState.dependsOn s →
  ¬ depSatisfied states completed dep →
  findNextPRP states completed ≠ Some s
  ∧ selectNext states completed ≠ Enrich s
  ∧ selectNext states completed ≠ Execute s.
Proof.
  intros Hdep Hunsat.
  assert (Hfind : findNextPRP states completed ≠ Some s).
  { intros (_ & _ & _ & Hall)%findNextPRP_ready. by apply Hunsat, Hall. }
  split; [done|].
  unfold selectNext.
  destruct (findApprovedPRP states); [done|].
  destruct (findChangesRequestedPRP states); [done|].
  destruct (findPendingReviewPRP states); [done|].
  destruct (findNextPRP states completed) as [n|] eqn:Hn; [|done].
  destruct (PRPState.isEnriched n); simpl; split; congruence.
Qed.

Lemma findNextPRP_dependency_gate_witness :
  let a := exampleState "a" [] None None in
  let b := exampleState "b" ["a"] None None in
  findNextPRP [a; b] (Some ["z"]) ≠ Some b
  ∧ selectNext [a; b] (Some ["z"]) ≠ Enrich b
  ∧ selectNext [a; b] (Some ["z"]) ≠ Execute b.
Proof.
  intros a b.
  apply (findNextPRP_dependency_gate [a; b] (Some ["z"]) b "a").
  - apply list_elem_of_here.
  - intros [(s & Hs & _ & Hm)|Hc].
    + apply list_elem_of_In in Hs. simpl in Hs.
      destruct Hs as [<-|[<-|[]]]; discriminate Hm.
    + apply list_elem_of_In in Hc. simpl in Hc.
      destruct Hc as [Hc|[]]. discriminate Hc.
Defined.

(** The converse direction of the gate: what findNextPRP returns has every
    dependency satisfied. *)
Lemma findNextPRP_dependencies_met states completed s dep :
  findNextPRP states completed = Some s →
  dep ∈ PRPState.dependsOn s →
  depSatisfied states completed dep.
Proof. intros (_ & _ & _ & Hall)%findNextPRP_ready ?. by apply Hall. Qed.

(* ===================================================================== *)
(** ** Claims on completion *)
(* ===================================================================== *)

Lemma isComplete_Forall states :
  isComplete states = true
  ↔ Forall (fun s => PRPState.prState s = Some "merged") states.
Proof.
  unfold isComplete. rewrite forallb_forall, Forall_forall.
  setoid_rewrite isMerged_spec. by setoid_rewrite list_elem_of_In.
Qed.

(** C2, as amended. isComplete holds exactly when the derived lifecycle of
    every item is merged.  The pre-declared completed list plays no part: an
    item without a review request keeps the plan incomplete, whether or not
    its id is pre-declared complete. *)
Theorem isComplete_iff_all_merged (states : list PRPState.t) :
  (isComplete states = true
   ↔ Forall (fun s => PRPState.prState s = Some "merged") states)
  ∧ (∀ s, s ∈ states → PRPState.prState s = None → isComplete states = false).
Proof.
  split; [apply isComplete_Forall|].
  intros s Hin Hnone. apply not_true_is_false.
  intros Hall%isComplete_Forall. rewrite Forall_forall in Hall.
  specialize (Hall s Hin). congruence.
Qed.

Lemma isComplete_iff_all_merged_witness :
  let a := exampleState "a" [] None None in
  isComplete [a] = false.
Proof.
  intros a.
  apply (proj2 (isComplete_iff_all_merged [a]) a); [apply list_elem_of_here|reflexivity].
Defined.

(** C2, counterexample. A plan whose only item is pre-declared complete and
    has no review request: every item counts as merged in the reading of the
    claim, yet isComplete is false. *)
Lemma isComplete_ignores_precompleted :
  ∃ states,
    deriveAllStates emptyWorld precompletedPlan exampleCtx = Ok states
    ∧ Forall (countsAsMerged (completed precompletedPlan)) states
    ∧ isComplete states = false
    ∧ ¬ (isComplete states = true
         ↔ Forall (countsAsMerged (completed precompletedPlan)) states).
Proof.
  eexists. split; [reflexivity|].
  assert (HF : Forall (countsAsMerged (completed precompletedPlan))
                 [initialState (exampleSpec "A" [])]).
  { constructor; [|constructor]. right. split_and!; [|done..].
    apply list_elem_of_here. }
  split; [exact HF|]. split; [reflexivity|].
  intros [_ Hback]. specialize (Hback HF). discriminate Hback.
Qed.

(* ===================================================================== *)
(** ** state.ts: derivePRPState in closed form *)
(* ===================================================================== *)

Lemma checkEnriched_run w prp ctx s :
  checkEnriched w prp ctx s = (Ok tt, withEnrichment w prp ctx s).
Proof.
  unfold checkEnriched, withEnrichment, when.
  by destruct (existsSync w _).
Qed.

Lemma checkBranch_run w prp s :
  checkBranch w prp s = (Ok tt, withBranch w prp s).
Proof.
  unfold checkBranch, withBranch, listedBranch, tryCatch, bind, lift, exec, when.
  destruct (gitBranchRemoteList w _) as [out|e]; simpl; [|done].
  by destruct (JS.truthy (JS.trim out)).
Qed.

Lemma checkPR_run w prp s :
  PRPState.branch s = listedBranch w prp →
  checkPR w s = (Ok tt, withRequest w prp s).
Proof.
  intros Hb. unfold checkPR, withRequest, requestByBranch, bind, get.
  rewrite Hb. destruct (listedBranch w prp) as [b|]; [|done].
  unfold when. destruct (JS.truthy b); [|done].
  unfold tryCatch, bind, lift, ghExec, exec, firstOfReply, safeJsonParse.
  destruct (ghPrListHead w b) as [[t|[|pr l]]|e]; done.
Qed.

Lemma checkMerged_run w prp s :
  checkMerged w prp s = (Ok tt, withMerged w prp s).
Proof.
  unfold checkMerged, withMerged, mergedByPrefix, bind, get, when.
  destruct (JS.falsyNum (PRPState.prNumber s)); [|done].
  unfold tryCatch, bind, lift, ghExec, exec, firstOfReply, safeJsonParse.
  destruct (ghPrListMerged w _) as [[t|[|m l]]|e]; done.
Qed.

Lemma withBranch_branch w prp ctx :
  PRPState.branch (withBranch w prp (withEnrichment w prp ctx (initialState prp)))
  = listedBranch w prp.
Proof.
  unfold withBranch, withEnrichment.
  destruct (listedBranch w prp); [done|]. by destruct (existsSync w _).
Qed.

(** derivePRPState always returns, and what it returns is the initial record
    taken through the four observations in order. *)
Lemma derivePRPState_closed w prp ctx :
  derivePRPState w prp ctx =
  Ok (withMerged w prp
        (withRequest w prp
           (withBranch w prp (withEnrichment w prp ctx (initialState prp))))).
Proof.
  unfold derivePRPState, derivePRPState_body, bind.
  rewrite checkEnriched_run, checkBranch_run.
  rewrite (checkPR_run w prp) by apply withBranch_branch.
  by rewrite checkMerged_run.
Qed.

Lemma hasLabel_spec x pr :
  hasLabel x (labelNames pr) = true ↔ carriesLabel x pr.
Proof.
  unfold hasLabel, labelNames, carriesLabel.
  rewrite bool_decide_eq_true, list_elem_of_In, in_map_iff.
  setoid_rewrite list_elem_of_In.
  split; intros (l & ? & ?); exists l; by split.
Qed.

Lemma hasLabel_false x pr :
  hasLabel x (labelNames pr) = false ↔ ¬ carriesLabel x pr.
Proof. rewrite <- hasLabel_spec. by destruct (hasLabel x (labelNames pr)). Qed.

Lemma derived_fields w prp ctx st :
  derivePRPState w prp ctx = Ok st →
  PRPState.branch st = listedBranch w prp
  ∧ PRPState.reviewState st = deriveReviewState <$> requestByBranch w prp
  ∧ (PRPState.prState st =
       match requestByBranch w prp, mergedByPrefix w prp with
       | Some pr, Some m =>
           if (number pr =? 0)%Z then Some "merged"
           else Some (JS.toLowerCase (state pr))
       | Some pr, None => Some (JS.toLowerCase (state pr))
       | None, Some m => Some "merged"
       | None, None => None
       end)
  ∧ (PRPState.prNumber st =
       match requestByBranch w prp, mergedByPrefix w prp with
       | Some pr, Some m =>
           if (number pr =? 0)%Z then Some (merged_number m) else Some (number pr)
       | Some pr, None => Some (number pr)
       | None, Some m => Some (merged_number m)
       | None, None => None
       end).
Proof.
  rewrite derivePRPState_closed. intros [= <-].
  unfold withMerged, withRequest.
  pose proof (withBranch_branch w prp ctx) as Hb.
  set (s0 := withBranch w prp (withEnrichment w prp ctx (initialState prp))) in *.
  assert (Hinit : PRPState.prNumber s0 = None ∧ PRPState.prState s0 = None
                  ∧ PRPState.reviewState s0 = None).
  { unfold s0, withBranch, withEnrichment.
    destruct (listedBranch w prp); destruct (existsSync w _); done. }
  destruct Hinit as (Hn & Hp & Hr).
  destruct (requestByBranch w prp) as [pr|]; simpl.
  - destruct (number pr =? 0)%Z; simpl;
      destruct (mergedByPrefix w prp); simpl; done.
  - rewrite Hn. simpl. destruct (mergedByPrefix w prp); simpl; done.
Qed.

Lemma requestByBranch_Some w prp pr :
  requestByBranch w prp = Some pr → is_Some (listedBranch w prp).
Proof. unfold requestByBranch. by destruct (listedBranch w prp). Qed.

(* ===================================================================== *)
(** ** Claims on state derivation *)
(* ===================================================================== *)

(** C6, as amended. derivePRPState never raises: it always returns a state
    for the item, with the item's own data.  A failed query counts as a
    query that found nothing, and what the other observations found is
    kept.  The enrichment check does not depend on any query.  The branch
    is the listed one.  The decision is that of the request found through
    the listed branch, and the request found there (with a number other
    than 0) is recorded whatever the merged search does; without it the
    request is what the merged search finds.  So a failed merged search
    leaves branch, request and decision as found by branch, and a failed
    request query leaves the branch set, the decision unset and the request
    to the merged search.  A failed branch listing, however, loses more
    than the branch: the request is looked up by branch, so that query is
    not issued, the decision is unset, and only the merged search can
    still record a request. *)
Theorem derivePRPState_total (w : World) (prp : MasterPRP.t) (ctx : ProjectContext) :
  let enrichedFile := JS.pathJoin (enrichedDir ctx) (MasterPRP.id prp +:+ ".md") in
  let fromMerged (st : PRPState.t) : Prop :=
    PRPState.prNumber st = merged_number <$> mergedByPrefix w prp
    ∧ PRPState.prState st
      = match mergedByPrefix w prp with Some _ => Some "merged" | None => None end in
  ∃ st, derivePRPState w prp ctx = Ok st
    ∧ PRPState.id st = MasterPRP.id prp
    ∧ PRPState.title st = MasterPRP.title prp
    ∧ PRPState.scope st = MasterPRP.scope prp
    ∧ PRPState.dependsOn st = default [] (MasterPRP.depends_on prp)
    ∧ PRPState.masterPrp st = prp
    ∧ PRPState.isEnriched st = existsSync w enrichedFile
    ∧ PRPState.enrichedFile st
      = (if existsSync w enrichedFile then Some enrichedFile else None)
    ∧ PRPState.branch st = listedBranch w prp
    ∧ PRPState.reviewState st = deriveReviewState <$> requestByBranch w prp
    ∧ (∀ pr, requestByBranch w prp = Some pr → number pr ≠ 0%Z →
         PRPState.prNumber st = Some (number pr)
         ∧ PRPState.prState st = Some (JS.toLowerCase (state pr)))
    ∧ (requestByBranch w prp = None → fromMerged st)
    ∧ ((∃ e, gitBranchRemoteList w
               ("origin/" +:+ branchPrefix (MasterPRP.id prp) +:+ "*") = ExecError e) →
       PRPState.branch st = None ∧ PRPState.reviewState st = None ∧ fromMerged st)
    ∧ (∀ b e, listedBranch w prp = Some b → ghPrListHead w b = ExecError e →
       PRPState.branch st = Some b ∧ PRPState.reviewState st = None ∧ fromMerged st)
    ∧ ((∃ e, ghPrListMerged w (branchPrefix (MasterPRP.id prp)) = ExecError e) →
       PRPState.prNumber st = number <$> requestByBranch w prp
       ∧ PRPState.prState st
         = (fun pr => JS.toLowerCase (state pr)) <$> requestByBranch w prp).
Proof.
  intros enrichedFile fromMerged.
  eexists. split; [apply derivePRPState_closed|].
  destruct (derived_fields w prp ctx _ (derivePRPState_closed w prp ctx))
    as (Hb & Hr & Hp & Hn).
  assert (Hmerged : requestByBranch w prp = None →
            fromMerged (withMerged w prp
                          (withRequest w prp
                             (withBranch w prp
                                (withEnrichment w prp ctx (initialState prp)))))).
  { intros Hnone. unfold fromMerged. rewrite Hn, Hp, Hnone.
    by destruct (mergedByPrefix w prp). }
  split_and!.
  - unfold withMerged, withRequest, withBranch, withEnrichment.
    repeat case_match; done.
  - unfold withMerged, withRequest, withBranch, withEnrichment.
    repeat case_match; done.
  - unfold withMerged, withRequest, withBranch, withEnrichment.
    repeat case_match; done.
  - unfold withMerged, withRequest, withBranch, withEnrichment.
    repeat case_match; done.
  - unfold withMerged, withRequest, withBranch, withEnrichment.
    repeat case_match; done.
  - unfold withMerged, withRequest, withBranch, withEnrichment. fold enrichedFile.
    repeat case_match; done.
  - unfold withMerged, withRequest, withBranch, withEnrichment. fold enrichedFile.
    repeat case_match; done.
  - exact Hb.
  - exact Hr.
  - intros pr Hpr Hnum. rewrite Hn, Hp, Hpr.
    apply Z.eqb_neq in Hnum. rewrite Hnum.
    by destruct (mergedByPrefix w prp).
  - exact Hmerged.
  - intros [e He].
    assert (Hl : listedBranch w prp = None) by (unfold listedBranch; by rewrite He).
    assert (Hreq : requestByBranch w prp = None)
      by (unfold requestByBranch; by rewrite Hl).
    rewrite Hb, Hr, Hl, Hreq. split_and!; [done|done|by apply Hmerged].
  - intros b e Hl He.
    assert (Hreq : requestByBranch w prp = None).
    { unfold requestByBranch. rewrite Hl, He. by destruct (JS.truthy b). }
    rewrite Hb, Hr, Hl, Hreq. split_and!; [done|done|by apply Hmerged].
  - intros [e He].
    assert (Hm : mergedByPrefix w prp = None)
      by (unfold mergedByPrefix; by rewrite He).
    rewrite Hn, Hp, Hm. by destruct (requestByBranch w prp).
Qed.

Lemma derivePRPState_total_witness :
  ∃ st, derivePRPState mergedDownWorld (exampleSpec "A" []) exampleCtx = Ok st
    ∧ PRPState.isEnriched st = true
    ∧ PRPState.branch st = Some "auto/a-item"
    ∧ PRPState.prNumber st = Some 12%Z
    ∧ PRPState.prState st = Some "open"
    ∧ PRPState.reviewState st = Some approved.
Proof.
  destruct (derivePRPState_total mergedDownWorld (exampleSpec "A" []) exampleCtx)
    as (st & Hst & _ & _ & _ & _ & _ & Henr & _ & Hb & Hr & _ & _ & _ & _ & Hdown).
  exists st. split; [exact Hst|].
  destruct Hdown as [Hn Hp]; [by eexists|].
  rewrite Henr, Hb, Hr, Hn, Hp. by vm_compute.
Defined.

(** C6, counterexample. With the branch listing down, an open and approved
    request is not seen although the query for it would answer as before:
    the derived state has no request and no decision, where the same world
    with a working listing gives request 12, open and approved.  So a failed
    branch query degrades more than the branch. *)
Lemma failed_branch_query_hides_open_request :
  ∃ st st',
    derivePRPState listingDownWorld (exampleSpec "A" []) exampleCtx = Ok st
    ∧ derivePRPState labelledWorld (exampleSpec "A" []) exampleCtx = Ok st'
    ∧ ghPrListHead listingDownWorld = ghPrListHead labelledWorld
    ∧ ghPrListMerged listingDownWorld = ghPrListMerged labelledWorld
    ∧ existsSync listingDownWorld = existsSync labelledWorld
    ∧ PRPState.prNumber st' = Some 12%Z
    ∧ PRPState.prState st' = Some "open"
    ∧ PRPState.reviewState st' = Some approved
    ∧ PRPState.branch st = None
    ∧ PRPState.prNumber st = None
    ∧ PRPState.prState st = None
    ∧ PRPState.reviewState st = None.
Proof. eexists _, _. split_and!; by vm_compute. Qed.

(** C3, as amended. A derived state whose review request was found through
    the branch has a branch: whenever a decision is recorded, or a lifecycle
    other than merged, the branch is present.  A request recorded without a
    branch comes from the secondary search alone: its lifecycle is merged,
    it has a number and no decision. *)
Theorem derived_request_has_branch_unless_merged
    (w : World) (prp : MasterPRP.t) (ctx : ProjectContext) (st : PRPState.t) :
  derivePRPState w prp ctx = Ok st →
  (is_Some (PRPState.reviewState st) → is_Some (PRPState.branch st))
  ∧ (∀ p, PRPState.prState st = Some p → p ≠ "merged" →
          is_Some (PRPState.branch st))
  ∧ (is_Some (PRPState.prNumber st) ∨ is_Some (PRPState.prState st) →
     PRPState.branch st = None →
     PRPState.prState st = Some "merged"
     ∧ is_Some (PRPState.prNumber st)
     ∧ PRPState.reviewState st = None).
Proof.
  intros (Hb & Hr & Hp & Hn)%derived_fields.
  rewrite Hb, Hr, Hp, Hn.
  destruct (requestByBranch w prp) as [pr|] eqn:Hreq.
  - apply requestByBranch_Some in Hreq as [b Hl]. rewrite Hl.
    split_and!; [by eauto|by eauto|]. by intros _ [=].
  - split_and!.
    + by intros [? [=]].
    + destruct (mergedByPrefix w prp); [|done]. by intros p [= <-] ?.
    + destruct (mergedByPrefix w prp) as [m|]; simpl.
      * by eauto.
      * by intros [[? [=]]|[? [=]]].
Qed.

Lemma derived_request_has_branch_unless_merged_witness :
  ∃ st, derivePRPState mergedWorld (exampleSpec "A" []) exampleCtx = Ok st
    ∧ PRPState.prState st = Some "merged"
    ∧ is_Some (PRPState.prNumber st)
    ∧ PRPState.reviewState st = None.
Proof.
  eexists. split; [reflexivity|].
  eapply (derived_request_has_branch_unless_merged
            mergedWorld (exampleSpec "A" []) exampleCtx).
  - reflexivity.
  - left. by eexists.
  - reflexivity.
Defined.

(** C3, counterexample. After the branch has been deleted by the merge, the
    derived state records request 7 as merged and has no branch. *)
Lemma derived_merged_request_without_branch :
  ∃ st, derivePRPState mergedWorld (exampleSpec "A" []) exampleCtx = Ok st
    ∧ PRPState.prNumber st = Some 7%Z
    ∧ PRPState.prState st = Some "merged"
    ∧ PRPState.branch st = None
    ∧ ¬ requestNeedsBranch st.
Proof.
  eexists. split; [reflexivity|]. split_and!; [reflexivity..|].
  intros Hinv. destruct Hinv as [b Hb]; [left; by eexists|]. discriminate Hb.
Qed.

Lemma ReviewState_cases (d : ReviewState) :
  d = approved ∨ d = changes_requested ∨ d = pending ∨ d = none.
Proof. destruct d; auto. Qed.

Lemma Derived_open_decided st :
  Derived st → PRPState.prState st = Some "open" →
  openWith approved st ∨ openWith changes_requested st ∨ openAwaiting st.
Proof.
  intros (w & prp & ctx & (Hb & Hr & Hp & Hn)%derived_fields) Hopen.
  assert (∃ d, PRPState.reviewState st = Some d) as [d Hd].
  { rewrite Hr. rewrite Hp in Hopen.
    destruct (requestByBranch w prp); [by eexists|].
    by destruct (mergedByPrefix w prp). }
  unfold openAwaiting, openWith. rewrite Hd.
  destruct (ReviewState_cases d) as [-> | [-> | [-> | ->]]]; auto.
Qed.

(** C9. When the query by branch finds a request, derivePRPState records
    both its lifecycle and a decision, one of approved, changes_requested,
    pending and none; a derived state whose lifecycle is open therefore has
    a decision.  Hence, over derived states, an open request always makes
    executeNextAction choose Merge, Revise or Wait, and the Enrich-or-Execute
    tier is reached only when no request is open. *)
Theorem derived_open_has_decision
    (states : list PRPState.t) (completed : option (list string)) :
  Forall Derived states →
  (∀ w prp ctx st pr,
      derivePRPState w prp ctx = Ok st → requestByBranch w prp = Some pr →
      is_Some (PRPState.prState st)
      ∧ ∃ d, PRPState.reviewState st = Some d
             ∧ (d = approved ∨ d = changes_requested ∨ d = pending ∨ d = none))
  ∧ Forall (fun st => PRPState.prState st = Some "open" →
                      is_Some (PRPState.reviewState st)) states
  ∧ (Exists (fun st => PRPState.prState st = Some "open") states →
     ∃ s, PRPState.prState s = Some "open"
          ∧ (selectNext states completed = Merge s
             ∨ selectNext states completed = Revise s
             ∨ selectNext states completed = Wait s))
  ∧ (selectNext states completed = enrichOrExecute states completed
     ∨ Exists (fun st => PRPState.prState st = Some "open") states)
  ∧ (∀ s, selectNext states completed = Enrich s
          ∨ selectNext states completed = Execute s
          ∨ selectNext states completed = NoWork →
     Forall (fun st => PRPState.prState st ≠ Some "open") states).
Proof.
  intros HD.
  assert (Hopen : Exists (fun st => PRPState.prState st = Some "open") states →
     ∃ s, PRPState.prState s = Some "open"
          ∧ (selectNext states completed = Merge s
             ∨ selectNext states completed = Revise s
             ∨ selectNext states completed = Wait s)).
  { intros (x & Hx & Ho)%Exists_exists.
    rewrite Forall_forall in HD.
    pose proof (Derived_open_decided x (HD x Hx) Ho) as Hdec.
    unfold selectNext.
    destruct (findApprovedPRP states) as [s|] eqn:H1.
    { apply findApprovedPRP_Some, FirstSuch_elem in H1 as [_ [? _]]. eauto. }
    destruct (findChangesRequestedPRP states) as [s|] eqn:H2.
    { apply findChangesRequestedPRP_Some, FirstSuch_elem in H2 as [_ [? _]]. eauto. }
    destruct (findPendingReviewPRP states) as [s|] eqn:H3.
    { apply findPendingReviewPRP_Some, FirstSuch_elem in H3 as [_ [[? _]|[? _]]];
        eauto. }
    apply findApprovedPRP_None in H1. apply findChangesRequestedPRP_None in H2.
    apply findPendingReviewPRP_None in H3.
    rewrite Forall_forall in H1, H2, H3.
    destruct Hdec as [?|[?|?]]; [destruct (H1 x)|destruct (H2 x)|destruct (H3 x)];
      done. }
  split_and!.
  - intros w prp ctx st pr (Hb & Hr & Hp & Hn)%derived_fields Hreq.
    rewrite Hr, Hp, Hreq. split.
    + destruct (mergedByPrefix w prp); [destruct (number pr =? 0)%Z|]; by eexists.
    + eexists. split; [done|]. apply ReviewState_cases.
  - rewrite Forall_forall in *. intros st Hin Ho.
    destruct (Derived_open_decided st (HD st Hin) Ho) as [[_ H]|[[_ H]|[[_ H]|[_ H]]]];
      rewrite H; by eexists.
  - exact Hopen.
  - destruct (findApprovedPRP states) as [s|] eqn:H1.
    { right. apply findApprovedPRP_Some, FirstSuch_elem in H1 as [Hin [? _]].
      apply Exists_exists. by exists s. }
    destruct (findChangesRequestedPRP states) as [s|] eqn:H2.
    { right. apply findChangesRequestedPRP_Some, FirstSuch_elem in H2 as [Hin [? _]].
      apply Exists_exists. by exists s. }
    destruct (findPendingReviewPRP states) as [s|] eqn:H3.
    { right. apply findPendingReviewPRP_Some, FirstSuch_elem in H3 as [Hin Haw].
      apply Exists_exists. exists s.
      split; [done|]. by destruct Haw as [[? _]|[? _]]. }
    left. by apply selectNext_last_tier.
  - intros s Hsel. apply Forall_forall. intros x Hx Ho.
    destruct Hopen as (s' & _ & Hs').
    { apply Exists_exists. by exists x. }
    destruct Hsel as [H|[H|H]]; rewrite H in Hs'; by destruct Hs' as [?|[?|?]].
Qed.

Lemma derived_open_has_decision_witness :
  ∃ st, derivePRPState labelledWorld (exampleSpec "A" []) exampleCtx = Ok st
    ∧ ∃ s, PRPState.prState s = Some "open"
           ∧ (selectNext [st] None = Merge s
              ∨ selectNext [st] None = Revise s
              ∨ selectNext [st] None = Wait s).
Proof.
  eexists. split; [reflexivity|].
  refine (proj1 (proj2 (proj2 (derived_open_has_decision _ None _))) _).
  - constructor; [|constructor].
    exists labelledWorld, (exampleSpec "A" []), exampleCtx. reflexivity.
  - apply Exists_cons_hd. reflexivity.
Defined.

Lemma deriveReviewState_no_label pr :
  ¬ carriesLabel "approved" pr → ¬ carriesLabel "lgtm" pr →
  ¬ carriesLabel "changes-requested" pr → ¬ carriesLabel "needs-changes" pr →
  deriveReviewState pr =
    if bool_decide (platformDecision pr = Some "APPROVED") then approved
    else if bool_decide (platformDecision pr = Some "CHANGES_REQUESTED")
    then changes_requested
    else if bool_decide (platformDecision pr = Some "REVIEW_REQUIRED") then pending
    else none.
Proof.
  intros H1%hasLabel_false H2%hasLabel_false H3%hasLabel_false H4%hasLabel_false.
  unfold deriveReviewState. by rewrite H1, H2, H3, H4.
Qed.

(** C4. In the decision of an open request a decision-bearing label takes
    precedence over the platform's review decision.  A label approved or
    lgtm, in any letter case, gives approved; otherwise a label
    changes-requested or needs-changes gives changes_requested; only without
    any such label does the platform decision count: APPROVED gives approved,
    CHANGES_REQUESTED changes_requested, REVIEW_REQUIRED pending, anything
    else (or no decision) none.  So a request found open by its branch that
    carries the label approved while the platform says CHANGES_REQUESTED is
    derived as open and approved, and the selection over any states holding
    it is a Merge, of that very item when it comes first, and never a
    Revise. *)
Theorem label_precedes_platform_decision (pr : PrJson) :
  (carriesLabel "approved" pr ∨ carriesLabel "lgtm" pr →
   deriveReviewState pr = approved)
  ∧ (¬ carriesLabel "approved" pr → ¬ carriesLabel "lgtm" pr →
     carriesLabel "changes-requested" pr ∨ carriesLabel "needs-changes" pr →
     deriveReviewState pr = changes_requested)
  ∧ (¬ carriesLabel "approved" pr → ¬ carriesLabel "lgtm" pr →
     ¬ carriesLabel "changes-requested" pr → ¬ carriesLabel "needs-changes" pr →
     (platformDecision pr = Some "APPROVED" → deriveReviewState pr = approved)
     ∧ (platformDecision pr = Some "CHANGES_REQUESTED" →
        deriveReviewState pr = changes_requested)
     ∧ (platformDecision pr = Some "REVIEW_REQUIRED" →
        deriveReviewState pr = pending)
     ∧ (platformDecision pr ≠ Some "APPROVED" →
        platformDecision pr ≠ Some "CHANGES_REQUESTED" →
        platformDecision pr ≠ Some "REVIEW_REQUIRED" →
        deriveReviewState pr = none))
  ∧ (∀ w prp ctx,
       requestByBranch w prp = Some pr → number pr ≠ 0%Z →
       JS.toLowerCase (state pr) = "open" →
       carriesLabel "approved" pr →
       platformDecision pr = Some "CHANGES_REQUESTED" →
       ∃ st, derivePRPState w prp ctx = Ok st
         ∧ openWith approved st
         ∧ (∀ completed, selectNext [st] completed = Merge st)
         ∧ ∀ states completed, st ∈ states →
             (∃ s, selectNext states completed = Merge s)
             ∧ ∀ s, selectNext states completed ≠ Revise s).
Proof.
  split_and!.
  - intros Hl. unfold deriveReviewState.
    destruct Hl as [->%hasLabel_spec| ->%hasLabel_spec]; [done|].
    by rewrite orb_true_r.
  - intros H1%hasLabel_false H2%hasLabel_false Hl. unfold deriveReviewState.
    rewrite H1, H2. simpl.
    destruct Hl as [->%hasLabel_spec| ->%hasLabel_spec]; [done|].
    by rewrite orb_true_r.
  - intros H1 H2 H3 H4. rewrite (deriveReviewState_no_label pr H1 H2 H3 H4).
    split_and!.
    + intros ->. done.
    + intros ->. done.
    + intros ->. done.
    + intros ???. by repeat case_bool_decide.
  - intros w prp ctx Hreq Hnum Hopen Hlabel _.
    eexists. split; [apply derivePRPState_closed|].
    destruct (derived_fields w prp ctx _ (derivePRPState_closed w prp ctx))
      as (_ & Hr & Hp & _).
    set (st := withMerged _ _ _) in *.
    assert (Hst : openWith approved st).
    { split.
      - rewrite Hp, Hreq. apply Z.eqb_neq in Hnum. rewrite Hnum, Hopen.
        by destruct (mergedByPrefix w prp).
      - rewrite Hr, Hreq. simpl. f_equal. unfold deriveReviewState.
        apply hasLabel_spec in Hlabel. by rewrite Hlabel. }
    split; [done|].
    assert (Hany : ∀ states completed, st ∈ states →
              ∃ s, selectNext states completed = Merge s).
    { intros states completed Hin.
      destruct (findApprovedPRP states) as [s|] eqn:Hf.
      - exists s. unfold selectNext. by rewrite Hf.
      - apply findApprovedPRP_None in Hf. rewrite Forall_forall in Hf.
        by destruct (Hf st Hin). }
    split.
    + intros completed. unfold selectNext, findApprovedPRP. simpl.
      apply approved_test_spec in Hst. by rewrite Hst.
    + intros states completed Hin.
      destruct (Hany states completed Hin) as [s Hs].
      split; [by exists s|]. intros s'. by rewrite Hs.
Qed.

Lemma label_precedes_platform_decision_witness :
  ∃ st, derivePRPState labelledWorld (exampleSpec "A" []) exampleCtx = Ok st
    ∧ openWith approved st
    ∧ (∀ completed, selectNext [st] completed = Merge st)
    ∧ ∀ states completed, st ∈ states →
        (∃ s, selectNext states completed = Merge s)
        ∧ ∀ s, selectNext states completed ≠ Revise s.
Proof.
  refine (proj2 (proj2 (proj2 (label_precedes_platform_decision labelledRequest)))
            labelledWorld (exampleSpec "A" []) exampleCtx _ _ _ _ _).
  - reflexivity.
  - discriminate.
  - reflexivity.
  - exists {| name := "Approved" |}. split; [|reflexivity].
    apply list_elem_of_further, list_elem_of_here.
  - reflexivity.
Defined.

(* ===================================================================== *)
(** ** Claims on the lock *)
(* ===================================================================== *)

(** C7. acquireLock returns false exactly when the marker exists and is
    younger than 45 minutes, and then nothing is changed.  A marker of 45
    minutes or more is first removed, then a fresh marker holding the pid
    and the acquisition time is written, and the result is true.  Without a
    marker the fresh marker is written and the result is true. *)
Theorem acquireLock_semantics
    (pid now1 now2 : Z) (lock : string) (sys : Sys) :
  let r := acquireLock pid now1 now2 lock sys in
  (r.1 = false ↔
     ∃ f, files sys !! lock = Some f ∧ (now1 - mtimeMs f < 45 * 60 * 1000)%Z)
  ∧ (r.1 = false → r.2 = sys)
  ∧ (∀ f, files sys !! lock = Some f → (45 * 60 * 1000 ≤ now1 - mtimeMs f)%Z →
       r.1 = true
       ∧ fsOps r.2 = fsOps sys ++ [Unlink lock; WriteFile lock (lockContent pid now2)]
       ∧ files r.2 = <[ lock := freshMarker pid now2 ]> (delete lock (files sys))
       ∧ lock ∈ activeLocks r.2)
  ∧ (files sys !! lock = None →
       r.1 = true
       ∧ fsOps r.2 = fsOps sys ++ [WriteFile lock (lockContent pid now2)]
       ∧ files r.2 = <[ lock := freshMarker pid now2 ]> (files sys)
       ∧ lock ∈ activeLocks r.2)
  ∧ (r.1 = true →
       files r.2 !! lock = Some (freshMarker pid now2)
       ∧ ∀ other, other ≠ lock → files r.2 !! other = files sys !! other).
Proof.
  unfold acquireLock, maxAge. simpl.
  destruct (files sys !! lock) as [f|] eqn:Hf.
  - destruct (Z.ltb_spec (now1 - mtimeMs f) (45 * 60 * 1000)) as [Hlt|Hge]; simpl.
    + split_and!.
      * split; [by eauto|done].
      * done.
      * intros f' [= <-] ?. lia.
      * done.
      * done.
    + split_and!.
      * split; [done|]. intros (f' & [= <-] & ?). lia.
      * done.
      * intros f' _ _. split_and!; [done| |done|set_solver].
        by rewrite <- app_assoc.
      * done.
      * intros _. split; [apply lookup_insert_eq|].
        intros other Hne. rewrite lookup_insert_ne by done.
        by rewrite lookup_delete_ne.
  - simpl. split_and!.
    + split; [done|]. by intros (f' & [=] & _).
    + done.
    + done.
    + intros _. split_and!; [done..|set_solver].
    + intros _. split; [apply lookup_insert_eq|].
      intros other Hne. by rewrite lookup_insert_ne.
Qed.

Lemma acquireLock_semantics_witness :
  (* a second acquire one minute later fails and changes nothing *)
  (acquireLock 4712 61000 61001 "/work/demo/.prp-lock" lockedSys).2 = lockedSys
  (* after 45 minutes the stale marker is removed, then the new one written *)
  ∧ fsOps (acquireLock 4712 2701000 2701001 "/work/demo/.prp-lock" lockedSys).2
    = [Unlink "/work/demo/.prp-lock";
       WriteFile "/work/demo/.prp-lock" "4712:2701001"].
Proof.
  split.
  - apply (acquireLock_semantics 4712 61000 61001 "/work/demo/.prp-lock" lockedSys).
    reflexivity.
  - refine (proj1 (proj2 (proj1 (proj2 (proj2
       (acquireLock_semantics 4712 2701000 2701001 "/work/demo/.prp-lock" lockedSys)))
       {| content := "4711:1000"; mtimeMs := 1000 |} _ _))).
    + reflexivity.
    + simpl. lia.
Defined.

(* ===================================================================== *)
(** ** Strings *)
(* ===================================================================== *)

Lemma string_app_assoc (a b c : string) : (a +:+ b) +:+ c = a +:+ (b +:+ c).
Proof.
  unfold String.app. induction a as [|x a IH]; simpl; [done|]. by rewrite IH.
Qed.

Lemma startsWith_app (p s : string) : JS.startsWith p (p +:+ s) = true.
Proof.
  unfold JS.startsWith, String.app. induction p as [|x p IH]; simpl.
  - by destruct s.
  - destruct (Ascii.ascii_dec x x); [exact IH|done].
Qed.

Lemma trim_nonspace_nonempty (c : ascii) (s : string) :
  JS.isWhiteSpace c = false → JS.trim (String c s) ≠ "".
Proof.
  intros Hc. unfold JS.trim. simpl. rewrite Hc. simpl. rewrite Hc.
  by destruct (JS.trimEnd s).
Qed.

Lemma truthy_spec (s : string) : JS.truthy s = false ↔ s = "".
Proof. by destruct s. Qed.

(** The collected feedback trims to nothing exactly when its three parts
    are empty: every non-empty part is put under a heading. *)
Lemma allFeedback_trim_empty (rf ic pc : string) :
  JS.truthy (JS.trim (allFeedback rf ic pc)) = false
  ↔ rf = "" ∧ ic = "" ∧ pc = "".
Proof.
  split.
  - intros Htrim%truthy_spec.
    assert (Hhead : (rf = "" ∧ ic = "" ∧ pc = "")
                    ∨ ∃ r, allFeedback rf ic pc = String "#" r).
    { unfold allFeedback.
      destruct rf as [|a rf]; destruct ic as [|b ic]; destruct pc as [|c pc];
        simpl; auto; right; by eexists. }
    destruct Hhead as [?|[r Hr]]; [done|].
    rewrite Hr in Htrim. by apply trim_nonspace_nonempty in Htrim.
  - by intros (-> & -> & ->).
Qed.

(* ===================================================================== *)
(** ** Claims on the Revise workflow *)
(* ===================================================================== *)

Lemma execCmd_silent env c t :
  execCmd env c true t = (Ok (silentOutput env t c), t ++ [Exec c]).
Proof.
  unfold execCmd, silentOutput, exec. by destruct (run env t c).
Qed.

Lemma configureGitBot_run env t :
  ∃ cfg, configureGitBot env t = (Ok tt, t ++ cfg)
    ∧ Forall (fun e => isIdentityConfig e = true) cfg
    ∧ (botCredentials env = None → cfg = []).
Proof.
  unfold configureGitBot. destruct (botCredentials env) as [bot|].
  - unfold bind, tryCatch, when. rewrite !execCmd_silent.
    destruct (JS.includes "github.com" _ && negb (JS.includes "@" _)).
    + unfold bind. rewrite execCmd_silent. simpl.
      eexists. rewrite <- !app_assoc. split; [reflexivity|].
      split; [|done]. by repeat constructor.
    + simpl. eexists. rewrite <- !app_assoc. split; [reflexivity|].
      split; [|done]. by repeat constructor.
  - exists []. by rewrite app_nil_r.
Qed.

Lemma identityConfig_touches (e : Effect) :
  isIdentityConfig e = true → e = Exec GitRemoteGetUrl ∨ touchesRepository e = true.
Proof. destruct e as [[]| | | |]; simpl; auto; discriminate. Qed.





(** With feedback the workflow goes on: after the same queries it fetches,
    checks the branch out, writes the feedback file and starts the agent. *)
Example runRevision_with_feedback_proceeds :
  ∃ doc prompt rest,
    runRevision feedbackEnv openState exampleCtx [] =
      (Ok tt,
       [Log "info" "Running revision for PR #1...";
        Exec (GhPrView "1"); Exec (GhApiPullComments "1");
        Exec GitFetchOrigin; Exec (GitCheckout "auto/a-item");
        Exec (GitPullOrigin "auto/a-item");
        FsWrite "/work/demo/.prp-revision-feedback.md" doc;
        Log "info" "Running Claude Code for revision...";
        RunClaude prompt "/work/demo" 900000;
        FsUnlink "/work/demo/.prp-revision-feedback.md"] ++ rest).
Proof. do 3 eexists. vm_compute. reflexivity. Qed.

(* ===================================================================== *)
(** ** Claims on the branch of the Execute workflow *)
(* ===================================================================== *)


Lemma execCmd_trace env c silent t r t' :
  execCmd env c silent t = (r, t') → t' = t ++ [Exec c].
Proof. unfold execCmd. by intros [= _ <-]. Qed.




(* ===================================================================== *)
(** ** Further properties: the lock registry *)
(* ===================================================================== *)

Lemma Sys_eq (a b : Sys) :
  files a = files b → activeLocks a = activeLocks b → fsOps a = fsOps b → a = b.
Proof. destruct a, b; simpl; by intros -> -> ->. Qed.

Lemma releaseLock_gone (lock : string) (sys : Sys) :
  files (releaseLock lock sys) !! lock = None.
Proof.
  unfold releaseLock. destruct (files sys !! lock) eqn:Hf; simpl; [|done].
  apply lookup_delete_eq.
Qed.

Lemma releaseLock_unregisters (lock : string) (sys : Sys) :
  lock ∉ activeLocks (releaseLock lock sys).
Proof. unfold releaseLock. destruct (files sys !! lock); simpl; set_solver. Qed.

Lemma releaseLock_others (lock other : string) (sys : Sys) :
  other ≠ lock →
  files (releaseLock lock sys) !! other = files sys !! other
  ∧ ((other ∈ activeLocks (releaseLock lock sys)) ↔ (other ∈ activeLocks sys)).
Proof.
  intros Hne. unfold releaseLock.
  destruct (files sys !! lock); simpl.
  - rewrite lookup_delete_ne by done. split; [done|set_solver].
  - split; [done|set_solver].
Qed.

(** X1. releaseLock removes the marker and the registration of that lock and
    of no other; when the marker is already absent it performs no file
    operation; releasing again changes nothing. *)
Theorem releaseLock_idempotent (lock : string) (sys : Sys) :
  let sys' := releaseLock lock sys in
  files sys' !! lock = None
  ∧ (lock ∉ activeLocks sys')
  ∧ (∀ other, other ≠ lock →
       files sys' !! other = files sys !! other
       ∧ ((other ∈ activeLocks sys') ↔ (other ∈ activeLocks sys)))
  ∧ (files sys !! lock = None → fsOps sys' = fsOps sys)
  ∧ releaseLock lock sys' = sys'.
Proof.
  simpl. split_and!.
  - apply releaseLock_gone.
  - apply releaseLock_unregisters.
  - intros other Hne. by apply releaseLock_others.
  - intros Hnone. unfold releaseLock. by rewrite Hnone.
  - unfold releaseLock at 1. rewrite releaseLock_gone.
    apply Sys_eq; simpl; [done| |done].
    unfold releaseLock. destruct (files sys !! lock); simpl; set_solver.
Qed.

Lemma releaseLock_idempotent_witness :
  fsOps (releaseLock "/work/demo/.prp-lock" (releaseLock "/work/demo/.prp-lock" lockedSys))
  = fsOps (releaseLock "/work/demo/.prp-lock" lockedSys).
Proof.
  destruct (releaseLock_idempotent "/work/demo/.prp-lock"
              (releaseLock "/work/demo/.prp-lock" lockedSys))
    as (_ & _ & _ & Hops & _).
  apply Hops. reflexivity.
Defined.

(** X2. Once acquireLock has succeeded, a further acquire of the same lock
    fails and changes nothing for as long as less than 45 minutes have passed
    since the marker was stamped; from 45 minutes on it succeeds again, and
    it succeeds at any time after releaseLock. *)
Theorem acquireLock_excludes_until_stale_or_released
    (pid now1 now2 pid' now1' now2' : Z) (lock : string) (sys : Sys) :
  (acquireLock pid now1 now2 lock sys).1 = true →
  let held := (acquireLock pid now1 now2 lock sys).2 in
  ((now1' - now2 < 45 * 60 * 1000)%Z →
     acquireLock pid' now1' now2' lock held = (false, held))
  ∧ ((45 * 60 * 1000 ≤ now1' - now2)%Z →
     (acquireLock pid' now1' now2' lock held).1 = true)
  ∧ (acquireLock pid' now1' now2' lock (releaseLock lock held)).1 = true.
Proof.
  intros Hok held.
  assert (Hmarker : files held !! lock = Some (freshMarker pid now2)).
  { unfold held, acquireLock in *.
    destruct (files sys !! lock) as [f|]; simpl in *.
    - destruct (now1 - mtimeMs f <? maxAge)%Z; [done|]. apply lookup_insert_eq.
    - apply lookup_insert_eq. }
  split_and!.
  - intros Hlive. unfold acquireLock at 1. rewrite Hmarker. simpl.
    destruct (Z.ltb_spec (now1' - now2) maxAge) as [?|Hge]; [done|].
    unfold maxAge in Hge. lia.
  - intros Hstale. unfold acquireLock at 1. rewrite Hmarker. simpl.
    destruct (Z.ltb_spec (now1' - now2) maxAge) as [Hlt|?]; [|done].
    unfold maxAge in Hlt. lia.
  - pose proof (releaseLock_gone lock held) as Hgone.
    unfold acquireLock. by rewrite Hgone.
Qed.

Lemma acquireLock_excludes_until_stale_or_released_witness :
  let held := (acquireLock 4711 0 1 "/work/demo/.prp-lock"
                 {| files := ∅; activeLocks := ∅; fsOps := [] |}).2 in
  acquireLock 4712 60000 60001 "/work/demo/.prp-lock" held = (false, held).
Proof.
  intros held.
  apply (acquireLock_excludes_until_stale_or_released
           4711 0 1 4712 60000 60001 "/work/demo/.prp-lock"
           {| files := ∅; activeLocks := ∅; fsOps := [] |}).
  - reflexivity.
  - lia.
Defined.

Lemma sweep_files (ls : list string) (sys : Sys) (x : string) :
  files (foldr (fun lockFile acc =>
                  match files acc !! lockFile with
                  | Some _ => unlinkSync lockFile acc
                  | None => acc
                  end) sys ls) !! x
  = if bool_decide (x ∈ ls) then None else files sys !! x.
Proof.
  induction ls as [|l ls IH]; simpl; [done|].
  set (acc := foldr _ sys ls) in *.
  destruct (decide (x = l)) as [->|Hne].
  - rewrite bool_decide_eq_true_2 by set_solver.
    destruct (files acc !! l) eqn:Hl; simpl; [apply lookup_delete_eq|done].
  - assert (Hstep : files (match files acc !! l with
                           | Some _ => unlinkSync l acc
                           | None => acc
                           end) !! x = files acc !! x).
    { destruct (files acc !! l); simpl; [by rewrite lookup_delete_ne|done]. }
    rewrite Hstep, IH. repeat case_bool_decide; set_solver.
Qed.

(** X3. cleanupAllLocks leaves no marker of a registered lock behind,
    touches no other file and empties the registry. *)
Theorem cleanupAllLocks_sweeps_registered (sys : Sys) :
  let sys' := cleanupAllLocks sys in
  activeLocks sys' = ∅
  ∧ getActiveLocks sys' = []
  ∧ (∀ l, l ∈ activeLocks sys → files sys' !! l = None)
  ∧ (∀ other, other ∉ activeLocks sys → files sys' !! other = files sys !! other).
Proof.
  simpl. split_and!.
  - done.
  - unfold getActiveLocks. simpl. apply elements_empty.
  - intros l Hl. unfold cleanupAllLocks. simpl. rewrite sweep_files.
    rewrite bool_decide_eq_true_2; [done|]. by apply elem_of_elements.
  - intros other Hother. unfold cleanupAllLocks. simpl. rewrite sweep_files.
    rewrite bool_decide_eq_false_2; [done|]. by rewrite elem_of_elements.
Qed.

Lemma cleanupAllLocks_sweeps_registered_witness :
  let held := (acquireLock 4711 0 1 "/work/demo/.prp-lock" otherFileSys).2 in
  "/work/demo/.prp-lock" ∈ activeLocks held
  ∧ is_Some (files held !! "/work/demo/.prp-lock")
  ∧ files (cleanupAllLocks held) !! "/work/demo/.prp-lock" = None
  ∧ files (cleanupAllLocks held) !! "/work/other/notes.txt"
    = files held !! "/work/other/notes.txt".
Proof.
  intros held.
  assert (Hin : "/work/demo/.prp-lock" ∈ activeLocks held).
  { unfold held, acquireLock, otherFileSys. cbn.
    rewrite lookup_singleton_ne by done. cbn.
    apply elem_of_union_l, elem_of_singleton. reflexivity. }
  assert (Hout : "/work/other/notes.txt" ∉ activeLocks held).
  { unfold held, acquireLock, otherFileSys. cbn.
    rewrite lookup_singleton_ne by done. cbn.
    rewrite elem_of_union, elem_of_singleton, elem_of_empty. by intros [|]. }
  destruct (cleanupAllLocks_sweeps_registered held) as (_ & _ & Hswept & Hkept).
  split_and!; [exact Hin| |exact (Hswept _ Hin)|exact (Hkept _ Hout)].
  unfold held, acquireLock, otherFileSys. cbn.
  rewrite lookup_singleton_ne by done. cbn.
  rewrite lookup_insert_eq. by eexists.
Defined.

(** X4. The three lock operations keep the registry consistent with the
    disk: if every registered lock has its marker before acquireLock,
    releaseLock or cleanupAllLocks, the same holds afterwards. *)
Theorem lock_operations_keep_registry_consistent
    (pid now1 now2 : Z) (lock : string) (sys : Sys) :
  registeredLocksExist sys →
  registeredLocksExist (acquireLock pid now1 now2 lock sys).2
  ∧ registeredLocksExist (releaseLock lock sys)
  ∧ registeredLocksExist (cleanupAllLocks sys).
Proof.
  intros Hinv. split_and!.
  - unfold acquireLock.
    destruct (files sys !! lock) as [f|] eqn:Hf; simpl.
    + destruct (now1 - mtimeMs f <? maxAge)%Z; simpl; [done|].
      intros l [->%elem_of_singleton|Hl]%elem_of_union; simpl.
      * rewrite lookup_insert_eq. by eexists.
      * destruct (decide (l = lock)) as [->|Hne].
        -- rewrite lookup_insert_eq. by eexists.
        -- rewrite lookup_insert_ne, lookup_delete_ne by done. by apply Hinv.
    + intros l [->%elem_of_singleton|Hl]%elem_of_union; simpl.
      * rewrite lookup_insert_eq. by eexists.
      * destruct (decide (l = lock)) as [->|Hne].
        -- rewrite lookup_insert_eq. by eexists.
        -- rewrite lookup_insert_ne by done. by apply Hinv.
  - intros l Hl.
    destruct (decide (l = lock)) as [->|Hne];
      [by apply releaseLock_unregisters in Hl|].
    destruct (releaseLock_others lock l sys Hne) as [-> Hreg]. by apply Hinv, Hreg.
  - intros l Hl. unfold cleanupAllLocks in Hl. simpl in Hl. set_solver.
Qed.

Lemma lock_operations_keep_registry_consistent_witness :
  registeredLocksExist (acquireLock 4712 2701000 2701001 "/work/demo/.prp-lock" lockedSys).2.
Proof.
  apply (lock_operations_keep_registry_consistent
           4712 2701000 2701001 "/work/demo/.prp-lock" lockedSys).
  intros l Hl. vm_compute in Hl. set_solver.
Defined.

(* ===================================================================== *)
(** ** Further properties: derivation and selection *)
(* ===================================================================== *)

Lemma derivePRPState_returns w prp ctx :
  ∃ st, derivePRPState w prp ctx = Ok st
    ∧ PRPState.id st = MasterPRP.id prp ∧ PRPState.masterPrp st = prp.
Proof.
  eexists. split; [apply derivePRPState_closed|].
  unfold withMerged, withRequest, withBranch, withEnrichment.
  split; repeat case_match; done.
Qed.

(** X5. deriveAllStates never fails and returns one state per declared
    item, in declaration order: the i-th state is what derivePRPState gives
    for the i-th item and carries its id and its declaration. *)
Theorem deriveAllStates_follows_plan_order
    (w : World) (master : MasterPlan) (ctx : ProjectContext) :
  ∃ states,
    deriveAllStates w master ctx = Ok states
    ∧ Forall2 (fun prp st => derivePRPState w prp ctx = Ok st
                             ∧ PRPState.id st = MasterPRP.id prp
                             ∧ PRPState.masterPrp st = prp)
              (prps master) states
    ∧ List.map PRPState.id states = List.map MasterPRP.id (prps master).
Proof.
  unfold deriveAllStates. induction (prps master) as [|prp l IH]; simpl.
  - exists []. split_and!; [done|constructor|done].
  - destruct (derivePRPState_returns w prp ctx) as (st & Hst & Hid & Hprp).
    destruct IH as (sts & Hsts & Hall & Hids).
    exists (st :: sts). rewrite Hst, Hsts. split_and!; [done| |].
    + by constructor.
    + simpl. by rewrite Hid, Hids.
Qed.

(** X6. A complete plan offers nothing to do: when isComplete holds, no
    finder matches and the selection is NoWork, whatever the completed
    list. *)
Theorem complete_plan_selects_nothing
    (states : list PRPState.t) (completed : option (list string)) :
  isComplete states = true →
  findApprovedPRP states = None
  ∧ findChangesRequestedPRP states = None
  ∧ findPendingReviewPRP states = None
  ∧ findNextPRP states completed = None
  ∧ selectNext states completed = NoWork.
Proof.
  intros Hall%isComplete_Forall. rewrite Forall_forall in Hall.
  assert (H1 : findApprovedPRP states = None).
  { apply findApprovedPRP_None, Forall_forall. intros s Hs [Ho _].
    rewrite (Hall s Hs) in Ho. discriminate. }
  assert (H2 : findChangesRequestedPRP states = None).
  { apply findChangesRequestedPRP_None, Forall_forall. intros s Hs [Ho _].
    rewrite (Hall s Hs) in Ho. discriminate. }
  assert (H3 : findPendingReviewPRP states = None).
  { apply findPendingReviewPRP_None, Forall_forall. intros s Hs [[Ho _]|[Ho _]];
      rewrite (Hall s Hs) in Ho; discriminate. }
  assert (H4 : findNextPRP states completed = None).
  { destruct (findNextPRP states completed) as [s|] eqn:Hf; [|done].
    apply findNextPRP_ready in Hf as (Hin & Hnm & _). by destruct Hnm, (Hall s Hin). }
  split_and!; [done..|].
  unfold selectNext. by rewrite H1, H2, H3, H4.
Qed.

Lemma complete_plan_selects_nothing_witness :
  selectNext mergedStates (Some ["z"]) = NoWork.
Proof.
  apply (complete_plan_selects_nothing mergedStates (Some ["z"])). reflexivity.
Defined.

(* ===================================================================== *)
(** ** Further properties: the branch slug *)
(* ===================================================================== *)

Lemma allChars_hyphenateRuns (b : bool) (s : string) :
  allChars isSlugChar (JS.hyphenateRuns b s) = true.
Proof.
  revert b. induction s as [|c s IH]; intros b; simpl; [done|].
  destruct (JS.isLowerAlnum c) eqn:Hc; simpl.
  - unfold isSlugChar at 1. by rewrite Hc, IH.
  - destruct b; simpl; [apply IH|]. by rewrite IH.
Qed.

Lemma dropLastHyphen_cons (c d : ascii) (s : string) :
  JS.dropLastHyphen (String c (String d s)) = String c (JS.dropLastHyphen (String d s)).
Proof. reflexivity. Qed.

Lemma allChars_dropLastHyphen (p : ascii -> bool) (s : string) :
  allChars p s = true → allChars p (JS.dropLastHyphen s) = true.
Proof.
  induction s as [|c s IH]; [done|].
  intros [Hc Hs]%andb_true_iff. destruct s as [|d s'].
  - simpl. destruct (Ascii.eqb c "-"); simpl; [done|by rewrite Hc].
  - rewrite dropLastHyphen_cons.
    change (p c && allChars p (JS.dropLastHyphen (String d s')) = true).
    by rewrite Hc, IH.
Qed.

Lemma allChars_stripEdgeHyphens (p : ascii -> bool) (s : string) :
  allChars p s = true → allChars p (JS.stripEdgeHyphens s) = true.
Proof.
  destruct s as [|c s]; [done|]. intros H. unfold JS.stripEdgeHyphens.
  destruct (Ascii.eqb c "-").
  - apply allChars_dropLastHyphen. simpl in H. by apply andb_true_iff in H as [_ ?].
  - by apply allChars_dropLastHyphen.
Qed.

Lemma allChars_slice0 (p : ascii -> bool) (n : nat) (s : string) :
  allChars p s = true → allChars p (JS.slice0 n s) = true.
Proof.
  unfold JS.slice0. revert n. induction s as [|c s IH]; intros n; simpl.
  - by destruct n.
  - intros [Hc Hs]%andb_true_iff. destruct n; simpl; [done|].
    by rewrite Hc, IH.
Qed.

Lemma length_slice0 (n : nat) (s : string) : String.length (JS.slice0 n s) ≤ n.
Proof.
  unfold JS.slice0. revert n. induction s as [|c s IH]; intros n; simpl.
  - destruct n; simpl; lia.
  - destruct n; simpl; [lia|]. specialize (IH n). lia.
Qed.

Lemma startsWith_hyphen_cons (c : ascii) (s : string) :
  JS.startsWith "-" (String c s) = Ascii.eqb c "-".
Proof.
  unfold JS.startsWith. cbn -[Ascii.ascii_dec].
  destruct (Ascii.ascii_dec "-" c) as [<-|Hne].
  - by destruct s.
  - symmetry. apply Ascii.eqb_neq. congruence.
Qed.

Lemma hyphenateRuns_shape (s : string) :
  noDoubleHyphen (JS.hyphenateRuns false s) = true
  ∧ noDoubleHyphen (JS.hyphenateRuns true s) = true
  ∧ JS.startsWith "-" (JS.hyphenateRuns true s) = false.
Proof.
  induction s as [|c s (IHf & IHt & IHs)]; [done|].
  cbn [JS.hyphenateRuns].
  destruct (JS.isLowerAlnum c) eqn:Hc.
  - assert (Hne : Ascii.eqb c "-" = false).
    { apply Ascii.eqb_neq. intros ->. discriminate Hc. }
    assert (Hnd : noDoubleHyphen (String c (JS.hyphenateRuns false s)) = true).
    { cbn [noDoubleHyphen]. destruct (JS.hyphenateRuns false s); [done|].
      by rewrite Hne, IHf. }
    split_and!; [done..|]. by rewrite startsWith_hyphen_cons.
  - split_and!; [|done..].
    cbn [noDoubleHyphen]. destruct (JS.hyphenateRuns true s) as [|d r] eqn:Hr; [done|].
    rewrite IHt, andb_true_r. rewrite startsWith_hyphen_cons in IHs.
    by rewrite IHs, andb_false_r.
Qed.

Lemma startsWith_hyphen_dropLastHyphen (s : string) :
  JS.startsWith "-" s = false → JS.startsWith "-" (JS.dropLastHyphen s) = false.
Proof.
  destruct s as [|c s]; [done|]. rewrite startsWith_hyphen_cons. intros Hc.
  destruct s as [|d s'].
  - cbn [JS.dropLastHyphen]. rewrite Hc. by rewrite startsWith_hyphen_cons.
  - rewrite dropLastHyphen_cons. by rewrite startsWith_hyphen_cons.
Qed.

Lemma startsWith_hyphen_slice0 (n : nat) (s : string) :
  JS.startsWith "-" s = false → JS.startsWith "-" (JS.slice0 n s) = false.
Proof.
  destruct s as [|c s]; [by destruct n|]. rewrite startsWith_hyphen_cons. intros Hc.
  destruct n; [done|]. unfold JS.slice0. cbn [String.substring].
  by rewrite startsWith_hyphen_cons.
Qed.

(** X7. The slug of a title has at most 30 characters, consists of
    lower-case letters, digits and hyphens only, and never starts with a
    hyphen. *)
Theorem branchSlug_is_bounded_and_clean (title : string) :
  String.length (branchSlug title) ≤ 30
  ∧ allChars isSlugChar (branchSlug title) = true
  ∧ JS.startsWith "-" (branchSlug title) = false.
Proof.
  unfold branchSlug. split_and!.
  - apply length_slice0.
  - apply allChars_slice0, allChars_stripEdgeHyphens, allChars_hyphenateRuns.
  - apply startsWith_hyphen_slice0.
    destruct (hyphenateRuns_shape (JS.toLowerCase title)) as (Hnd & _ & _).
    destruct (JS.hyphenateRuns false (JS.toLowerCase title)) as [|c r] eqn:Hr; [done|].
    unfold JS.stripEdgeHyphens.
    destruct (Ascii.eqb c "-") eqn:Hc.
    + apply startsWith_hyphen_dropLastHyphen.
      destruct r as [|d r']; [done|]. cbn [noDoubleHyphen] in Hnd.
      rewrite Hc in Hnd. rewrite startsWith_hyphen_cons.
      apply andb_true_iff in Hnd as [Hd _]. by apply negb_true_iff in Hd.
    + apply startsWith_hyphen_dropLastHyphen. by rewrite startsWith_hyphen_cons.
Qed.

(* ===================================================================== *)
(** ** Further properties: the helpers of the workflows *)
(* ===================================================================== *)

Lemma getDefaultBranch_run env t :
  getDefaultBranch env t = (Ok (defaultBranchOf env t), t ++ defaultBranchProbe env t).
Proof.
  unfold getDefaultBranch, defaultBranchOf, defaultBranchProbe, bind, tryCatch, ret.
  rewrite execCmd_silent.
  destruct (JS.includes "main" _); [done|].
  destruct (JS.includes "master" _); [done|].
  cbv beta iota. rewrite execCmd_silent. cbv beta iota. by rewrite <- app_assoc.
Qed.

(** X8. getDefaultBranch never fails and answers main or master.  It
    answers master only when the remote HEAD mentions master and not main;
    because its silent probes cannot raise, the probe for a local main
    branch always settles the fallback: the local master branch is never
    looked up. *)
Theorem getDefaultBranch_answers_main_or_master (env : Env) (t : Trace) :
  ∃ b probes,
    getDefaultBranch env t = (Ok b, t ++ probes)
    ∧ (b = "main" ∨ b = "master")
    ∧ (b = "master" ↔
       JS.includes "main" (silentOutput env t GitSymbolicRefOriginHead) = false
       ∧ JS.includes "master" (silentOutput env t GitSymbolicRefOriginHead) = true)
    ∧ (Exec (GitShowRef "refs/heads/master") ∉ probes)
    ∧ Forall (fun e => touchesRepository e = false) probes.
Proof.
  exists (defaultBranchOf env t), (defaultBranchProbe env t).
  split; [apply getDefaultBranch_run|].
  unfold defaultBranchOf, defaultBranchProbe.
  destruct (JS.includes "main" _); simpl.
  - split_and!; [by left| |set_solver|by repeat constructor].
    split; [done|]. by intros [? _].
  - destruct (JS.includes "master" _); simpl.
    + split_and!; [by right|done|set_solver|by repeat constructor].
    + split_and!; [by left| |set_solver|by repeat constructor].
      split; [done|]. by intros [_ ?].
Qed.


Lemma includes_unfold (sub s : string) :
  JS.includes sub s =
  JS.startsWith sub s || match s with
                         | EmptyString => false
                         | String _ s' => JS.includes sub s'
                         end.
Proof. by destruct s. Qed.

Lemma includes_app (sub pre post : string) :
  JS.includes sub (pre +:+ sub +:+ post) = true.
Proof.
  induction pre as [|c pre IH].
  - change ("" +:+ sub +:+ post) with (sub +:+ post).
    rewrite includes_unfold, startsWith_app. done.
  - change (String c pre +:+ sub +:+ post) with (String c (pre +:+ sub +:+ post)).
    rewrite includes_unfold, IH. apply orb_true_r.
Qed.

Lemma drop_app_length_string (p s : string) :
  JS.drop (String.length p) (p +:+ s) = s.
Proof. induction p as [|c p IH]; [by destruct s|exact IH]. Qed.





Lemma startsWith_char_cons (a c : ascii) (s : string) :
  JS.startsWith (String a "") (String c s) = Ascii.eqb c a.
Proof.
  unfold JS.startsWith. cbn -[Ascii.ascii_dec].
  destruct (Ascii.ascii_dec a c) as [<-|Hne].
  - rewrite Ascii.eqb_refl. by destruct s.
  - symmetry. apply Ascii.eqb_neq. congruence.
Qed.






(* ===================================================================== *)
(** ** Further properties: the ways of the Revise workflow *)
(* ===================================================================== *)

Lemma bind_inv {S A B : Type} (m : Eff S A) (k : A -> Eff S B) s r s' :
  bind m k s = (r, s') →
  (∃ a s1, m s = (Ok a, s1) ∧ k a s1 = (r, s'))
  ∨ (∃ e, m s = (Throw e, s') ∧ r = Throw e).
Proof.
  unfold bind. destruct (m s) as [[a|e] s1].
  - intros H. left. by exists a, s1.
  - intros [= <- <-]. right. by exists e.
Qed.

Lemma emit_run (e : Effect) (t : Trace) : emit e t = (Ok tt, t ++ [e]).
Proof. reflexivity. Qed.

Lemma log_run (level message : string) (t : Trace) :
  log level message t = (Ok tt, t ++ [Log level message]).
Proof. reflexivity. Qed.

Lemma silent_pull_run env b t :
  tryCatch (bind (execCmd env (GitPullOrigin b) true) (fun _ => ret tt))
           (fun _ => ret tt) t
  = (Ok tt, t ++ [Exec (GitPullOrigin b)]).
Proof. unfold tryCatch, bind. by rewrite execCmd_silent. Qed.

Lemma defaultBranchProbe_probes env t :
  Forall (fun e => isBranchProbe e = true) (defaultBranchProbe env t).
Proof.
  unfold defaultBranchProbe. destruct (_ || _); by repeat constructor.
Qed.

Lemma defaultBranchOf_cases env t :
  defaultBranchOf env t = "main" ∨ defaultBranchOf env t = "master".
Proof.
  unfold defaultBranchOf. destruct (JS.includes "main" _); [by left|].
  destruct (JS.includes "master" _); [by right|by left].
Qed.

(** Going back to the default branch: the probes, then the checkout, which
    may fail. *)
Lemma return_to_default_run env t r t' (k : Eff Trace unit) :
  bind (getDefaultBranch env)
       (fun main => bind (execCmd env (GitCheckout main) false) (fun _ => k)) t
  = (r, t') →
  ∃ back, ReturnsToDefault back
    ∧ ((∃ e, r = Throw e ∧ t' = t ++ back) ∨ k (t ++ back) = (r, t')).
Proof.
  intros H. unfold bind at 1 in H. rewrite getDefaultBranch_run in H.
  exists (defaultBranchProbe env t ++ [Exec (GitCheckout (defaultBranchOf env t))]).
  split.
  { constructor; [apply defaultBranchProbe_probes|apply defaultBranchOf_cases]. }
  apply bind_inv in H as [(a & s1 & Hm & Hk)|(e & Hm & ->)].
  - apply execCmd_trace in Hm as ->. right. by rewrite <- app_assoc in Hk.
  - apply execCmd_trace in Hm as ->. left. exists e. by rewrite <- app_assoc.
Qed.

Lemma applyRevision_run env prp ctx feedback t0 r t' :
  applyRevision env prp ctx feedback t0 = (r, t') →
  ∃ agent new, t' = t0 ++ new ∧ RevisionRun env prp ctx feedback agent r new.
Proof.
  intros H. unfold applyRevision in H.
  apply bind_inv in H as [(o1 & s1 & Hm & H)|(e & Hm & ->)];
    apply execCmd_trace in Hm as ->;
    [|by exists None, [Exec GitFetchOrigin]; split; [|constructor]].
  apply bind_inv in H as [(o2 & s2 & Hm & H)|(e & Hm & ->)];
    apply execCmd_trace in Hm as ->;
    [|eexists None, _; split; [by rewrite <- app_assoc|constructor]].
  unfold bind at 1 in H. rewrite silent_pull_run in H.
  unfold bind at 1 in H. rewrite emit_run in H.
  unfold bind at 1 in H. rewrite log_run in H.
  unfold bind at 1 in H. unfold runClaude at 1 in H.
  unfold bind at 1 in H. rewrite emit_run in H.
  rewrite <- !app_assoc in H. cbn [app] in H.
  fold (revisionFeedbackFile ctx) in H.
  change (t0 ++ [_; _; _; _; _; _; _])
    with (t0 ++ revisionWork env prp ctx feedback) in H.
  destruct (success _) eqn:Hagent; cbn [negb] in H.
  - (* the agent succeeded *)
    assert (Hok : agentEnded env true) by (by eexists _, _).
    apply bind_inv in H as [(o3 & s3 & Hm & H)|(e & Hm & ->)];
      apply execCmd_trace in Hm as ->;
      [|eexists (Some true), _; split; [by rewrite <- app_assoc|by constructor]].
    unfold bind at 1 in H. rewrite execCmd_silent in H.
    destruct (JS.truthy _) eqn:Hchanges.
    + apply bind_inv in H as [(u & s4 & Hm & H)|(e & Hm & ->)].
      * apply bind_inv in Hm as [(o5 & s5 & Hc & Hm)|(e & Hc & [=])].
        apply execCmd_trace in Hc as ->.
        apply bind_inv in Hm as [(o6 & s6 & Hc & Hm)|(e & Hc & [=])].
        apply execCmd_trace in Hc as ->.
        apply bind_inv in Hm as [(o7 & s7 & Hc & Hm)|(e & Hc & [=])].
        apply execCmd_trace in Hc as ->.
        rewrite log_run in Hm. injection Hm as _ <-.
        apply return_to_default_run in H as (back & Hback & Hend).
        eexists (Some true), _. split; [|by apply (rev_pushed _ _ _ _ r back)].
        destruct Hend as [(e & -> & ->)|Hend];
          [|unfold ret in Hend; injection Hend as _ <-];
          rewrite <- !app_assoc; reflexivity.
      * apply bind_inv in Hm as [(o5 & s5 & Hc & Hm)|(e' & Hc & [= <-])];
          apply execCmd_trace in Hc as ->;
          [|eexists (Some true), _; split;
            [by rewrite <- !app_assoc|by apply rev_commit_failed]].
        apply bind_inv in Hm as [(o6 & s6 & Hc & Hm)|(e' & Hc & [= <-])];
          apply execCmd_trace in Hc as ->;
          [|eexists (Some true), _; split;
            [by rewrite <- !app_assoc|by apply rev_push_failed]].
        apply bind_inv in Hm as [(o7 & s7 & Hc & Hm)|(e' & Hc & [= <-])];
          apply execCmd_trace in Hc as ->;
          [|eexists (Some true), _; split;
            [by rewrite <- !app_assoc|by apply rev_comment_failed]].
        rewrite log_run in Hm. discriminate Hm.
    + unfold bind at 1 in H. rewrite log_run in H.
      apply return_to_default_run in H as (back & Hback & Hend).
      eexists (Some true), _. split; [|by apply (rev_no_changes _ _ _ _ r back)].
      destruct Hend as [(e & -> & ->)|Hend];
        [|unfold ret in Hend; injection Hend as _ <-];
        rewrite <- !app_assoc; reflexivity.
  - (* the agent failed *)
    assert (Hko : agentEnded env false) by (by eexists _, _).
    unfold bind at 1 in H. rewrite log_run in H.
    apply return_to_default_run in H as (back & Hback & Hend).
    destruct Hend as [(e & -> & ->)|Hend].
    + eexists (Some false), _. split; [|by apply (rev_agent_failed _ _ _ _ e back)].
      rewrite <- !app_assoc. reflexivity.
    + unfold throw in Hend. injection Hend as <- <-.
      eexists (Some false), _. split; [|by apply (rev_agent_failed _ _ _ _ _ back)].
      rewrite <- !app_assoc. reflexivity.
Qed.

Lemma collectFeedback_run env prp t r t' :
  collectFeedback env prp t = (r, t') →
  ∃ queries, t' = t ++ queries
    ∧ Forall (fun e => isRevisionPreamble e = true) queries.
Proof.
  intros H. unfold collectFeedback in H.
  apply bind_inv in H as [(j & s1 & Hm & H)|(e & Hm & ->)].
  - unfold execPrView in Hm. injection Hm as _ <-.
    apply bind_inv in H as [(d & s2 & Hm & H)|(e & Hm & ->)].
    + unfold lift in Hm. injection Hm as _ <-.
      unfold bind, tryCatch in H. rewrite execCmd_silent in H.
      unfold ret in H. injection H as _ <-.
      eexists. rewrite <- app_assoc. split; [reflexivity|by repeat constructor].
    + unfold lift in Hm. injection Hm as _ <-.
      eexists. split; [reflexivity|by repeat constructor].
  - unfold execPrView in Hm. injection Hm as _ <-.
    eexists. split; [reflexivity|by repeat constructor].
Qed.

(** Every run of runRevision: a preamble of logging, identity configuration
    and feedback queries; then an error of the queries, the no-op for want
    of feedback, or one of the ways of [RevisionRun]. *)
Lemma runRevision_run env prp ctx t0 r t' :
  runRevision env prp ctx t0 = (r, t') →
  ∃ pre, Forall (fun e => isRevisionPreamble e = true) pre
    ∧ ((∃ e, r = Throw e ∧ t' = t0 ++ pre)
       ∨ (r = Ok tt ∧ t' = t0 ++ pre)
       ∨ (∃ feedback agent new,
            t' = t0 ++ pre ++ new
            ∧ RevisionRun env prp ctx feedback agent r new)).
Proof.
  intros H. unfold runRevision in H.
  unfold bind at 1 in H. rewrite log_run in H.
  unfold bind at 1 in H.
  destruct (configureGitBot_run env
              (t0 ++ [Log "info" ("Running revision for PR #" +:+
                                  showNum (PRPState.prNumber prp) +:+ "...")]))
    as (cfg & Hcfg & Hid & _).
  rewrite Hcfg in H.
  assert (Hcfgpre : Forall (fun e => isRevisionPreamble e = true) cfg).
  { eapply Forall_impl; [exact Hid|]. intros [[]| | | |]; simpl; done. }
  apply bind_inv in H as [(fb & s1 & Hm & H)|(e & Hm & ->)].
  - apply collectFeedback_run in Hm as (queries & -> & Hq).
    destruct (negb (JS.truthy (JS.trim fb))).
    + unfold bind in H. rewrite log_run in H. unfold ret in H.
      injection H as <- <-.
      eexists. split; [|right; left; split; [done|]].
      2: { rewrite <- !app_assoc. reflexivity. }
      repeat (apply Forall_app; split); try done; by repeat constructor.
    + apply applyRevision_run in H as (agent & new & -> & Hrun).
      exists ([Log "info" ("Running revision for PR #" +:+
                          showNum (PRPState.prNumber prp) +:+ "...")]
              ++ cfg ++ queries).
      split.
      { repeat (apply Forall_app; split); try done; by repeat constructor. }
      right. right. exists fb, agent, new. split; [|done].
      by rewrite <- !app_assoc.
  - apply collectFeedback_run in Hm as (queries & -> & Hq).
    exists ([Log "info" ("Running revision for PR #" +:+
                        showNum (PRPState.prNumber prp) +:+ "...")]
            ++ cfg ++ queries).
    split.
    { repeat (apply Forall_app; split); try done; by repeat constructor. }
    left. exists e. split; [done|]. by rewrite <- !app_assoc.
Qed.

Lemma Forall_not_elem {A : Type} (p : A -> bool) (l : list A) (e : A) :
  Forall (fun x => p x = true) l → p e = false → e ∉ l.
Proof.
  intros Hall He Hin. rewrite Forall_forall in Hall.
  specialize (Hall e Hin). congruence.
Qed.

Lemma ReturnsToDefault_steps back :
  ReturnsToDefault back → Forall (fun e => isReturnStep e = true) back.
Proof.
  intros [probes b Hp _]. apply Forall_app. split; [|by repeat constructor].
  eapply Forall_impl; [exact Hp|]. by intros [[]| | | |].
Qed.

(** Decides that an effect occurs in none of the parts of a run, given that
    it is no preamble step and no step of the way back. *)
Ltac absent Hpre Hback :=
  let Hin := fresh "Hin" in
  intros Hin; unfold revisionWork in Hin;
  rewrite ?elem_of_app, ?elem_of_cons, ?elem_of_nil in Hin;
  repeat (match type of Hin with _ ∨ _ => destruct Hin as [Hin|Hin] end);
  solve [ discriminate Hin | done
        | by apply (Forall_not_elem _ _ _ Hpre) in Hin
        | by apply (Forall_not_elem _ _ _ Hback) in Hin ].

(** X10. When the agent fails, runRevision stages, commits, pushes and
    comments nothing; once the agent has been started the run ends in an
    error, its temporary feedback file has been removed, and its last steps
    are the way back to the default branch. *)
Theorem runRevision_failed_agent_commits_nothing
    (env : Env) (prp : PRPState.t) (ctx : ProjectContext) (t0 t' : Trace)
    (r : Result unit) :
  (∀ t prompt, success (claude env t prompt) = false) →
  runRevision env prp ctx t0 = (r, t') →
  let new := drop (length t0) t' in
  (Exec GitAddAll ∉ new)
  ∧ (∀ m, Exec (GitCommit m) ∉ new)
  ∧ (∀ b, Exec (GitPushOrigin b) ∉ new)
  ∧ (∀ n body, Exec (GhPrComment n body) ∉ new)
  ∧ (∀ p c n, RunClaude p c n ∈ new →
       (∃ e, r = Throw e)
       ∧ FsUnlink (revisionFeedbackFile ctx) ∈ new
       ∧ ∃ before back, new = before ++ back ∧ ReturnsToDefault back).
Proof.
  intros Hfail (pre & Hpre & Hcases)%runRevision_run new.
  assert (Hnever : ¬ agentEnded env true).
  { intros (t & p & Hs). by rewrite Hfail in Hs. }
  destruct Hcases as [(e & -> & ->)|[(-> & ->)|(fb & agent & run & -> & Hrun)]];
    unfold new; rewrite drop_app_length.
  - split_and!; try (intros; by apply (Forall_not_elem _ _ _ Hpre)).
    intros p c n Hin. by apply (Forall_not_elem _ _ _ Hpre) in Hin.
  - split_and!; try (intros; by apply (Forall_not_elem _ _ _ Hpre)).
    intros p c n Hin. by apply (Forall_not_elem _ _ _ Hpre) in Hin.
  - inversion Hrun as [e|e|e back Hko Hback|e Hok|r' back Hok|e Hok|e Hok|e Hok|r' back Hok];
      subst; try done.
    + split_and!; try (intros; absent Hpre Hpre).
      intros p c n. absent Hpre Hpre.
    + split_and!; try (intros; absent Hpre Hpre).
      intros p c n. absent Hpre Hpre.
    + pose proof (ReturnsToDefault_steps back Hback) as Hsteps.
      split_and!; try (intros; absent Hpre Hsteps).
      intros p c n _. split_and!.
      * by eexists.
      * unfold revisionWork. set_solver.
      * exists (pre ++ revisionWork env prp ctx fb
                ++ [Log "error" "Revision execution failed"]), back.
        split; [by rewrite <- !app_assoc|done].
Qed.

Lemma runRevision_failed_agent_commits_nothing_witness :
  ∃ r t', runRevision failingAgentEnv openState exampleCtx [] = (r, t')
    ∧ (∃ e, r = Throw e)
    ∧ FsUnlink (revisionFeedbackFile exampleCtx) ∈ drop (length (@nil Effect)) t'.
Proof.
  eexists _, _. split; [vm_compute; reflexivity|].
  refine (let H := proj2 (proj2 (proj2 (proj2
            (runRevision_failed_agent_commits_nothing failingAgentEnv openState
               exampleCtx [] _ _ (fun _ _ => eq_refl) eq_refl)))) in _).
  destruct (H (revisionPrompt openState (revisionFeedbackFile exampleCtx))
              "/work/demo" 900000%Z) as (He & Hu & _).
  - vm_compute. repeat constructor.
  - split; [exact He|exact Hu].
Defined.

(** X11. A run of runRevision that returns normally after fetching (that
    is, with feedback) has run the agent with success, has removed its
    temporary feedback file and ends with the way back to the default
    branch.  If such a run commits, the commit is the fixed revision
    commit, followed at once by the push of the item's branch, the comment
    on the request and the success line. *)
Theorem runRevision_completes_on_default_branch
    (env : Env) (prp : PRPState.t) (ctx : ProjectContext) (t0 t' : Trace) :
  runRevision env prp ctx t0 = (Ok tt, t') →
  let new := drop (length t0) t' in
  (Exec GitFetchOrigin ∈ new →
     agentEnded env true
     ∧ FsUnlink (revisionFeedbackFile ctx) ∈ new
     ∧ ∃ before back, new = before ++ back ∧ ReturnsToDefault back)
  ∧ (∀ m, Exec (GitCommit m) ∈ new →
       ∃ before after,
         new = before
               ++ [Exec (GitCommit "fix: Address review feedback");
                   Exec (GitPushOrigin (showStr (PRPState.branch prp)));
                   Exec (GhPrComment (showNum (PRPState.prNumber prp))
                           "🤖 Revision pushed addressing the feedback. Please review again.");
                   Log "success" "Revision pushed - PR updated"]
               ++ after).
Proof.
  intros (pre & Hpre & Hcases)%runRevision_run new.
  destruct Hcases as [(e & [=] & _)|[(_ & ->)|(fb & agent & run & -> & Hrun)]];
    unfold new; rewrite drop_app_length.
  - split.
    + intros Hin. by apply (Forall_not_elem _ _ _ Hpre) in Hin.
    + intros m Hin. by apply (Forall_not_elem _ _ _ Hpre) in Hin.
  - inversion Hrun as [e|e|e back Hko Hback|e Hok|r' back Hok Hback|e Hok|e Hok|e Hok
                      |r' back Hok Hback]; subst.
    + pose proof (ReturnsToDefault_steps back Hback) as Hsteps. split.
      * intros _. split_and!; [done|unfold revisionWork; set_solver|].
        exists (pre ++ revisionWork env prp ctx fb
                ++ [Exec GitAddAll; Exec GitStatusPorcelain;
                    Log "warn" "No changes made during revision"]), back.
        split; [by rewrite <- !app_assoc|done].
      * intros m. absent Hpre Hsteps.
    + pose proof (ReturnsToDefault_steps back Hback) as Hsteps. split.
      * intros _. split_and!; [done|unfold revisionWork; set_solver|].
        eexists _, back. split; [|done].
        rewrite !app_assoc. reflexivity.
      * intros m _.
        exists (pre ++ revisionWork env prp ctx fb
                ++ [Exec GitAddAll; Exec GitStatusPorcelain]), back.
        by rewrite <- !app_assoc.
Qed.

Lemma runRevision_completes_on_default_branch_witness :
  ∃ t' before after,
    runRevision changingEnv openState exampleCtx [] = (Ok tt, t')
    ∧ drop (length (@nil Effect)) t' =
        before
        ++ [Exec (GitCommit "fix: Address review feedback");
            Exec (GitPushOrigin (showStr (PRPState.branch openState)));
            Exec (GhPrComment (showNum (PRPState.prNumber openState))
                    "🤖 Revision pushed addressing the feedback. Please review again.");
            Log "success" "Revision pushed - PR updated"]
        ++ after.
Proof.
  eexists _.
  assert (Hrun : runRevision changingEnv openState exampleCtx [] = (Ok tt, _))
    by (vm_compute; reflexivity).
  destruct (proj2 (runRevision_completes_on_default_branch
                     changingEnv openState exampleCtx [] _ Hrun)
              "fix: Address review feedback") as (before & after & Heq).
  - vm_compute. repeat constructor.
  - exists before, after. split; [exact Hrun|exact Heq].
Defined.

(* ===================================================================== *)
(** ** Further properties: validation *)
(* ===================================================================== *)

Lemma execMore_silent we c h :
  execMore we c true h
  = (Ok (match wRunMore we h c with Exit0 out => JS.trim out | ExecError _ => "" end),
     h ++ [Ran c]).
Proof. unfold execMore, exec. by destruct (wRunMore we h c). Qed.

(** One guarded check of runValidation: because the command runs silently
    its [catch] is never entered and the result object is left as it is. *)
Lemma guarded_check_run we (c : ExtraCmd) (line : string)
    (f : ValidationResult -> ValidationResult) (guard : bool) h v :
  when guard
    (bind (onHistory (note "info" line))
          (fun _ => tryCatch (bind (onHistory (execMore we c true)) (fun _ => ret tt))
                             (fun _ => setResult f))) (h, v)
  = (Ok tt, (if guard then h ++ [Did (Log "info" line); Ran c] else h, v)).
Proof.
  destruct guard; [|done].
  unfold when, bind, tryCatch, onHistory, note, modify, ret. cbn [fst snd].
  rewrite execMore_silent. cbn [fst snd]. by rewrite <- app_assoc.
Qed.

(** Every run of runValidation: some log lines and npm commands, and the
    result object as it was initialised. *)
Lemma runValidation_run (we : WorkEnv) (projectPath : string) (h : History) :
  ∃ checks,
    runValidation we projectPath h =
      (Ok {| build := true; test := true; format := true |}, h ++ checks)
    ∧ Forall (fun e => isValidationStep e = true) checks.
Proof.
  unfold runValidation.
  destruct (wExists we h _); simpl.
  2: { exists []. by rewrite app_nil_r. }
  unfold tryCatch at 1, runScripts, bind at 1, get.
  unfold bind at 1, lift at 1. simpl.
  destruct (wReadPackage we h _) as [text|e].
  2: { exists []. by rewrite app_nil_r. }
  unfold bind at 1, lift at 1.
  destruct (JSONparse text) as [pkg|e].
  2: { exists []. by rewrite app_nil_r. }
  unfold bind at 1. rewrite guarded_check_run.
  unfold bind at 1. rewrite guarded_check_run.
  rewrite guarded_check_run.
  set (bb := match scripts pkg with Some x => hasScript (script_build x) | None => false end).
  set (bt := match scripts pkg with Some x => hasScript (script_test x) | None => false end).
  set (bf := match scripts pkg with
             | Some x => hasScript (script_format_check x) | None => false end).
  set (bl := match scripts pkg with Some x => hasScript (script_lint x) | None => false end).
  exists ((if bb then [Did (Log "info" "  Running build..."); Ran NpmRunBuild] else [])
          ++ (if bt then [Did (Log "info" "  Running tests..."); Ran NpmTest] else [])
          ++ (if bf || bl
              then [Did (Log "info" "  Running lint/format...");
                    Ran (NpmRun (if bf then "format:check" else "lint"))]
              else [])).
  split.
  - destruct bb, bt, bf, bl; cbn [orb app]; rewrite <- ?app_assoc, ?app_nil_r;
      reflexivity.
  - destruct bb, bt, bf, bl; cbn [orb app]; by repeat constructor.
Qed.

(** X12. runValidation never fails and reports build, tests and format as
    passed whatever the npm commands do: they are run silently, so a failing
    command raises nothing and the result object is never changed.  All it
    does is log and run npm commands. *)
Theorem runValidation_always_reports_pass
    (we : WorkEnv) (projectPath : string) (h : History) :
  (runValidation we projectPath h).1
  = Ok {| build := true; test := true; format := true |}
  ∧ ∃ checks, (runValidation we projectPath h).2 = h ++ checks
              ∧ Forall (fun e => isValidationStep e = true) checks.
Proof.
  destruct (runValidation_run we projectPath h) as (checks & -> & Hchecks).
  split; [done|]. by exists checks.
Qed.

(* ===================================================================== *)
(** ** Further properties: the ways of the Execute workflow *)
(* ===================================================================== *)

Lemma note_run (level message : string) (h : History) :
  note level message h = (Ok tt, h ++ [Did (Log level message)]).
Proof. reflexivity. Qed.

Lemma record_run (e : Event) (h : History) : record e h = (Ok tt, h ++ [e]).
Proof. reflexivity. Qed.

Lemma execMore_trace we c silent h r h' :
  execMore we c silent h = (r, h') → h' = h ++ [Ran c].
Proof. unfold execMore. by intros [= _ <-]. Qed.

Lemma embed_execCmd_trace we c silent h r h' :
  embed we (fun env => execCmd env c silent) h = (r, h') → h' = h ++ [Did (Exec c)].
Proof. unfold embed, execCmd. by intros [= _ <-]. Qed.

Lemma embed_execCmd_silent we c h :
  ∃ out, embed we (fun env => execCmd env c true) h = (Ok out, h ++ [Did (Exec c)]).
Proof. unfold embed. rewrite execCmd_silent. by eexists. Qed.

Lemma tryDeleteBranch_run we b h :
  tryDeleteBranch we b h = (Ok tt, h ++ [Ran (GitBranchDelete b)]).
Proof. unfold tryDeleteBranch, tryCatch, bind. by rewrite execMore_silent. Qed.

Lemma checkoutDefault_run we h r h' :
  checkoutDefault we h = (r, h') →
  ∃ back, BackToDefault back ∧ h' = h ++ back ∧ (r = Ok tt ∨ ∃ e, r = Throw e).
Proof.
  unfold checkoutDefault, embed.
  destruct (bind (getDefaultBranch (envAt we h))
              (fun main => bind (execCmd (envAt we h) (GitCheckout main) false)
                                (fun _ => ret tt)) [])
    as [r0 t] eqn:Hrun.
  intros [= <- <-].
  apply return_to_default_run in Hrun as (back & Hback & Hend).
  destruct Hend as [(e & -> & ->)|Hend].
  - exists (List.map Did back). split_and!; [by exists back|done|by right; eexists].
  - unfold ret in Hend. injection Hend as <- <-.
    exists (List.map Did back). split_and!; [by exists back|done|by left].
Qed.

Lemma BackToDefault_steps back :
  BackToDefault back →
  Forall (fun e => match e with Did x => isReturnStep x | _ => false end = true) back.
Proof.
  intros (l & Hl%ReturnsToDefault_steps & ->).
  induction Hl; constructor; done.
Qed.

Lemma implementOnBranch_run we prp ctx branch h r h' :
  implementOnBranch we prp ctx branch h = (r, h') →
  ∃ new, h' = h ++ new ∧ ImplementRun we prp ctx branch r new.
Proof.
  intros H. unfold implementOnBranch in H.
  unfold bind at 1 in H. rewrite note_run in H.
  unfold bind at 1 in H. unfold embed at 1, runClaude at 1 in H.
  cbn [List.map app envAt claude timeouts] in H.
  destruct (success _) eqn:Hagent; cbn [negb] in H.
  - assert (Hok : workAgentEnded we true) by (by eexists _, _).
    unfold bind at 1 in H. rewrite note_run in H.
    unfold bind at 1 in H.
    match type of H with
    | context [runValidation we ?p ?st] =>
        destruct (runValidation_run we p st)
          as (checks & Hval & Hchecks)
    end.
    rewrite Hval in H.
    apply bind_inv in H as [(o1 & s1 & Hm & H)|(e & Hm & ->)];
      apply embed_execCmd_trace in Hm as ->.
    2: { eexists. split; [|by apply (impl_add_failed _ _ _ _ e checks)].
         by rewrite <- !app_assoc. }
    unfold bind at 1 in H.
    match type of H with
    | context [embed we ?m ?st] =>
        destruct (embed_execCmd_silent we GitStatusPorcelain st) as (status & Hstatus)
    end.
    rewrite Hstatus in H.
    destruct (JS.truthy status); cbn [negb] in H.
    + (* there are changes *)
      apply bind_inv in H as [(o2 & s2 & Hm & H)|(e & Hm & ->)];
        apply embed_execCmd_trace in Hm as ->.
      2: { eexists. split.
           2: { apply (impl_publish_failed _ _ _ _ e checks
                         [Did (Exec (GitCommit (executeCommitMessage prp)))]);
                  [done|done|by eexists|done]. }
           by rewrite <- !app_assoc. }
      apply bind_inv in H as [(o3 & s3 & Hm & H)|(e & Hm & ->)];
        apply execMore_trace in Hm as ->.
      2: { eexists. split.
           2: { apply (impl_publish_failed _ _ _ _ e checks
                         [Did (Exec (GitCommit (executeCommitMessage prp)));
                          Ran (GitPushUpstream branch)]);
                  [done|done|by eexists|done]. }
           by rewrite <- !app_assoc. }
      unfold bind at 1 in H. rewrite record_run in H.
      apply bind_inv in H as [(o4 & s4 & Hm & H)|(e & Hm & ->)].
      2: { apply execMore_trace in Hm as ->. eexists. split.
           2: { apply (impl_publish_failed _ _ _ _ e checks (publication prp ctx branch));
                  [done|done|done|done]. }
           by rewrite <- !app_assoc. }
      assert (Hcreated : createSucceeded we).
      { unfold execWithBot, execMore, exec in Hm.
        destruct (wRunMore we _ _) eqn:Hc; [by eexists _, _, _, _|discriminate Hm]. }
      apply execMore_trace in Hm as ->.
      unfold bind at 1, tryCatch at 1 in H. rewrite record_run in H.
      unfold bind at 1 in H. rewrite note_run in H.
      apply checkoutDefault_run in H as (back & Hback & -> & _).
      eexists. split; [|by apply (impl_created _ _ _ _ r checks back)].
      by rewrite <- !app_assoc.
    + (* no changes *)
      unfold bind at 1 in H. rewrite note_run in H.
      apply bind_inv in H as [(u & s2 & Hm & H)|(e & Hm & ->)];
        apply checkoutDefault_run in Hm as (back & Hback & -> & _).
      * unfold bind at 1 in H. rewrite tryDeleteBranch_run in H.
        unfold ret in H. injection H as <- <-.
        eexists. split; [|by apply (impl_no_changes _ _ _ _ checks back)].
        by rewrite <- !app_assoc.
      * eexists. split; [|by apply (impl_no_changes_stuck _ _ _ _ e checks back)].
        by rewrite <- !app_assoc.
  - assert (Hko : workAgentEnded we false) by (by eexists _, _).
    unfold bind at 1 in H. rewrite note_run in H.
    apply bind_inv in H as [(u & s2 & Hm & H)|(e & Hm & ->)];
      apply checkoutDefault_run in Hm as (back & Hback & -> & _).
    + unfold bind at 1 in H. rewrite tryDeleteBranch_run in H.
      unfold throw in H. injection H as <- <-.
      eexists. split; [|by apply (impl_agent_failed _ _ _ _ back)].
      by rewrite <- !app_assoc.
    + eexists. split; [|by apply (impl_agent_failed_stuck _ _ _ _ e back)].
      by rewrite <- !app_assoc.
Qed.

Lemma prepareBranch_steps env prp t r t' :
  prepareBranch env prp t = (r, t') →
  ∃ new, t' = t ++ new ∧ Forall (fun e => isPrepareStep e = true) new
    ∧ ∀ b, r = Ok b → b = executeBranch (PRPState.id prp) (PRPState.title prp).
Proof.
  intros H. unfold prepareBranch in H.
  unfold bind at 1 in H. rewrite log_run in H.
  unfold bind at 1 in H.
  match type of H with
  | context [configureGitBot env ?st] =>
      destruct (configureGitBot_run env st) as (cfg & Hcfg & Hid & _)
  end.
  rewrite Hcfg in H.
  assert (Hcfgsteps : Forall (fun e => isPrepareStep e = true) cfg).
  { eapply Forall_impl; [exact Hid|]. by intros [[]| | | |]. }
  unfold bind at 1 in H. rewrite getDefaultBranch_run in H.
  match type of H with
  | context [defaultBranchProbe env ?st] =>
      pose proof (defaultBranchProbe_probes env st) as Hprobe;
      set (probes := defaultBranchProbe env st) in *;
      set (main := defaultBranchOf env st) in *
  end.
  assert (Hprobesteps : Forall (fun e => isPrepareStep e = true) probes).
  { eapply Forall_impl; [exact Hprobe|]. by intros [[]| | | |]. }
  assert (Hsplit : ∀ (l : list Effect),
            Forall (fun e => isPrepareStep e = true) l →
            Forall (fun e => isPrepareStep e = true)
              ([Log "info" ("Executing " +:+ PRPState.id prp +:+ ": "
                            +:+ PRPState.title prp +:+ "...")]
               ++ cfg ++ probes ++ l)).
  { intros l Hl. repeat (apply Forall_app; split); try done. by repeat constructor. }
  apply bind_inv in H as [(o1 & s1 & Hm & H)|(e & Hm & ->)];
    apply execCmd_trace in Hm as ->.
  2: { eexists. split; [by rewrite <- !app_assoc|].
       split; [apply Hsplit; by repeat constructor|done]. }
  apply bind_inv in H as [(o2 & s2 & Hm & H)|(e & Hm & ->)];
    apply execCmd_trace in Hm as ->.
  2: { eexists. split; [by rewrite <- !app_assoc|].
       split; [apply Hsplit; by repeat constructor|done]. }
  unfold bind at 1 in H. rewrite execCmd_silent in H.
  destruct (JS.truthy _).
  - apply bind_inv in H as [(u & s3 & Hm & H)|(e & Hm & ->)].
    + unfold ret in H. injection H as <- <-.
      unfold bind at 1 in Hm. rewrite log_run in Hm.
      apply bind_inv in Hm as [(o4 & s4 & Hc & Hm)|(e & Hc & [=])].
      apply execCmd_trace in Hc as ->. rewrite silent_pull_run in Hm.
      simplify_eq.
      eexists. split; [by rewrite <- !app_assoc|].
      split; [apply Hsplit; by repeat constructor|by intros b [= <-]].
    + unfold bind at 1 in Hm. rewrite log_run in Hm.
      apply bind_inv in Hm as [(o4 & s4 & Hc & Hm)|(e' & Hc & [= <-])].
      * apply execCmd_trace in Hc as ->. rewrite silent_pull_run in Hm.
        discriminate Hm.
      * apply execCmd_trace in Hc as ->.
        eexists. split; [by rewrite <- !app_assoc|].
        split; [apply Hsplit; by repeat constructor|done].
  - apply bind_inv in H as [(u & s3 & Hm & H)|(e & Hm & ->)].
    + unfold ret in H. injection H as <- <-.
      apply bind_inv in Hm as [(o4 & s4 & Hc & Hm)|(e & Hc & [=])].
      apply execCmd_trace in Hc as ->. unfold ret in Hm. simplify_eq.
      eexists. split; [by rewrite <- !app_assoc|].
      split; [apply Hsplit; by repeat constructor|by intros b [= <-]].
    + apply bind_inv in Hm as [(o4 & s4 & Hc & Hm)|(e' & Hc & [= <-])].
      * apply execCmd_trace in Hc as ->. discriminate Hm.
      * apply execCmd_trace in Hc as ->.
        eexists. split; [by rewrite <- !app_assoc|].
        split; [apply Hsplit; by repeat constructor|done].
Qed.

(** Every run of executePRP: the steps up to the checkout of its branch;
    then an error of these steps, or one of the ways of [ImplementRun] on
    the branch built from the id and the title. *)
Lemma executePRP_run we prp ctx h r h' :
  executePRP we prp ctx h = (r, h') →
  ∃ pre, Forall (fun e => match e with Did x => isPrepareStep x | _ => false end = true) pre
    ∧ ((∃ e, r = Throw e ∧ h' = h ++ pre)
       ∨ ∃ new, h' = h ++ pre ++ new
           ∧ ImplementRun we prp ctx
               (executeBranch (PRPState.id prp) (PRPState.title prp)) r new).
Proof.
  intros H. unfold executePRP in H.
  apply bind_inv in H as [(b & s1 & Hm & H)|(e & Hm & ->)].
  - unfold embed in Hm.
    destruct (prepareBranch (envAt we h) prp []) as [rb t] eqn:Hprep.
    injection Hm as -> <-.
    apply prepareBranch_steps in Hprep as (new & -> & Hnew & Hb).
    rewrite (Hb b eq_refl) in H.
    apply implementOnBranch_run in H as (run & -> & Hrun).
    exists (List.map Did new). split.
    { induction Hnew; constructor; done. }
    right. exists run. split; [by rewrite <- app_assoc|done].
  - unfold embed in Hm.
    destruct (prepareBranch (envAt we h) prp []) as [rb t] eqn:Hprep.
    injection Hm as -> <-.
    apply prepareBranch_steps in Hprep as (new & -> & Hnew & _).
    exists (List.map Did new). split.
    { induction Hnew; constructor; done. }
    left. by exists e.
Qed.

Lemma prepare_steps_events (pre : list Event) :
  Forall (fun e => match e with Did x => isPrepareStep x | _ => false end = true) pre →
  Forall (fun e => match e with
                   | Did (Log _ _) => true
                   | Did (Exec (GitCommit _ | GitAddAll | GitStatusPorcelain)) => false
                   | Did (Exec _) => true
                   | _ => false
                   end = true) pre.
Proof.
  intros H. eapply Forall_impl; [exact H|]. by intros [[[]| | | |]| | |].
Qed.

(** Decides that an event occurs in none of the parts of a run of
    executePRP. *)
Ltac absent_event Hpre Hchecks Hback :=
  let Hin := fresh "Hin" in
  intros Hin; unfold implementStart, publication in Hin;
  rewrite ?elem_of_app, ?elem_of_cons, ?elem_of_nil in Hin;
  repeat (match type of Hin with _ ∨ _ => destruct Hin as [Hin|Hin] end);
  solve [ discriminate Hin | done
        | by apply (Forall_not_elem _ _ _ Hpre) in Hin
        | by apply (Forall_not_elem _ _ _ Hchecks) in Hin
        | by apply (Forall_not_elem _ _ _ Hback) in Hin ].

(** X13. When the agent fails, executePRP always ends in an error and
    publishes nothing: no staging, no commit, no push, no body file, no
    review request. *)
Theorem executePRP_failed_agent_publishes_nothing
    (we : WorkEnv) (prp : PRPState.t) (ctx : ProjectContext) (h h' : History)
    (r : Result unit) :
  (∀ h0 prompt, success (wClaude we h0 prompt) = false) →
  executePRP we prp ctx h = (r, h') →
  let new := drop (length h) h' in
  (∃ e, r = Throw e)
  ∧ (Did (Exec GitAddAll) ∉ new)
  ∧ (∀ m, Did (Exec (GitCommit m)) ∉ new)
  ∧ (∀ b, Ran (GitPushUpstream b) ∉ new)
  ∧ (∀ f body, Did (FsWrite f body) ∉ new)
  ∧ (∀ title f, Ran (GhPrCreate title f) ∉ new).
Proof.
  intros Hfail (pre & Hpre%prepare_steps_events & Hcases)%executePRP_run new.
  assert (Hnever : ¬ workAgentEnded we true).
  { intros (h0 & p & Hs). by rewrite Hfail in Hs. }
  destruct Hcases as [(e & -> & ->)|(run & -> & Hrun)];
    unfold new; rewrite drop_app_length.
  - split_and!; [by eexists|intros; by apply (Forall_not_elem _ _ _ Hpre)..].
  - inversion Hrun as [e back Hko Hback|back Hko Hback|e checks Hok|e checks back Hok
                      |checks back Hok|e checks done Hok|r' checks back Hok];
      subst; try (by destruct Hnever);
      try pose proof (BackToDefault_steps back Hback) as Hsteps.
    + split_and!; [by eexists|intros; absent_event Hpre Hsteps Hsteps..].
    + split_and!; [by eexists|intros; absent_event Hpre Hsteps Hsteps..].
Qed.

Lemma executePRP_failed_agent_publishes_nothing_witness :
  ∃ r h', executePRP failedAgentWork readyState exampleCtx [] = (r, h')
    ∧ ∃ e, r = Throw e.
Proof.
  eexists _, _. split; [vm_compute; reflexivity|].
  eapply (executePRP_failed_agent_publishes_nothing failedAgentWork readyState
            exampleCtx []); [reflexivity|vm_compute; reflexivity].
Defined.






(** X16. Re-entry of Execute: while the remote lists the item's branch,
    executePRP never creates a branch; when its preparation succeeds it has
    checked the existing branch out and pulled it, as its last two steps.
    While the remote does not list it, a successful preparation ends with
    the creation of the branch. *)
Theorem prepareBranch_reuses_existing_branch
    (env : Env) (prp : PRPState.t) (t t' : Trace) (r : Result string) (exist : bool) :
  let branch := executeBranch (PRPState.id prp) (PRPState.title prp) in
  (∀ t0, JS.truthy (silentOutput env t0 (GitBranchListRemote ("origin/" +:+ branch)))
         = exist) →
  prepareBranch env prp t = (r, t') →
  let new := drop (length t) t' in
  if exist then
    (∀ b, Exec (GitCheckoutNew b) ∉ new)
    ∧ (∀ b, r = Ok b →
         b = branch
         ∧ ∃ before, new = before ++ [Exec (GitCheckout branch);
                                      Exec (GitPullOrigin branch)])
  else
    (∀ b, r = Ok b →
       b = branch ∧ ∃ before, new = before ++ [Exec (GitCheckoutNew branch)]).
Proof.
  intros branch Hlist H new.
  unfold prepareBranch in H.
  unfold bind at 1 in H. rewrite log_run in H.
  unfold bind at 1 in H.
  match type of H with
  | context [configureGitBot env ?st] =>
      destruct (configureGitBot_run env st) as (cfg & Hcfg & Hid & _)
  end.
  rewrite Hcfg in H.
  unfold bind at 1 in H. rewrite getDefaultBranch_run in H.
  match type of H with
  | context [defaultBranchProbe env ?st] =>
      pose proof (defaultBranchProbe_probes env st) as Hprobe;
      set (probes := defaultBranchProbe env st) in *;
      set (main := defaultBranchOf env st) in *
  end.
  apply bind_inv in H as [(o1 & s1 & Hm & H)|(e & Hm & ->)];
    apply execCmd_trace in Hm as ->.
  2: { unfold new. rewrite <- !app_assoc, drop_app_length.
       destruct exist; [split; [|done]|done]. intros b. absent Hid Hprobe. }
  apply bind_inv in H as [(o2 & s2 & Hm & H)|(e & Hm & ->)];
    apply execCmd_trace in Hm as ->.
  2: { unfold new. rewrite <- !app_assoc, drop_app_length.
       destruct exist; [split; [|done]|done]. intros b. absent Hid Hprobe. }
  unfold bind at 1 in H. rewrite execCmd_silent in H.
  fold branch in H. rewrite Hlist in H.
  destruct exist.
  - apply bind_inv in H as [(u & s3 & Hm & H)|(e & Hm & ->)].
    + unfold ret in H. injection H as <- <-.
      unfold bind at 1 in Hm. rewrite log_run in Hm.
      apply bind_inv in Hm as [(o4 & s4 & Hc & Hm)|(e & Hc & [=])].
      apply execCmd_trace in Hc as ->. rewrite silent_pull_run in Hm.
      simplify_eq.
      unfold new. rewrite <- !app_assoc, drop_app_length.
      split; [intros b; absent Hid Hprobe|].
      intros b [= <-]. split; [done|].
      exists ([Log "info" ("Executing " +:+ PRPState.id prp +:+ ": "
                           +:+ PRPState.title prp +:+ "...")]
              ++ cfg ++ probes
              ++ [Exec (GitCheckout main); Exec GitPull;
                  Exec (GitBranchListRemote ("origin/" +:+ branch));
                  Log "warn" ("Branch " +:+ branch
                              +:+ " already exists - checking out")]).
      by rewrite <- !app_assoc.
    + unfold bind at 1 in Hm. rewrite log_run in Hm.
      apply bind_inv in Hm as [(o4 & s4 & Hc & Hm)|(e' & Hc & [= <-])].
      * apply execCmd_trace in Hc as ->. rewrite silent_pull_run in Hm.
        discriminate Hm.
      * apply execCmd_trace in Hc as ->.
        unfold new. rewrite <- !app_assoc, drop_app_length.
        split; [intros b; absent Hid Hprobe|done].
  - intros b ->.
    apply bind_inv in H as [(u & s3 & Hm & H)|(e & Hm & [=])].
    unfold ret in H. injection H as <- <-.
    apply bind_inv in Hm as [(o4 & s4 & Hc & Hm)|(e & Hc & [=])].
    apply execCmd_trace in Hc as ->. unfold ret in Hm. simplify_eq.
    unfold new. rewrite <- !app_assoc, drop_app_length.
    split; [done|].
    exists ([Log "info" ("Executing " +:+ PRPState.id prp +:+ ": "
                         +:+ PRPState.title prp +:+ "...")]
            ++ cfg ++ probes
            ++ [Exec (GitCheckout main); Exec GitPull;
                Exec (GitBranchListRemote ("origin/" +:+ branch))]).
    by rewrite <- !app_assoc.
Qed.

Lemma prepareBranch_reuses_existing_branch_witness :
  ∃ t' before,
    prepareBranch existingBranchEnv readyState [] = (Ok "auto/a-item-a", t')
    ∧ (∀ b, Exec (GitCheckoutNew b) ∉ drop (length (@nil Effect)) t')
    ∧ drop (length (@nil Effect)) t'
      = before ++ [Exec (GitCheckout "auto/a-item-a");
                   Exec (GitPullOrigin "auto/a-item-a")].
Proof.
  eexists _.
  assert (Hrun : prepareBranch existingBranchEnv readyState []
                 = (Ok "auto/a-item-a", _))
    by (vm_compute; reflexivity).
  destruct (prepareBranch_reuses_existing_branch
              existingBranchEnv readyState [] _ _ true
              (fun _ => eq_refl) Hrun) as (Hnew & Hlast).
  destruct (Hlast _ eq_refl) as (_ & before & Heq).
  exists before. split; [exact Hrun|]. split; [exact Hnew|exact Heq].
Defined.

(* ===================================================================== *)
(** ** Further properties: the Enrich workflow *)
(* ===================================================================== *)

Lemma length_app_string (a b : string) :
  String.length (a +:+ b) = String.length a + String.length b.
Proof. unfold String.app. induction a as [|c a IH]; simpl; [done|]. by rewrite IH. Qed.

Lemma endsWith_app (pre suffix : string) : endsWith suffix (pre +:+ suffix) = true.
Proof.
  unfold endsWith. rewrite length_app_string.
  replace (String.length pre + String.length suffix - String.length suffix)
    with (String.length pre) by lia.
  rewrite drop_app_length_string, String.eqb_refl, andb_true_r.
  apply Nat.leb_le. lia.
Qed.

Lemma patterns_namedAfter (prpId name : string) :
  name ∈ patterns prpId → namedAfter prpId name = true.
Proof.
  unfold patterns, namedAfter. rewrite !elem_of_cons, elem_of_nil.
  intros [-> | [-> | [-> | []]]]; apply andb_true_iff; split.
  - apply endsWith_app.
  - apply (includes_app prpId "" ".md").
  - change "-ENRICHED.md" with ("-ENRICHED" +:+ ".md").
    rewrite <- string_app_assoc. apply endsWith_app.
  - apply (includes_app prpId "" "-ENRICHED.md").
  - change "-enriched.md" with ("-enriched" +:+ ".md").
    rewrite <- string_app_assoc. apply endsWith_app.
  - apply (includes_app prpId "" "-enriched.md").
Qed.

Lemma exactMatch_Some we h prpId dirs p :
  exactMatch we h prpId dirs = Some p →
  ∃ dir name, dir ∈ dirs ∧ wExists we h dir = true ∧ name ∈ patterns prpId
    ∧ p = JS.pathJoin dir name ∧ wExists we h p = true.
Proof.
  unfold exactMatch. intros [Hin Hex]%find_some.
  apply in_flat_map in Hin as (dir & Hdir & Hin).
  destruct (wExists we h dir) eqn:Hd; [|done].
  apply in_map_iff in Hin as (name & <- & Hname).
  exists dir, name. by rewrite <- !list_elem_of_In in *.
Qed.

Lemma exactMatch_None we h prpId dirs :
  exactMatch we h prpId dirs = None →
  ∀ dir name, dir ∈ dirs → wExists we h dir = true → name ∈ patterns prpId →
    wExists we h (JS.pathJoin dir name) = false.
Proof.
  unfold exactMatch. intros Hnone dir name Hdir Hd Hname.
  apply (find_none _ _ Hnone). apply in_flat_map. exists dir.
  rewrite <- list_elem_of_In. split; [done|]. rewrite Hd.
  apply in_map. by rewrite <- list_elem_of_In.
Qed.

Lemma stats_Ok we h fullDir names files :
  stats we h fullDir names = Ok files →
  ∀ c, c ∈ files →
    ∃ name, name ∈ names ∧ cand_path c = JS.pathJoin fullDir name
      ∧ wMtime we h (JS.pathJoin fullDir name) = Ok (cand_mtime c).
Proof.
  revert files. induction names as [|f rest IH]; intros files; simpl.
  - intros [= <-] c Hc. by apply elem_of_nil in Hc.
  - destruct (wMtime we h (JS.pathJoin fullDir f)) as [m|e] eqn:Hm; [|done].
    destruct (stats we h fullDir rest) as [l|e]; [|done].
    intros [= <-] c [-> | Hc]%elem_of_cons.
    + exists f. split; [left|done].
    + destruct (IH l eq_refl c Hc) as (name & Hname & Hrest).
      exists name. split; [by right|done].
Qed.

Lemma newest_Some (l : list Candidate) (c : Candidate) :
  newest l = Some c →
  c ∈ l ∧ ∀ d, d ∈ l → (cand_mtime d <= cand_mtime c)%Z.
Proof.
  revert c. induction l as [|x l IH]; intros c; simpl; [done|].
  destruct (newest l) as [d|] eqn:Hd.
  - destruct (IH d eq_refl) as (Hin & Hmax).
    destruct (Z.ltb_spec (cand_mtime x) (cand_mtime d)); intros [= <-].
    + split; [by right|]. intros y [-> | Hy]%elem_of_cons; [lia|by apply Hmax].
    + split; [left|]. intros y [-> | Hy]%elem_of_cons; [lia|].
      specialize (Hmax y Hy). lia.
  - intros [= <-]. split; [left|].
    intros y [-> | Hy]%elem_of_cons; [lia|].
    destruct l; [by apply elem_of_nil in Hy|]. simpl in Hd.
    by destruct (newest l); [destruct (_ <? _)%Z|].
Qed.

Lemma recentIn_Some we h prpId now fullDir p :
  recentIn we h prpId now fullDir = Some p →
  ∃ names name m, wReaddir we h fullDir = Ok names ∧ name ∈ names
    ∧ p = JS.pathJoin fullDir name ∧ namedAfter prpId name = true
    ∧ wMtime we h p = Ok m ∧ (now - m < generatedMaxAge)%Z.
Proof.
  unfold recentIn. destruct (wReaddir we h fullDir) as [names|e]; [|done].
  destruct (stats we h fullDir _) as [files|e] eqn:Hs; [|done].
  destruct (newest _) as [c|] eqn:Hn; [|done]. intros [= <-].
  apply newest_Some in Hn as (Hin & _).
  apply list_elem_of_In, filter_In in Hin as (Hin & Hage).
  apply list_elem_of_In in Hin.
  destruct (stats_Ok _ _ _ _ _ Hs c Hin) as (name & Hname & Hpath & Hm).
  apply list_elem_of_In, filter_In in Hname as (Hname & Hnamed).
  exists names, name, (cand_mtime c). rewrite Hpath.
  split_and!; try done; [by apply list_elem_of_In|by apply Z.ltb_lt].
Qed.

Lemma recentMatch_Some we h prpId now dirs p :
  recentMatch we h prpId now dirs = Some p →
  ∃ dir name m, dir ∈ dirs ∧ wExists we h dir = true
    ∧ p = JS.pathJoin dir name ∧ namedAfter prpId name = true
    ∧ wMtime we h p = Ok m ∧ (now - m < generatedMaxAge)%Z.
Proof.
  induction dirs as [|d dirs IH]; simpl; [done|].
  destruct (wExists we h d) eqn:Hd.
  - destruct (recentIn we h prpId now d) as [q|] eqn:Hq.
    + intros [= <-].
      apply recentIn_Some in Hq as (names & name & m & _ & _ & -> & Hn & Hm & Hage).
      exists d, name, m. split_and!; try done. left.
    + intros (dir & name & m & Hin & Hrest)%IH.
      exists dir, name, m. split; [by right|done].
  - intros (dir & name & m & Hin & Hrest)%IH.
    exists dir, name, m. split; [by right|done].
Qed.

(** X17. findGeneratedPRP only ever answers a markdown file named after the
    item, directly inside one of the four search directories that exists:
    either a file with one of the three exact names that exists, or - only
    when no exact name exists in any of these directories - a file whose
    modification time is less than 30 minutes old. *)
Theorem findGeneratedPRP_answers_item_markdown
    (we : WorkEnv) (h : History) (prpId projectPath p : string) :
  findGeneratedPRP we h prpId projectPath = Some p →
  ∃ dir name,
    dir ∈ searchDirs projectPath ∧ wExists we h dir = true
    ∧ p = JS.pathJoin dir name
    ∧ endsWith ".md" name = true ∧ JS.includes prpId name = true
    ∧ ((name ∈ patterns prpId ∧ wExists we h p = true)
       ∨ ((∀ d n, d ∈ searchDirs projectPath → wExists we h d = true →
                  n ∈ patterns prpId → wExists we h (JS.pathJoin d n) = false)
          ∧ ∃ m, wMtime we h p = Ok m ∧ (wNow we h - m < 30 * 60 * 1000)%Z)).
Proof.
  unfold findGeneratedPRP.
  destruct (exactMatch we h prpId (searchDirs projectPath)) as [q|] eqn:Hexact.
  - intros [= <-].
    apply exactMatch_Some in Hexact as (dir & name & Hdir & Hd & Hname & -> & Hex).
    pose proof (patterns_namedAfter _ _ Hname) as [Hmd Hid]%andb_true_iff.
    exists dir, name. split_and!; try done. by left.
  - intros (dir & name & m & Hdir & Hd & -> & [Hmd Hid]%andb_true_iff & Hm & Hage)
             %recentMatch_Some.
    exists dir, name. split_and!; try done. right. split.
    + intros d n. by apply exactMatch_None.
    + by exists m.
Qed.

Lemma findGeneratedPRP_answers_item_markdown_witness :
  ∃ dir name,
    dir ∈ searchDirs "/work/demo" ∧ wExists enrichingEnv [] dir = true
    ∧ "/work/demo/PRPs/a-ENRICHED.md" = JS.pathJoin dir name
    ∧ endsWith ".md" name = true ∧ JS.includes "a" name = true.
Proof.
  destruct (findGeneratedPRP_answers_item_markdown
              enrichingEnv [] "a" "/work/demo" "/work/demo/PRPs/a-ENRICHED.md"
              eq_refl)
    as (dir & name & Hdir & Hd & Hp & Hmd & Hid & _).
  by exists dir, name.
Defined.

Lemma embed_configureGitBot_run we h :
  ∃ cfg, embed we configureGitBot h = (Ok tt, h ++ List.map Did cfg)
    ∧ Forall (fun e => isIdentityConfig e = true) cfg.
Proof.
  unfold embed.
  destruct (configureGitBot_run (envAt we h) []) as (cfg & -> & Hcfg & _).
  by exists cfg.
Qed.

Lemma ensureDir_run we dir h :
  ∃ made, ensureDir we dir h = (Ok tt, h ++ made) ∧ (made = [] ∨ made = [MadeDir dir]).
Proof.
  unfold ensureDir. destruct (wExists we h dir).
  - exists []. rewrite app_nil_r. by split; [|left].
  - exists [MadeDir dir]. by split; [|right].
Qed.

(** Every run of saveEnriched: the file is not found, or it is moved where
    it belongs and committed, as far as the commands succeed. *)
Lemma saveEnriched_run we prp ctx h r h' :
  saveEnriched we prp ctx h = (r, h') →
  (r = Throw "Generated PRP file not found"
   ∧ h' = h ++ [Did (Log "error" "Could not find generated PRP file")])
  ∨ ∃ moved, Moved prp ctx moved
      ∧ ((∃ e done, r = Throw e ∧ done `prefix_of` enrichCommit prp ctx ∧ done ≠ []
            ∧ h' = h ++ moved
                   ++ [Did (Log "success" ("Saved enriched PRP: "
                                           +:+ enrichedTarget prp ctx))]
                   ++ done)
         ∨ (r = Ok tt
            ∧ h' = h ++ moved
                   ++ [Did (Log "success" ("Saved enriched PRP: "
                                           +:+ enrichedTarget prp ctx))]
                   ++ enrichCommit prp ctx
                   ++ [Did (Log "success" "Enriched PRP committed to main branch")])).
Proof.
  intros H. unfold saveEnriched in H. unfold bind at 1, get in H.
  destruct (findGeneratedPRP we h _ _) as [generated|].
  2: { unfold bind, throw in H. rewrite note_run in H. injection H as <- <-.
       by left. }
  destruct (JS.truthy generated).
  2: { unfold bind, throw in H. rewrite note_run in H. injection H as <- <-.
       by left. }
  right.
  assert (Hmoved : ∃ moved,
            Moved prp ctx moved
            ∧ when (negb (String.eqb generated (enrichedTarget prp ctx)))
                (bind (ensureDir we (enrichedDir ctx))
                      (fun _ => record (Renamed generated (enrichedTarget prp ctx)))) h
              = (Ok tt, h ++ moved)).
  { destruct (String.eqb_spec generated (enrichedTarget prp ctx)) as [Heq|Hne];
      cbn [negb when].
    - exists []. split; [constructor|]. by rewrite app_nil_r.
    - destruct (ensureDir_run we (enrichedDir ctx) h) as (made & Hmade & Hcases).
      exists (made ++ [Renamed generated (enrichedTarget prp ctx)]).
      split; [by constructor|].
      unfold bind. rewrite Hmade, record_run. by rewrite <- app_assoc. }
  destruct Hmoved as (moved & Hmoved & Hwhen).
  exists moved. split; [done|].
  unfold bind at 1 in H. rewrite Hwhen in H.
  unfold bind at 1 in H. rewrite note_run in H.
  apply bind_inv in H as [(o1 & s1 & Hm & H)|(e & Hm & ->)];
    apply execMore_trace in Hm as ->.
  2: { left. exists e, [Ran (GitAddPath (enrichedDir ctx))].
       split_and!; [done|by eexists|done|by rewrite <- !app_assoc]. }
  apply bind_inv in H as [(o2 & s2 & Hm & H)|(e & Hm & ->)];
    apply embed_execCmd_trace in Hm as ->.
  2: { left. exists e, [Ran (GitAddPath (enrichedDir ctx));
                        Did (Exec (GitCommit (enrichCommitMessage prp)))].
       split_and!; [done|by eexists|done|by rewrite <- !app_assoc]. }
  apply bind_inv in H as [(o3 & s3 & Hm & H)|(e & Hm & ->)];
    apply execMore_trace in Hm as ->.
  2: { left. exists e, (enrichCommit prp ctx).
       split_and!; [done|done|done|by rewrite <- !app_assoc]. }
  rewrite note_run in H. injection H as <- <-.
  right. split; [done|]. by rewrite <- !app_assoc.
Qed.

(** Every run of enrichPRP goes one of the ways of [EnrichRun]. *)
Lemma enrichPRP_run we prp master ctx h r h' :
  enrichPRP we prp master ctx h = (r, h') →
  ∃ new, h' = h ++ new ∧ EnrichRun we prp master ctx r new.
Proof.
  intros H. unfold enrichPRP in H.
  unfold bind at 1 in H. rewrite note_run in H.
  unfold bind at 1 in H.
  match type of H with
  | context [embed we configureGitBot ?st] =>
      destruct (embed_configureGitBot_run we st) as (cfg & Hcfg & Hid)
  end.
  rewrite Hcfg in H.
  unfold bind at 1 in H.
  match type of H with
  | context [ensureDir we ?d ?st] =>
      destruct (ensureDir_run we d st) as (made & Hmade & Hcases)
  end.
  rewrite Hmade in H.
  unfold bind at 1 in H. rewrite record_run in H.
  unfold bind at 1 in H. rewrite note_run in H.
  unfold bind at 1 in H. unfold embed at 1, runClaude at 1 in H.
  cbn [List.map app envAt claude timeouts] in H.
  unfold bind at 1, tryCatch at 1 in H. rewrite record_run in H.
  destruct (success _) eqn:Hagent; cbn [negb] in H.
  - assert (Hok : workAgentEnded we true) by (by eexists _, _).
    apply saveEnriched_run in H
      as [[-> ->]|(moved & Hmoved & [(e & done & -> & Hpre & Hne & ->)|[-> ->]])].
    + eexists. split; [|by apply (enrich_not_found _ _ _ _ cfg made)].
      unfold enrichStart. by rewrite <- !app_assoc.
    + eexists. split;
        [|by apply (enrich_commit_failed _ _ _ _ e cfg made moved done)].
      unfold enrichStart. by rewrite <- !app_assoc.
    + eexists. split; [|by apply (enrich_committed _ _ _ _ cfg made moved)].
      unfold enrichStart. by rewrite <- !app_assoc.
  - assert (Hko : workAgentEnded we false) by (by eexists _, _).
    unfold bind, throw in H. rewrite note_run in H. injection H as <- <-.
    eexists. split; [|by apply (enrich_agent_failed _ _ _ _ cfg made)].
    unfold enrichStart. by rewrite <- !app_assoc.
Qed.

Lemma identity_events_setup (cfg : list Effect) :
  Forall (fun e => isIdentityConfig e = true) cfg →
  Forall (fun e => isEnrichSetup e = true) (List.map Did cfg).
Proof.
  induction 1 as [|x l Hx _ IH]; simpl; constructor; [|done].
  by destruct x as [[]| | | |].
Qed.

Lemma madeDir_setup ctx made :
  madeDir ctx made → Forall (fun e => isEnrichSetup e = true) made.
Proof. intros [-> | ->]; by repeat constructor. Qed.


(** Splits a membership in a run into its parts. *)
Ltac split_elem Hin :=
  rewrite ?elem_of_app, ?elem_of_cons, ?elem_of_nil in Hin;
  repeat (match type of Hin with _ ∨ _ => destruct Hin as [Hin|Hin] end).

(** X18. When the agent fails, enrichPRP ends in the error "Enrichment
    failed" right after removing its seed file: nothing is renamed, staged,
    committed or pushed. *)
Theorem enrichPRP_failed_agent_commits_nothing
    (we : WorkEnv) (prp : PRPState.t) (master : MasterPlan) (ctx : ProjectContext)
    (h h' : History) (r : Result unit) :
  (∀ h0 prompt, success (wClaude we h0 prompt) = false) →
  enrichPRP we prp master ctx h = (r, h') →
  let new := drop (length h) h' in
  r = Throw "Enrichment failed"
  ∧ (∀ d, Ran (GitAddPath d) ∉ new)
  ∧ (∀ m, Did (Exec (GitCommit m)) ∉ new)
  ∧ (Ran GitPush ∉ new)
  ∧ (∀ a b, Renamed a b ∉ new)
  ∧ ∃ before, new = before ++ [ Did (FsUnlink (initialFile prp ctx));
                                Did (Log "error" "Enrichment failed") ].
Proof.
  intros Hfail (run & -> & Hrun)%enrichPRP_run new.
  assert (Hnever : ¬ workAgentEnded we true).
  { intros (h0 & p & Hs). by rewrite Hfail in Hs. }
  unfold new. rewrite drop_app_length. clear new.
  inversion Hrun as [cfg made Hcfg Hmade Hko|cfg made Hcfg Hmade Hok
                    |e cfg made moved done Hcfg Hmade Hok
                    |cfg made moved Hcfg Hmade Hok];
    subst; try (by destruct Hnever).
  apply identity_events_setup in Hcfg. apply madeDir_setup in Hmade.
  unfold enrichStart.
  split_and!; [done|..].
  - intros d Hin. split_elem Hin;
      solve [ discriminate Hin | done
            | by apply (Forall_not_elem _ _ _ Hcfg) in Hin
            | by apply (Forall_not_elem _ _ _ Hmade) in Hin ].
  - intros m Hin. split_elem Hin;
      solve [ discriminate Hin | done
            | by apply (Forall_not_elem _ _ _ Hcfg) in Hin
            | by apply (Forall_not_elem _ _ _ Hmade) in Hin ].
  - intros Hin. split_elem Hin;
      solve [ discriminate Hin | done
            | by apply (Forall_not_elem _ _ _ Hcfg) in Hin
            | by apply (Forall_not_elem _ _ _ Hmade) in Hin ].
  - intros a b Hin. split_elem Hin;
      solve [ discriminate Hin | done
            | by apply (Forall_not_elem _ _ _ Hcfg) in Hin
            | by apply (Forall_not_elem _ _ _ Hmade) in Hin ].
  - exists ([ Did (Log "info" ("Enriching " +:+ PRPState.id prp +:+ ": "
                                +:+ PRPState.title prp +:+ "...")) ]
            ++ List.map Did cfg ++ made
            ++ [ Did (FsWrite (initialFile prp ctx)
                        (buildInitialPRP (PRPState.masterPrp prp) master));
                 Did (Log "info" "Running /generate-prp skill (10-20 min)...");
                 Did (RunClaude ("/generate-prp " +:+ dq +:+ initialFile prp ctx +:+ dq)
                        (path ctx) (enrichment (wTimeouts we))) ]).
    by rewrite <- !app_assoc.
Qed.

Lemma enrichPRP_failed_agent_commits_nothing_witness :
  ∃ h', enrichPRP failedAgentWork rawState examplePlan exampleCtx []
        = (Throw "Enrichment failed", h')
    ∧ (Ran GitPush ∉ drop (length (@nil Event)) h').
Proof.
  eexists. split; [vm_compute; reflexivity|].
  eapply (enrichPRP_failed_agent_commits_nothing failedAgentWork rawState examplePlan
            exampleCtx []); [reflexivity|vm_compute; reflexivity].
Defined.






(* ===================================================================== *)
(** ** Further properties: the choice of the workflow and the run loop *)
(* ===================================================================== *)

(** Every run of mergeApprovedPR: one merge command between two log lines;
    it fails exactly when the command fails, with the error of the command. *)
Lemma mergeApprovedPR_run we prp h r h' :
  mergeApprovedPR we prp h = (r, h') →
  let pr := showNum (PRPState.prNumber prp) in
  ∃ level message,
    h' = h ++ [ Did (Log "success" ("Merging PR #" +:+ pr +:+ "..."));
                Ran (GhPrMerge pr); Did (Log level message) ]
    ∧ match wRunMore we (h ++ [Did (Log "success" ("Merging PR #" +:+ pr +:+ "..."))])
              (GhPrMerge pr) with
      | Exit0 _ => r = Ok tt
      | ExecError e => r = Throw e
      end.
Proof.
  intros H pr. unfold mergeApprovedPR in H. fold pr in H.
  unfold bind at 1 in H. rewrite note_run in H.
  unfold tryCatch, bind at 1, execWithBot, execMore, exec in H.
  destruct (wRunMore we _ (GhPrMerge pr)) as [out|e].
  - rewrite note_run in H. injection H as <- <-.
    eexists _, _. split; [by rewrite <- !app_assoc|done].
  - unfold bind, throw in H. rewrite note_run in H. injection H as <- <-.
    eexists _, _. split; [by rewrite <- !app_assoc|done].
Qed.

Lemma embed_events {A : Type} we (m : Env -> Eff Trace A) h r h' :
  embed we m h = (r, h') → ∃ t, h' = h ++ List.map Did t.
Proof.
  unfold embed. destruct (m (envAt we h) []) as [r0 t]. intros [= _ <-]. by exists t.
Qed.

Lemma Forall_false_not_elem {A : Type} (p : A -> bool) (l : list A) (e : A) :
  Forall (fun x => p x = false) l → p e = true → e ∉ l.
Proof.
  intros Hall He Hin. rewrite Forall_forall in Hall.
  specialize (Hall e Hin). congruence.
Qed.

Lemma did_never_merges (t : list Effect) :
  Forall (fun e => isMergeCommand e = false) (List.map Did t).
Proof. induction t; constructor; done. Qed.

Lemma enrichPRP_never_merges we prp master ctx h r h' :
  enrichPRP we prp master ctx h = (r, h') →
  ∃ new, h' = h ++ new ∧ Forall (fun e => isMergeCommand e = false) new.
Proof.
  intros (run & -> & Hrun)%enrichPRP_run. exists run. split; [done|].
  assert (Hmade : ∀ made, madeDir ctx made →
                    Forall (fun e => isMergeCommand e = false) made).
  { intros made [-> | ->]; by repeat constructor. }
  assert (Hmoved : ∀ moved, Moved prp ctx moved →
                     Forall (fun e => isMergeCommand e = false) moved).
  { intros moved [|g made Hne Hm]; [constructor|].
    apply Forall_app. split; [by apply Hmade|by repeat constructor]. }
  assert (Hcommit : Forall (fun e => isMergeCommand e = false) (enrichCommit prp ctx))
    by (by repeat constructor).
  inversion Hrun as [cfg made Hcfg Hm Hko|cfg made Hcfg Hm Hok
                    |e cfg made moved done Hcfg Hm Hok Hmv Hdone Hne
                    |cfg made moved Hcfg Hm Hok Hmv];
    subst; unfold enrichStart;
    repeat (apply Forall_app; split);
    try apply did_never_merges; try (by apply Hmade); try (by apply Hmoved);
    try (by repeat constructor).
  destruct Hdone as [k Hk]. rewrite Hk in Hcommit.
  by apply Forall_app in Hcommit as [? _].
Qed.

Lemma executePRP_never_merges we prp ctx h r h' :
  executePRP we prp ctx h = (r, h') →
  ∃ new, h' = h ++ new ∧ Forall (fun e => isMergeCommand e = false) new.
Proof.
  intros (pre & Hpre & Hcases)%executePRP_run.
  assert (Hpre' : Forall (fun e => isMergeCommand e = false) pre).
  { eapply Forall_impl; [exact Hpre|]. by intros [| | |]. }
  assert (Hback : ∀ back, BackToDefault back →
                    Forall (fun e => isMergeCommand e = false) back).
  { intros back Hb%BackToDefault_steps.
    eapply Forall_impl; [exact Hb|]. by intros [| | |]. }
  assert (Hchecks : ∀ checks, Forall (fun e => isValidationStep e = true) checks →
                      Forall (fun e => isMergeCommand e = false) checks).
  { intros checks Hc. eapply Forall_impl; [exact Hc|]. by intros [|[]| |]. }
  destruct Hcases as [(e & -> & ->)|(run & -> & Hrun)].
  - by exists pre.
  - exists (pre ++ run). split; [done|]. apply Forall_app. split; [done|].
    assert (Hpub : Forall (fun e => isMergeCommand e = false)
                     (publication prp ctx
                        (executeBranch (PRPState.id prp) (PRPState.title prp))))
      by (by repeat constructor).
    inversion Hrun as [e back Hko Hb|back Hko Hb|e checks Hok Hc|e checks back Hok Hc Hb
                      |checks back Hok Hc Hb|e checks done Hok Hc Hdone Hne
                      |r' checks back Hok Hcr Hc Hb];
      subst; unfold implementStart;
      repeat (apply Forall_app; split);
      try (by apply Hback); try (by apply Hchecks); try (by repeat constructor).
    destruct Hdone as [k Hk]. rewrite Hk in Hpub.
    by apply Forall_app in Hpub as [? _].
Qed.

(** X20. executeNextAction carries out the choice of selectNext: when it
    returns, its boolean is shouldContinue of the selected action; it runs
    the merge command exactly when the choice is Merge, and then for the
    request of the selected item; it starts the agent only for Revise,
    Enrich and Execute; and when the choice is Wait or NoWork it returns
    false having done nothing but log. *)
Theorem executeNextAction_follows_selectNext
    (we : WorkEnv) (states : list PRPState.t) (master : MasterPlan)
    (ctx : ProjectContext) (h h' : History) (r : Result bool) :
  executeNextAction we states master ctx h = (r, h') →
  let new := drop (length h) h' in
  let a := selectNext states (completed master) in
  (∀ b, r = Ok b → b = shouldContinue a)
  ∧ (∀ pr, Ran (GhPrMerge pr) ∈ new
           ↔ ∃ p, a = Merge p ∧ pr = showNum (PRPState.prNumber p))
  ∧ ((∃ prompt cwd timeout, Did (RunClaude prompt cwd timeout) ∈ new) →
     ∃ p, a = Revise p ∨ a = Enrich p ∨ a = Execute p)
  ∧ ((a = NoWork ∨ ∃ p, a = Wait p) →
     r = Ok false ∧ Forall (fun e => isLogEvent e = true) new).
Proof.
  intros H new a. unfold executeNextAction in H. unfold a, selectNext. clear a.
  destruct (findApprovedPRP states) as [p|].
  { (* Merge *)
    unfold bind at 1 in H. rewrite note_run in H.
    assert (∃ r0 level message,
              h' = h ++ [ Did (Log "info" ("Found approved PR #"
                                           +:+ showNum (PRPState.prNumber p)
                                           +:+ " for " +:+ PRPState.id p));
                          Did (Log "success" ("Merging PR #"
                                              +:+ showNum (PRPState.prNumber p) +:+ "..."));
                          Ran (GhPrMerge (showNum (PRPState.prNumber p)));
                          Did (Log level message) ]
              ∧ (r = Ok true ∨ r = Throw r0)) as (r0 & level & message & -> & Hr).
    { apply bind_inv in H as [(u & s1 & Hm & H)|(e & Hm & ->)];
        apply mergeApprovedPR_run in Hm as (level & message & -> & _).
      - unfold ret in H. injection H as <- <-.
        exists "", level, message. split; [by rewrite <- !app_assoc|by left].
      - exists e, level, message. split; [by rewrite <- !app_assoc|by right]. }
    unfold new. rewrite drop_app_length. split_and!.
    - intros b Hb. destruct Hr as [-> | ->]; by simplify_eq.
    - intros pr. split.
      + intros Hin. split_elem Hin; try done. injection Hin as ->. by exists p.
      + intros (p' & [= <-] & ->). rewrite !elem_of_cons. tauto.
    - intros (prompt & cwd & timeout & Hin). by split_elem Hin.
    - by intros [?|(? & ?)]. }
  destruct (findChangesRequestedPRP states) as [p|].
  { (* Revise *)
    unfold bind at 1 in H. rewrite note_run in H.
    assert (∃ t, h' = h ++ [ Did (Log "info" ("Found changes requested on PR #"
                                             +:+ showNum (PRPState.prNumber p)
                                             +:+ " for " +:+ PRPState.id p)) ]
                        ++ List.map Did t
                 ∧ ∀ b, r = Ok b → b = false) as (t & -> & Hr).
    { apply bind_inv in H as [(u & s1 & Hm & H)|(e & Hm & ->)];
        apply embed_events in Hm as (t & ->); exists t.
      - unfold ret in H. injection H as <- <-.
        split; [by rewrite <- !app_assoc|by intros b [= <-]].
      - split; [by rewrite <- !app_assoc|done]. }
    unfold new. rewrite drop_app_length. split_and!.
    - exact Hr.
    - intros pr. split; [|by intros (? & ? & _)].
      intros Hin. split_elem Hin; try done.
      by apply (Forall_false_not_elem _ _ _ (did_never_merges t)) in Hin.
    - intros _. exists p. by left.
    - by intros [?|(? & ?)]. }
  destruct (findPendingReviewPRP states) as [p|].
  { (* Wait *)
    unfold bind at 1 in H. rewrite note_run in H.
    unfold bind at 1 in H. rewrite note_run in H.
    unfold ret in H. injection H as <- <-.
    unfold new. rewrite <- !app_assoc, drop_app_length. split_and!.
    - by intros b [= <-].
    - intros pr. split; [|by intros (? & ? & _)]. intros Hin. by split_elem Hin.
    - intros (prompt & cwd & timeout & Hin). by split_elem Hin.
    - intros _. split; [done|by repeat constructor]. }
  destruct (findNextPRP states (completed master)) as [p|].
  2: { (* NoWork *)
    unfold bind at 1 in H. rewrite note_run in H.
    unfold ret in H. injection H as <- <-.
    unfold new. rewrite drop_app_length. split_and!.
    - by intros b [= <-].
    - intros pr. split; [|by intros (? & ? & _)]. intros Hin. by split_elem Hin.
    - intros (prompt & cwd & timeout & Hin). by split_elem Hin.
    - intros _. split; [done|by repeat constructor]. }
  destruct (PRPState.isEnriched p); cbn [negb] in *.
  - (* Execute *)
    unfold bind at 1 in H. rewrite note_run in H.
    assert (∃ run, h' = h ++ [Did (Log "info" ("Next: Execute " +:+ PRPState.id p))]
                          ++ run
                   ∧ Forall (fun e => isMergeCommand e = false) run
                   ∧ ∀ b, r = Ok b → b = false) as (run & -> & Hrun & Hr).
    { apply bind_inv in H as [(u & s1 & Hm & H)|(e & Hm & ->)];
        apply executePRP_never_merges in Hm as (run & -> & Hrun); exists run.
      - unfold ret in H. injection H as <- <-.
        split; [by rewrite <- !app_assoc|]. split; [done|by intros b [= <-]].
      - split; [by rewrite <- !app_assoc|done]. }
    unfold new. rewrite drop_app_length. split_and!.
    + exact Hr.
    + intros pr. split; [|by intros (? & ? & _)].
      intros Hin. split_elem Hin; try done.
      by apply (Forall_false_not_elem _ _ _ Hrun) in Hin.
    + intros _. exists p. by right; right.
    + by intros [?|(? & ?)].
  - (* Enrich *)
    unfold bind at 1 in H. rewrite note_run in H.
    assert (∃ run, h' = h ++ [Did (Log "info" ("Next: Enrich " +:+ PRPState.id p))]
                          ++ run
                   ∧ Forall (fun e => isMergeCommand e = false) run
                   ∧ ∀ b, r = Ok b → b = true) as (run & -> & Hrun & Hr).
    { apply bind_inv in H as [(u & s1 & Hm & H)|(e & Hm & ->)];
        apply enrichPRP_never_merges in Hm as (run & -> & Hrun); exists run.
      - unfold ret in H. injection H as <- <-.
        split; [by rewrite <- !app_assoc|]. split; [done|by intros b [= <-]].
      - split; [by rewrite <- !app_assoc|done]. }
    unfold new. rewrite drop_app_length. split_and!.
    + exact Hr.
    + intros pr. split; [|by intros (? & ? & _)].
      intros Hin. split_elem Hin; try done.
      by apply (Forall_false_not_elem _ _ _ Hrun) in Hin.
    + intros _. exists p. by right; left.
    + by intros [?|(? & ?)].
Qed.

Lemma executeNextAction_follows_selectNext_witness :
  ∃ h',
    executeNextAction enrichingEnv [exampleState "a" [] (Some "open") (Some approved)]
                      examplePlan exampleCtx [] = (Ok true, h')
    ∧ true = shouldContinue
               (selectNext [exampleState "a" [] (Some "open") (Some approved)]
                           (completed examplePlan)).
Proof.
  eexists.
  assert (Hrun : executeNextAction enrichingEnv
                   [exampleState "a" [] (Some "open") (Some approved)]
                   examplePlan exampleCtx [] = (Ok true, _))
    by (vm_compute; reflexivity).
  split; [exact Hrun|].
  exact (proj1 (executeNextAction_follows_selectNext _ _ _ _ _ _ _ Hrun) true eq_refl).
Defined.

Lemma loadMasterPlan_run we ctx h :
  ∃ loaded logs,
    loadMasterPlan we ctx h = (Ok loaded, h ++ logs)
    ∧ Forall (fun e => isLogEvent e = true) logs
    ∧ (∀ master, loaded = Some master →
         logs = [] ∧ wExists we h (masterFile ctx) = true
         ∧ wReadPlan we h (masterFile ctx) = Ok (Some master)).
Proof.
  unfold loadMasterPlan. destruct (wExists we h (masterFile ctx)); cbn [negb].
  - destruct (wReadPlan we h (masterFile ctx)) as [loaded|e].
    + exists loaded, []. rewrite app_nil_r. split_and!; [done|constructor|].
      by intros master ->.
    + eexists None, [_]. split_and!; [done|by repeat constructor|done].
  - exists None, []. rewrite app_nil_r. split_and!; [done|constructor|done].
Qed.

(** X21. Without a usable master plan - the file is missing, cannot be read
    or parsed, or parses to nothing - runOrchestration returns normally
    having done nothing but log: no branch is checked out, no state is
    derived and no workflow starts. *)
Theorem runOrchestration_without_plan_only_logs
    (fuel : nat) (we : WorkEnv) (ctx : ProjectContext) (h : History) :
  wExists we h (masterFile ctx) = false
  ∨ (∃ e, wReadPlan we h (masterFile ctx) = Throw e)
  ∨ wReadPlan we h (masterFile ctx) = Ok None →
  ∃ logs, runOrchestration fuel we ctx h = (Ok (Some tt), h ++ logs)
          ∧ Forall (fun e => isLogEvent e = true) logs.
Proof.
  intros Hno. unfold runOrchestration, bind at 1.
  destruct (loadMasterPlan_run we ctx h) as (loaded & logs & -> & Hlogs & Hsome).
  destruct loaded as [master|].
  { destruct (Hsome master eq_refl) as (_ & Hex & Hread).
    destruct Hno as [Hno|[[e Hno]|Hno]]; congruence. }
  unfold bind. rewrite !note_run. unfold ret.
  eexists. split; [by rewrite <- !app_assoc|].
  apply Forall_app. split; [done|by repeat constructor].
Qed.

Lemma runOrchestration_without_plan_only_logs_witness :
  ∃ logs, runOrchestration 5 failedAgentWork exampleCtx [] = (Ok (Some tt), [] ++ logs)
          ∧ Forall (fun e => isLogEvent e = true) logs.
Proof.
  apply (runOrchestration_without_plan_only_logs 5 failedAgentWork exampleCtx []).
  left. reflexivity.
Defined.


Lemma deriveAllStates_returns w master ctx :
  ∃ states, deriveAllStates w master ctx = Ok states.
Proof.
  unfold deriveAllStates. induction (prps master) as [|prp l IH]; simpl.
  - by exists [].
  - destruct (derivePRPState_returns w prp ctx) as (st & -> & _).
    destruct IH as (sts & ->). by exists (st :: sts).
Qed.

(** Every pass of deriveAllStates: it never fails, returns the states of
    deriveAllStates, and does nothing but query and log; every item has its
    branch listing and its status line. *)
Lemma deriveStatesLogged_run w ctx (l : list MasterPRP.t) h :
  ∃ states steps,
    deriveStatesLogged w ctx l h = (Ok states, h ++ steps)
    ∧ deriveStates w ctx l = Ok states
    ∧ Forall (fun e => isDerivationStep e = true) steps
    ∧ ∀ prp, prp ∈ l →
        (Did (Exec (GitBranchListRemote
                      ("origin/" +:+ branchPrefix (MasterPRP.id prp) +:+ "*"))) ∈ steps)
        ∧ ∃ st, st ∈ states
                ∧ Did (Log "info" (MasterPRP.id prp +:+ ": " +:+ statusLine st)) ∈ steps.
Proof.
  revert h. induction l as [|prp l IH]; intros h.
  - exists [], []. rewrite app_nil_r. split_and!; [done|done|constructor|].
    intros prp Hin. by apply elem_of_nil in Hin.
  - cbn [deriveStatesLogged deriveStates].
    destruct (derivePRPState_returns w prp ctx) as (st & Hst & _).
    unfold bind at 1, lift. rewrite Hst.
    unfold bind at 1, modify. unfold bind at 1. rewrite note_run.
    unfold bind at 1.
    match goal with
    | |- context [deriveStatesLogged w ctx l ?h1] =>
        destruct (IH h1) as (states & steps & -> & Hpure & Hsteps & Hitems)
    end.
    rewrite Hpure. unfold ret.
    exists (st :: states),
           (derivationQueries w prp
            ++ [Did (Log "info" (MasterPRP.id prp +:+ ": " +:+ statusLine st))]
            ++ steps).
    split_and!.
    + by rewrite <- !app_assoc.
    + done.
    + apply Forall_app. split; [|apply Forall_app; split; [by repeat constructor|done]].
      unfold derivationQueries.
      apply Forall_app. split; [by repeat constructor|]. apply Forall_app. split.
      * destruct (listedBranch w prp) as [b|]; [|constructor].
        destruct (JS.truthy b); by repeat constructor.
      * destruct (JS.falsyNum _); by repeat constructor.
    + intros prp' [-> | Hin]%elem_of_cons.
      * split.
        -- unfold derivationQueries. rewrite !elem_of_app, elem_of_cons. tauto.
        -- exists st. split; [left|]. rewrite !elem_of_app, elem_of_cons. tauto.
      * destruct (Hitems prp' Hin) as (Hlist & st' & Hst' & Hline). split.
        -- rewrite !elem_of_app. tauto.
        -- exists st'. split; [by right|]. rewrite !elem_of_app. tauto.
Qed.

Lemma deriveAllStatesLogged_run we master ctx h :
  ∃ states steps,
    deriveAllStatesLogged we master ctx h = (Ok states, h ++ steps)
    ∧ deriveAllStates (wWorld we h) master ctx = Ok states
    ∧ Forall (fun e => isDerivationStep e = true) steps
    ∧ ∀ prp, prp ∈ prps master →
        (Did (Exec (GitBranchListRemote
                      ("origin/" +:+ branchPrefix (MasterPRP.id prp) +:+ "*"))) ∈ steps)
        ∧ ∃ st, st ∈ states
                ∧ Did (Log "info" (MasterPRP.id prp +:+ ": " +:+ statusLine st)) ∈ steps.
Proof. apply deriveStatesLogged_run. Qed.



Lemma mergeApprovedPR_ok we prp h :
  (∀ h0, ∃ out, wRunMore we h0 (GhPrMerge (showNum (PRPState.prNumber prp))) = Exit0 out) →
  mergeApprovedPR we prp h
  = (Ok tt,
     h ++ [ Did (Log "success" ("Merging PR #" +:+ showNum (PRPState.prNumber prp)
                                +:+ "..."));
            Ran (GhPrMerge (showNum (PRPState.prNumber prp)));
            Did (Log "success" ("PR #" +:+ showNum (PRPState.prNumber prp)
                                +:+ " merged successfully")) ]).
Proof.
  intros Hmerge. unfold mergeApprovedPR.
  unfold bind at 1. rewrite note_run.
  unfold tryCatch, bind at 1, execWithBot, execMore, exec.
  destruct (Hmerge (h ++ [Did (Log "success"
                                 ("Merging PR #" +:+ showNum (PRPState.prNumber prp)
                                  +:+ "..."))])) as [out ->].
  rewrite note_run. by rewrite <- !app_assoc.
Qed.

(** X23. The run loop has no bound of its own.  While the platform keeps
    reporting one and the same open request as approved and accepts the
    merge command - as it does when a merge is only queued - every round
    selects Merge again: whatever the number of rounds allowed, the loop
    uses them all, issuing the merge command once per round; besides, it
    only derives the states again - the queries and status lines of
    deriveAllStates - and logs. *)
Theorem runLoop_repeats_merge_while_approved
    (we : WorkEnv) (master : MasterPlan) (ctx : ProjectContext)
    (states : list PRPState.t) (p : PRPState.t) :
  (∀ h, deriveAllStates (wWorld we h) master ctx = Ok states) →
  findApprovedPRP states = Some p →
  (∀ h, ∃ out, wRunMore we h (GhPrMerge (showNum (PRPState.prNumber p))) = Exit0 out) →
  ∀ fuel h,
    ∃ new, runLoop fuel we master ctx h = (Ok None, h ++ new)
           ∧ length (List.filter isMergeCommand new) = fuel
           ∧ Forall (fun e => isMergeCommand e || isDerivationStep e = true) new.
Proof.
  intros Hderive Hfind Hmerge.
  assert (Hopen : isComplete states = false).
  { destruct (isComplete states) eqn:Hc; [|done].
    apply isComplete_Forall in Hc. rewrite Forall_forall in Hc.
    apply findApprovedPRP_Some, FirstSuch_elem in Hfind as (Hin & Hp & _).
    specialize (Hc p Hin). congruence. }
  induction fuel as [|fuel IH]; intros h.
  - exists []. rewrite app_nil_r. by split_and!.
  - cbn [runLoop]. unfold bind at 1.
    destruct (deriveAllStatesLogged_run we master ctx h)
      as (states' & steps & -> & Hstates & Hsteps & _).
    rewrite Hderive in Hstates. injection Hstates as <-.
    rewrite Hopen.
    unfold bind at 1, executeNextAction. rewrite Hfind.
    unfold bind at 1. rewrite note_run.
    unfold bind at 1. rewrite (mergeApprovedPR_ok we p _ Hmerge).
    unfold ret at 1. cbn [negb].
    unfold bind at 1. rewrite note_run.
    match goal with
    | |- context [runLoop fuel we master ctx ?st] =>
        destruct (IH st) as (new & -> & Hcount & Hall)
    end.
    exists (steps
            ++ [ Did (Log "info" ("Found approved PR #" +:+ showNum (PRPState.prNumber p)
                                  +:+ " for " +:+ PRPState.id p));
                 Did (Log "success" ("Merging PR #" +:+ showNum (PRPState.prNumber p)
                                     +:+ "..."));
                 Ran (GhPrMerge (showNum (PRPState.prNumber p)));
                 Did (Log "success" ("PR #" +:+ showNum (PRPState.prNumber p)
                                     +:+ " merged successfully"));
                 Did (Log "info" "Continuing to next action...") ] ++ new).
    split_and!.
    + by rewrite <- !app_assoc.
    + rewrite !List.filter_app, !length_app, Hcount.
      assert (Hnone : List.filter isMergeCommand steps = []).
      { clear -Hsteps. induction Hsteps as [|x l Hx _ IHl]; [done|].
        cbn [List.filter]. rewrite IHl.
        by destruct x as [[[]| | | |]|[]| |]. }
      rewrite Hnone. cbn. done.
    + repeat (apply Forall_app; split); [|by repeat constructor|done].
      eapply Forall_impl; [exact Hsteps|]. intros x Hx. by rewrite Hx, orb_true_r.
Qed.

Lemma runLoop_repeats_merge_while_approved_witness :
  ∃ new, runLoop 3 queueingEnv examplePlan exampleCtx [] = (Ok None, [] ++ new)
         ∧ length (List.filter isMergeCommand new) = 3.
Proof.
  assert (Hd : ∃ st, ∀ h : History,
                 deriveAllStates (wWorld queueingEnv h) examplePlan exampleCtx = Ok [st]
                 ∧ findApprovedPRP [st] = Some st).
  { eexists. intros h. split; vm_compute; reflexivity. }
  destruct Hd as (st & Hd).
  destruct (runLoop_repeats_merge_while_approved queueingEnv examplePlan exampleCtx
              [st] st (fun h => proj1 (Hd h)) (proj2 (Hd []))
              (fun h => ex_intro _ "" eq_refl) 3 [])
    as (new & Hrun & Hcount & _).
  by exists new.
Defined.

(* ===================================================================== *)
(** ** Further properties: utils.ts, formatDuration *)
(* ===================================================================== *)

(** X24. formatDuration shows whole seconds below one minute, minutes and
    the seconds of the minute below one hour, and from one hour on hours and
    the minutes of the hour only: the seconds are dropped. *)
Theorem formatDuration_by_range (ms : Z) :
  ((ms < 60000)%Z → formatDuration ms = pretty (ms / 1000)%Z +:+ "s")
  ∧ ((60000 ≤ ms < 3600000)%Z →
     formatDuration ms
     = pretty (ms / 60000)%Z +:+ "m " +:+ pretty ((ms / 1000) `mod` 60)%Z +:+ "s")
  ∧ ((3600000 ≤ ms)%Z →
     formatDuration ms
     = pretty (ms / 3600000)%Z +:+ "h " +:+ pretty ((ms / 60000) `mod` 60)%Z +:+ "m").
Proof.
  unfold formatDuration.
  assert (Hmin : (ms / 1000 / 60 = ms / 60000)%Z)
    by (rewrite Z.div_div by lia; reflexivity).
  assert (Hhour : (ms / 1000 / 60 / 60 = ms / 3600000)%Z)
    by (rewrite !Z.div_div by lia; reflexivity).
  rewrite Hhour, Hmin. split_and!.
  - intros Hlt.
    assert (ms / 60000 <= 0)%Z by (apply Z.lt_succ_r, Z.div_lt_upper_bound; lia).
    assert (ms / 3600000 <= 0)%Z by (apply Z.lt_succ_r, Z.div_lt_upper_bound; lia).
    destruct (Z.ltb_spec 0 (ms / 3600000)); [lia|].
    destruct (Z.ltb_spec 0 (ms / 60000)); [lia|done].
  - intros [Hge Hlt].
    assert (ms / 3600000 <= 0)%Z by (apply Z.lt_succ_r, Z.div_lt_upper_bound; lia).
    assert (1 <= ms / 60000)%Z by (apply Z.div_le_lower_bound; lia).
    destruct (Z.ltb_spec 0 (ms / 3600000)); [lia|].
    destruct (Z.ltb_spec 0 (ms / 60000)); [|lia].
    rewrite Z.rem_mod_nonneg; [done| |lia].
    apply Z.div_pos; lia.
  - intros Hge.
    assert (1 <= ms / 3600000)%Z by (apply Z.div_le_lower_bound; lia).
    destruct (Z.ltb_spec 0 (ms / 3600000)); [|lia].
    rewrite Z.rem_mod_nonneg; [done| |lia].
    apply Z.div_pos; lia.
Qed.

Lemma formatDuration_by_range_witness :
  formatDuration 3725000
  = pretty (3725000 / 3600000)%Z +:+ "h " +:+ pretty ((3725000 / 60000) `mod` 60)%Z +:+ "m".
Proof. apply (formatDuration_by_range 3725000). lia. Defined.

(* ===================================================================== *)
(** ** Further properties: skills.ts *)
(* ===================================================================== *)

Lemma diskExists_spec d p :
  diskExists d p = true ↔ is_Some (diskFiles d !! p) ∨ p ∈ diskDirs d.
Proof. unfold diskExists. by rewrite orb_true_iff, !bool_decide_eq_true. Qed.

Lemma diskEnsureDir_keeps dir d p :
  diskExists d p = true →
  diskExists (diskEnsureDir dir d) p = true
  ∧ diskFiles (diskEnsureDir dir d) !! p = diskFiles d !! p.
Proof.
  intros Hp. unfold diskEnsureDir. destruct (diskExists d dir); [done|].
  split; [|done]. apply diskExists_spec in Hp as [Hp|Hp]; apply diskExists_spec; simpl.
  - by left.
  - right. apply elem_of_union. by right.
Qed.

Lemma installSkill_keeps dir acc entry p :
  diskExists acc.1 p = true →
  diskExists (installSkill dir false acc entry).1 p = true
  ∧ diskFiles (installSkill dir false acc entry).1 !! p = diskFiles acc.1 !! p.
Proof.
  intros Hp. unfold installSkill.
  destruct (diskExists acc.1 (JS.pathJoin dir entry.1)) eqn:He; simpl; [done|].
  assert (Hne : JS.pathJoin dir entry.1 ≠ p)
    by (intros Heq; rewrite Heq in He; congruence).
  split; [|by apply lookup_insert_ne].
  apply diskExists_spec in Hp as [Hp|Hp]; apply diskExists_spec; simpl.
  - left. by rewrite lookup_insert_ne.
  - by right.
Qed.

Lemma installSkill_installs dir acc entry :
  diskExists (installSkill dir false acc entry).1 (JS.pathJoin dir entry.1) = true.
Proof.
  unfold installSkill.
  destruct (diskExists acc.1 (JS.pathJoin dir entry.1)) eqn:He; simpl; [done|].
  apply diskExists_spec. left. simpl. rewrite lookup_insert_eq. by eexists.
Qed.

Lemma install_all_keeps dir (l : list (string * string)) acc p :
  diskExists acc.1 p = true →
  diskExists (fold_left (installSkill dir false) l acc).1 p = true
  ∧ diskFiles (fold_left (installSkill dir false) l acc).1 !! p = diskFiles acc.1 !! p.
Proof.
  revert acc. induction l as [|entry l IH]; intros acc Hp; simpl; [done|].
  destruct (installSkill_keeps dir acc entry p Hp) as (Hex & Hsame).
  destruct (IH _ Hex) as (Hex' & Hsame'). split; [done|congruence].
Qed.

Lemma install_all_installs dir (l : list (string * string)) acc entry :
  entry ∈ l →
  diskExists (fold_left (installSkill dir false) l acc).1 (JS.pathJoin dir entry.1) = true.
Proof.
  revert acc. induction l as [|x l IH]; intros acc Hin; simpl.
  - by apply elem_of_nil in Hin.
  - apply elem_of_cons in Hin as [-> | Hin]; [|by apply IH].
    apply install_all_keeps, installSkill_installs.
Qed.

Lemma checkProjectSkills_installed projectPath d :
  installed (checkProjectSkills projectPath d) = true
  ↔ ∀ skill, skill ∈ requiredSkills →
      diskExists d (JS.pathJoin (getProjectSkillsDir projectPath) skill) = true.
Proof.
  unfold checkProjectSkills, requiredSkills. cbn [installed List.filter].
  split.
  - intros Hnone skill Hin.
    destruct (diskExists d (JS.pathJoin _ "execute-prp.md")) eqn:H1;
      destruct (diskExists d (JS.pathJoin _ "generate-prp.md")) eqn:H2;
      try discriminate Hnone.
    apply elem_of_cons in Hin as [-> | Hin]; [done|].
    apply elem_of_cons in Hin as [-> | Hin]; [done|].
    by apply elem_of_nil in Hin.
  - intros Hall.
    rewrite (Hall "execute-prp.md"), (Hall "generate-prp.md"); [done|..];
      rewrite !elem_of_cons; tauto.
Qed.

Section skill_facts.

Variables (executePrp generatePrp verifyPrp : string).

Lemma installSkillsToProject_result projectPath d :
  let d' := (installSkillsToProject executePrp generatePrp verifyPrp projectPath false d).1 in
  installed (checkProjectSkills projectPath d') = true
  ∧ ∀ p, diskExists d p = true →
         diskExists d' p = true ∧ diskFiles d' !! p = diskFiles d !! p.
Proof.
  unfold installSkillsToProject. split.
  - apply checkProjectSkills_installed. intros skill Hin.
    unfold requiredSkills in Hin.
    apply elem_of_cons in Hin as [-> | Hin].
    { apply (install_all_installs _ _ _ ("execute-prp.md", executePrp)).
      unfold SKILLS. rewrite !elem_of_cons. tauto. }
    apply elem_of_cons in Hin as [-> | Hin]; [|by apply elem_of_nil in Hin].
    apply (install_all_installs _ _ _ ("generate-prp.md", generatePrp)).
    unfold SKILLS. rewrite !elem_of_cons. tauto.
  - intros p Hp.
    destruct (diskEnsureDir_keeps (getProjectSkillsDir projectPath) d p Hp)
      as (Hex & Hsame).
    destruct (install_all_keeps (getProjectSkillsDir projectPath)
                (SKILLS executePrp generatePrp verifyPrp)
                (diskEnsureDir (getProjectSkillsDir projectPath) d, []) p Hex)
      as (Hex' & Hsame').
    split; [exact Hex'|]. etransitivity; [exact Hsame'|exact Hsame].
Qed.

(** X25. After ensureProjectSkills both required skills exist in the
    project.  It never changes or removes anything that existed before, so
    a skill file edited in the project is kept.  When both required skills
    are there it does nothing at all - the third skill, verify-prp, is only
    ever installed along with a missing required one - and running it a
    second time does nothing. *)
Theorem ensureProjectSkills_installs_without_overwriting
    (projectPath : string) (d : Disk) :
  let ensure := ensureProjectSkills executePrp generatePrp verifyPrp projectPath in
  installed (checkProjectSkills projectPath (ensure d).1) = true
  ∧ (∀ p, diskExists d p = true →
          diskExists (ensure d).1 p = true
          ∧ diskFiles (ensure d).1 !! p = diskFiles d !! p)
  ∧ (installed (checkProjectSkills projectPath d) = true → ensure d = (d, []))
  ∧ ensure (ensure d).1 = ((ensure d).1, []).
Proof.
  intros ensure.
  assert (Hnoop : ∀ d0, installed (checkProjectSkills projectPath d0) = true →
                        ensure d0 = (d0, [])).
  { intros d0 H0. unfold ensure, ensureProjectSkills. by rewrite H0. }
  assert (Hinst : installed (checkProjectSkills projectPath (ensure d).1) = true).
  { unfold ensure, ensureProjectSkills.
    destruct (installed (checkProjectSkills projectPath d)) eqn:Hc; cbn [negb]; [done|].
    pose proof (installSkillsToProject_result projectPath d) as [Hres _].
    by destruct (installSkillsToProject _ _ _ projectPath false d). }
  split_and!; [done| |exact (Hnoop d)|by apply Hnoop].
  intros p Hp. unfold ensure, ensureProjectSkills.
  destruct (installed (checkProjectSkills projectPath d)) eqn:Hc; cbn [negb]; [done|].
  pose proof (installSkillsToProject_result projectPath d) as [_ Hres].
  specialize (Hres p Hp).
  by destruct (installSkillsToProject _ _ _ projectPath false d).
Qed.

End skill_facts.

Lemma ensureProjectSkills_installs_without_overwriting_witness :
  ensureProjectSkills "execute" "generate" "verify" "/work/demo" skilledDisk
  = (skilledDisk, []).
Proof.
  refine (proj1 (proj2 (proj2 (ensureProjectSkills_installs_without_overwriting
                                 "execute" "generate" "verify" "/work/demo"
                                 skilledDisk))) _).
  vm_compute. reflexivity.
Defined.

(* ===================================================================== *)
(** ** Further properties: checkPrerequisites and runProject *)
(* ===================================================================== *)

Lemma install_all_logs dir force (l : list (string * string)) acc :
  Forall (fun e => isLogEvent e = true) acc.2 →
  Forall (fun e => isLogEvent e = true) (fold_left (installSkill dir force) l acc).2.
Proof.
  revert acc. induction l as [|entry l IH]; intros acc Hacc; simpl; [done|].
  apply IH. unfold installSkill.
  destruct (diskExists acc.1 _ && negb force); [done|]. simpl.
  apply Forall_app. split; [done|by repeat constructor].
Qed.

Section run_facts.

Variables (executePrp generatePrp verifyPrp : string).

Lemma ensureProjectSkills_logs projectPath d :
  Forall (fun e => isLogEvent e = true)
    (ensureProjectSkills executePrp generatePrp verifyPrp projectPath d).2.
Proof.
  unfold ensureProjectSkills.
  destruct (installed (checkProjectSkills projectPath d)); cbn [negb]; [constructor|].
  pose proof (install_all_logs (getProjectSkillsDir projectPath) false
                (SKILLS executePrp generatePrp verifyPrp)
                (diskEnsureDir (getProjectSkillsDir projectPath) d, [])
                (Forall_nil_2 _)) as Hlogs.
  unfold installSkillsToProject.
  destruct (fold_left _ _ _) as [d' logs]. by constructor.
Qed.

(** Every run of checkPrerequisites: the skills are ensured, both probes
    are run, and the answer is [ok]. *)
Lemma checkPrerequisites_run we ctx (s : History * Disk) :
  checkPrerequisites executePrp generatePrp verifyPrp we ctx s
  = (Ok {| ok := true; error := None |},
     (s.1 ++ (ensureProjectSkills executePrp generatePrp verifyPrp (path ctx) s.2).2
          ++ [Ran GhAuthStatus; Ran GitStatus],
      (ensureProjectSkills executePrp generatePrp verifyPrp (path ctx) s.2).1)).
Proof.
  unfold checkPrerequisites. unfold bind at 1, onDisk.
  destruct (ensureProjectSkills _ _ _ (path ctx) s.2) as [d' logs]. cbn [fst snd].
  unfold bind at 1, tryCatch at 1, bind at 1, onHistory at 1. cbn [fst snd].
  rewrite execMore_silent. unfold ret at 1.
  unfold bind at 1, tryCatch at 1, bind at 1, onHistory at 1. cbn [fst snd].
  rewrite execMore_silent. unfold ret. by rewrite <- !app_assoc.
Qed.

(** X26. checkPrerequisites never reports an error and never fails:
    because it probes [gh auth status] and [git status] silently, neither
    probe can raise, so a missing login or a directory that is no
    repository goes unnoticed here.  Both probes are always run, after the
    skills have been ensured. *)
Theorem checkPrerequisites_never_reports_an_error
    (we : WorkEnv) (ctx : ProjectContext) (s : History * Disk) :
  let run := checkPrerequisites executePrp generatePrp verifyPrp we ctx s in
  run.1 = Ok {| ok := true; error := None |}
  ∧ (∃ logs, run.2.1 = s.1 ++ logs ++ [Ran GhAuthStatus; Ran GitStatus]
             ∧ Forall (fun e => isLogEvent e = true) logs)
  ∧ run.2.2 = (ensureProjectSkills executePrp generatePrp verifyPrp (path ctx) s.2).1.
Proof.
  intros run. unfold run. rewrite checkPrerequisites_run. cbn [fst snd].
  split_and!; [done| |done].
  eexists. split; [done|]. apply ensureProjectSkills_logs.
Qed.




End run_facts.


(* ===================================================================== *)
(** ** Further properties: config.ts *)
(* ===================================================================== *)

Lemma registered_spec name resolvedPath p :
  registered name resolvedPath p = true
  ↔ entry_path p = resolvedPath ∨ entry_name p = name.
Proof. unfold registered. by rewrite orb_true_iff, !String.eqb_eq. Qed.

Lemma NoDup_snoc {A : Type} (l : list A) (x : A) :
  NoDup l → x ∉ l → NoDup (l ++ [x]).
Proof.
  intros Hl Hx. apply NoDup_app. split_and!; [done| |apply NoDup_singleton].
  intros y Hy ->%list_elem_of_singleton. done.
Qed.

(** X28. addProject fails exactly when the path does not exist or an entry
    with that name or that path is registered already; otherwise it appends
    one enabled entry and changes nothing else.  So it keeps the names and
    the paths of the registered projects free of duplicates. *)
Theorem addProject_keeps_entries_unique
    (config : GlobalConfig) (name resolvedPath : string) (pathExists : bool) :
  ((∃ e, addProject config name resolvedPath pathExists = Throw e)
   ↔ pathExists = false
     ∨ name ∈ List.map entry_name (projects config)
     ∨ resolvedPath ∈ List.map entry_path (projects config))
  ∧ ∀ config', addProject config name resolvedPath pathExists = Ok config' →
      projects config'
      = projects config ++ [ {| entry_name := name; entry_path := resolvedPath;
                                entry_enabled := true; entry_masterFile := None |} ]
      ∧ defaults config' = defaults config ∧ bot config' = bot config
      ∧ (NoDup (List.map entry_name (projects config)) →
         NoDup (List.map entry_name (projects config')))
      ∧ (NoDup (List.map entry_path (projects config)) →
         NoDup (List.map entry_path (projects config'))).
Proof.
  unfold addProject.
  destruct pathExists; cbn [negb].
  2: { split; [|done]. split; [by left|by eexists]. }
  destruct (List.find (registered name resolvedPath) (projects config)) as [x|] eqn:Hfind.
  - apply find_some in Hfind as [Hin Hreg].
    apply registered_spec in Hreg. apply list_elem_of_In in Hin.
    split; [|done]. split; [|by eexists]. intros _. right.
    destruct Hreg as [<- | <-]; [right|left];
      apply list_elem_of_In, in_map, list_elem_of_In, Hin.
  - assert (Hfree : (name ∉ List.map entry_name (projects config))
                    ∧ (resolvedPath ∉ List.map entry_path (projects config))).
    { split; intros (p & Hp & Hin)%list_elem_of_In%in_map_iff;
        pose proof (find_none _ _ Hfind p Hin) as Hno;
        apply not_true_iff_false in Hno; apply Hno, registered_spec; tauto. }
    destruct Hfree as [Hname Hpath]. split.
    + split; [by intros [e [=]]|]. intros [[=]|[?|?]]; done.
    + intros config' [= <-]. cbn [projects defaults bot].
      split_and!; try done.
      * intros Hnd. rewrite List.map_app. by apply NoDup_snoc.
      * intros Hnd. rewrite List.map_app. by apply NoDup_snoc.
Qed.

Lemma addProject_keeps_entries_unique_witness :
  ∃ config',
    addProject demoConfig "other" "/work/other" true = Ok config'
    ∧ NoDup (List.map entry_name (projects config')).
Proof.
  eexists. split; [reflexivity|].
  refine (proj1 (proj2 (proj2 (proj2
            (proj2 (addProject_keeps_entries_unique demoConfig "other" "/work/other" true)
               _ eq_refl)))) _).
  apply NoDup_singleton.
Defined.

Lemma spliceFirst_none {A : Type} (f : A -> bool) (l : list A) :
  Forall (fun x => f x = false) l → spliceFirst f l = None.
Proof. induction 1 as [|x l Hx _ IH]; simpl; [done|]. by rewrite Hx, IH. Qed.

Lemma spliceFirst_snoc {A : Type} (f : A -> bool) (l : list A) (x : A) :
  Forall (fun y => f y = false) l → f x = true → spliceFirst f (l ++ [x]) = Some l.
Proof.
  intros Hl Hx. induction Hl as [|y l Hy _ IH]; simpl; [by rewrite Hx|].
  by rewrite Hy, IH.
Qed.

(** X29. removeProject removes the first entry whose name is its argument
    or whose path is the resolution of its argument.  Removing by name a
    project that addProject has just registered gives back the
    configuration as it was, provided the resolution of the name is not the
    path of an earlier entry; if it is, that earlier entry is the one
    removed. *)
Theorem removeProject_undoes_addProject
    (config config' : GlobalConfig) (name projectPath resolvedName : string)
    (pathExists : bool) :
  addProject config name projectPath pathExists = Ok config' →
  (resolvedName ∉ List.map entry_path (projects config) →
   removeProject config' name resolvedName = Ok config)
  ∧ ∀ pre x post,
      projects config = pre ++ x :: post → entry_path x = resolvedName →
      resolvedName ∉ List.map entry_path pre →
      ∃ kept, removeProject config' name resolvedName = Ok kept
              ∧ projects kept
                = pre ++ post
                  ++ [ {| entry_name := name; entry_path := projectPath;
                          entry_enabled := true; entry_masterFile := None |} ].
Proof.
  intros Hadd.
  destruct (addProject_keeps_entries_unique config name projectPath pathExists)
    as [Hthrows Hok].
  destruct (Hok config' Hadd) as (Hprojects & Hdefaults & Hbot & _).
  assert (Hfresh : name ∉ List.map entry_name (projects config)).
  { intros Hin. assert (∃ e, addProject config name projectPath pathExists = Throw e)
      as [e He] by (apply Hthrows; tauto). congruence. }
  assert (Hmiss : ∀ l, l ⊆ projects config →
                       resolvedName ∉ List.map entry_path l →
                       Forall (fun p => String.eqb (entry_name p) name
                                        || String.eqb (entry_path p) resolvedName = false) l).
  { intros l Hsub Hno. apply Forall_forall. intros p Hp.
    apply orb_false_iff. split; apply String.eqb_neq.
    - intros Heq. apply Hfresh. rewrite <- Heq.
      apply list_elem_of_In, in_map, list_elem_of_In, Hsub, Hp.
    - intros Heq. apply Hno. rewrite <- Heq.
      by apply list_elem_of_In, in_map, list_elem_of_In. }
  split.
  - intros Hno. unfold removeProject. rewrite Hprojects.
    rewrite spliceFirst_snoc.
    + destruct config; cbn in *. by rewrite Hdefaults, Hbot.
    + by apply Hmiss.
    + cbn. by rewrite String.eqb_refl.
  - intros pre x post Hsplit Hx Hpre. unfold removeProject.
    rewrite Hprojects, Hsplit, <- app_assoc. cbn [app].
    assert (Hgo : ∀ l rest, Forall (fun p => String.eqb (entry_name p) name
                                             || String.eqb (entry_path p) resolvedName
                                             = false) l →
              spliceFirst (fun p => String.eqb (entry_name p) name
                                    || String.eqb (entry_path p) resolvedName)
                          (l ++ x :: rest) = Some (l ++ rest)).
    { intros l rest Hl. induction Hl as [|y l Hy _ IH]; simpl.
      - by rewrite Hx, String.eqb_refl, orb_true_r.
      - by rewrite Hy, IH. }
    rewrite Hgo.
    + by eexists.
    + apply Hmiss; [|done]. rewrite Hsplit. set_solver.
Qed.

Lemma removeProject_undoes_addProject_witness :
  ∃ config',
    addProject demoConfig "other" "/work/other" true = Ok config'
    ∧ removeProject config' "other" "/home/me/other" = Ok demoConfig.
Proof.
  eexists. split; [reflexivity|].
  apply (removeProject_undoes_addProject demoConfig _ "other" "/work/other"
           "/home/me/other" true eq_refl).
  vm_compute. intros Hin. repeat (apply elem_of_cons in Hin as [Hin|Hin]; [done|]).
  by apply elem_of_nil in Hin.
Defined.

Lemma string_app_inj_r (s p q : string) : p +:+ s = q +:+ s → p = q.
Proof.
  revert q. induction p as [|c p IH]; intros [|d q] Heq; [done| | |].
  - apply (f_equal String.length) in Heq.
    rewrite !length_app_string in Heq. cbn [String.length] in Heq. lia.
  - apply (f_equal String.length) in Heq.
    rewrite !length_app_string in Heq. cbn [String.length] in Heq. lia.
  - change (String c (p +:+ s) = String d (q +:+ s)) in Heq.
    injection Heq as -> Heq. by rewrite (IH q Heq).
Qed.

Lemma splitOn_cons (sep : ascii) (s : string) :
  ∃ part rest, JS.splitOn sep s = part :: rest.
Proof.
  induction s as [|c s (part & rest & IH)]; cbn [JS.splitOn]; [by eexists _, _|].
  rewrite IH. destruct (Ascii.eqb c sep); by eexists _, _.
Qed.

Lemma splitOn_app_sep (sep : ascii) (p q : string) :
  JS.splitOn sep (p +:+ String sep q) = JS.splitOn sep p ++ JS.splitOn sep q.
Proof.
  induction p as [|c p IH]; cbn [JS.splitOn].
  - change ("" +:+ String sep q) with (String sep q). cbn [JS.splitOn].
    by rewrite Ascii.eqb_refl.
  - change (String c p +:+ String sep q) with (String c (p +:+ String sep q)).
    cbn [JS.splitOn]. rewrite IH.
    destruct (Ascii.eqb c sep); [done|].
    by destruct (splitOn_cons sep p) as (part & rest & ->).
Qed.

Lemma endsWithChar_app (c : ascii) (s t : string) :
  t ≠ "" → JS.endsWithChar c (s +:+ t) = JS.endsWithChar c t.
Proof.
  intros Ht. induction s as [|a s IH]; [done|].
  change (String a s +:+ t) with (String a (s +:+ t)). cbn [JS.endsWithChar].
  rewrite IH. destruct (s +:+ t) eqn:Hst; [|done].
  destruct s; [|done]. by destruct t.
Qed.

Lemma join_snoc (sep : string) (l : list string) (x : string) :
  l ≠ [] → JS.join sep (l ++ [x]) = JS.join sep l +:+ sep +:+ x.
Proof.
  induction l as [|a l IH]; [done|]. intros _.
  destruct l as [|b l]; [done|].
  change (JS.join sep ((a :: b :: l) ++ [x]))
    with (a +:+ sep +:+ JS.join sep ((b :: l) ++ [x])).
  rewrite IH by done.
  change (JS.join sep (a :: b :: l)) with (a +:+ sep +:+ JS.join sep (b :: l)).
  by rewrite !string_app_assoc.
Qed.

Lemma string_app_empty_r (s : string) : s +:+ "" = s.
Proof.
  induction s as [|c s IH]; [done|].
  change (String c s +:+ "") with (String c (s +:+ "")). by rewrite IH.
Qed.

(** On a resolved directory [path.join] with the name of the lock file is
    the plain concatenation, but for the root. *)
Lemma pathJoin_resolved_lock (p : string) :
  isResolved p = true →
  JS.pathJoin p ".prp-lock"
  = if String.eqb p "/" then "/.prp-lock" else p +:+ "/.prp-lock".
Proof.
  unfold isResolved. intros [[Habs Hnorm]%andb_true_iff Hend]%andb_true_iff.
  apply String.eqb_eq in Hnorm.
  destruct (String.eqb p "/") eqn:Hroot.
  { apply String.eqb_eq in Hroot as ->. reflexivity. }
  cbn [orb] in Hend. apply negb_true_iff in Hend.
  destruct p as [|c r]; [done|].
  assert (Hc : Ascii.eqb c "/" = true) by by rewrite startsWith_char_cons in Habs.
  change (JS.pathJoin (String c r) ".prp-lock")
    with (JS.normalize (String c r +:+ "/" +:+ ".prp-lock")).
  set (L := fold_left (JS.normalizePart false) (JS.splitOn "/" (String c r)) []).
  assert (Hp : JS.join "/" L ≠ "" ∧ String c r = "/" +:+ JS.join "/" L).
  { unfold JS.normalize in Hnorm. rewrite Hc, Hend in Hnorm. cbn [negb] in Hnorm.
    unfold JS.normalizeString in Hnorm. fold L in Hnorm.
    destruct (JS.join "/" L) as [|a res] eqn:HL.
    - rewrite <- Hnorm in Hroot. done.
    - split; [done|]. by rewrite string_app_empty_r in Hnorm. }
  destruct Hp as [HLne Hp].
  assert (HL : L ≠ []) by (intros HL; by rewrite HL in HLne).
  change (String c r +:+ "/" +:+ ".prp-lock")
    with (String c (r +:+ String "/" ".prp-lock")).
  unfold JS.normalize. rewrite Hc. cbn [negb].
  change (String c (r +:+ String "/" ".prp-lock"))
    with (String c r +:+ String "/" ".prp-lock").
  rewrite endsWithChar_app by done.
  change (JS.endsWithChar "/" (String "/" ".prp-lock")) with false.
  unfold JS.normalizeString. rewrite splitOn_app_sep, fold_left_app. fold L.
  change (fold_left (JS.normalizePart false) (JS.splitOn "/" ".prp-lock") L)
    with (L ++ [".prp-lock"]).
  rewrite join_snoc by done.
  destruct (JS.join "/" L +:+ "/" +:+ ".prp-lock") as [|a res] eqn:Hres.
  { destruct (JS.join "/" L); discriminate Hres. }
  rewrite <- Hres, string_app_empty_r. clearbody L. rewrite Hp.
  by rewrite !string_app_assoc.
Qed.

Lemma pathJoin_resolved_lock_inj (p q : string) :
  isResolved p = true → isResolved q = true →
  JS.pathJoin p ".prp-lock" = JS.pathJoin q ".prp-lock" → p = q.
Proof.
  intros Hp Hq. rewrite (pathJoin_resolved_lock p Hp), (pathJoin_resolved_lock q Hq).
  assert (Hroot : ∀ x, isResolved x = true → "/.prp-lock" = x +:+ "/.prp-lock" → False).
  { intros x Hx Heq. apply (string_app_inj_r "/.prp-lock" "" x) in Heq.
    by rewrite <- Heq in Hx. }
  destruct (String.eqb p "/") eqn:Hproot, (String.eqb q "/") eqn:Hqroot; intros Heq.
  - apply String.eqb_eq in Hproot, Hqroot. congruence.
  - by destruct (Hroot q Hq Heq).
  - by destruct (Hroot p Hp (eq_sym Heq)).
  - by apply (string_app_inj_r "/.prp-lock").
Qed.

(** X30. getEnabledProjects answers one context per enabled entry, in the
    order of the configuration, with the lock file [.prp-lock] joined to the
    project's path by [path.join], which normalises.  So when the registered
    paths are resolved - absolute, in normal form and without a slash at the
    end, as addProject stores them - and free of duplicates, no two enabled
    projects share a lock file. *)
Theorem enabled_projects_have_distinct_locks (config : GlobalConfig) :
  List.map path (getEnabledProjects config)
  = List.map entry_path (List.filter entry_enabled (projects config))
  ∧ (∀ ctx, ctx ∈ getEnabledProjects config →
            lockFile ctx = JS.pathJoin (path ctx) ".prp-lock")
  ∧ (Forall (fun p => isResolved (entry_path p) = true) (projects config) →
     NoDup (List.map entry_path (projects config)) →
     NoDup (List.map lockFile (getEnabledProjects config))).
Proof.
  unfold getEnabledProjects. split_and!.
  - by rewrite List.map_map.
  - intros ctx (p & <- & _)%list_elem_of_In%in_map_iff. done.
  - rewrite List.map_map. cbn [lockFile].
    induction (projects config) as [|p l IH]; intros Hres Hnd; [constructor|].
    cbn [List.map List.filter] in *. apply NoDup_cons in Hnd as [Hp Hl].
    apply Forall_cons in Hres as [Hpres Hlres].
    destruct (entry_enabled p); [|by apply IH].
    cbn [List.map]. apply NoDup_cons. split; [|by apply IH].
    intros (q & Heq & Hq)%list_elem_of_In%in_map_iff. apply Hp.
    apply filter_In in Hq as [Hq _].
    rewrite Forall_forall in Hlres.
    apply pathJoin_resolved_lock_inj in Heq;
      [|by apply Hlres, list_elem_of_In|done].
    rewrite <- Heq. by apply list_elem_of_In, in_map.
Qed.

Lemma enabled_projects_have_distinct_locks_witness :
  List.map lockFile (getEnabledProjects twoProjects)
  = ["/work/demo/.prp-lock"; "/work/other/.prp-lock"]
  ∧ NoDup (List.map lockFile (getEnabledProjects twoProjects)).
Proof.
  split; [reflexivity|].
  apply (enabled_projects_have_distinct_locks twoProjects).
  - vm_compute. repeat constructor.
  - vm_compute. apply NoDup_cons. split; [|apply NoDup_singleton].
    by intros [=]%list_elem_of_singleton.
Defined.

(** Two registered paths that differ only by a slash at the end are two
    entries with one and the same lock file. *)
Lemma unresolved_paths_share_a_lock :
  NoDup (List.map entry_path (projects slashedProjects))
  ∧ List.map lockFile (getEnabledProjects slashedProjects)
    = ["/work/demo/.prp-lock"; "/work/demo/.prp-lock"].
Proof.
  split; [|reflexivity].
  vm_compute. apply NoDup_cons. split; [|apply NoDup_singleton].
  by intros [=]%list_elem_of_singleton.
Qed.
